(** * Defensiq network filter: rule store and packet decision engine

    A shallow embedding of [src/rules/blocklist_manager.py] and
    [src/network/filter_engine.py], and the properties of the rule store,
    the DNS name extractor, the packet decision procedure and the
    start/stop life cycle that the design document states about them.

    Conventions of the embedding.
    - A Python [str] is a Rocq [string]; a character outside ASCII is held
      as the bytes of its UTF-8 encoding.  The built-ins [lower], [strip]
      and [int] are modelled on the ASCII range: a byte above 127 is
      neither a letter, a space nor a digit.  A statement that depends on
      what [int] reads carries the hypothesis that its input is ASCII.
    - A Python [dict] with string keys is a [gmap string _]; the source
      never depends on the iteration order of a dict except to write it
      to a file, from which it is read back into a dict.
    - [bytes] is a [list byte].
    - File output can fail: every operation that writes takes the outcome
      of its write as an argument. *)

From Stdlib Require Import ZArith NArith Ascii String Bool.
From Stdlib.Strings Require Import Byte.
From stdpp Require Import gmap strings list fin_maps sorting.

Local Open Scope Z_scope.

(** ** Python built-ins used by the source *)

Module Py.

Definition code (c : ascii) : N := N_of_ascii c.

(** [str.lower] on one character. *)
Definition lower_char (c : ascii) : ascii :=
  if ((65 <=? code c) && (code c <=? 90))%N
  then ascii_of_N (code c + 32) else c.

Fixpoint lower (s : string) : string :=
  match s with
  | EmptyString => EmptyString
  | String c s' => String (lower_char c) (lower s')
  end.

(** [str.isspace] on one ASCII character: TAB, LF, VT, FF, CR, the four
    separators FS, GS, RS, US and the space. *)
Definition isspace (c : ascii) : bool :=
  (((9 <=? code c) && (code c <=? 13))
   || ((28 <=? code c) && (code c <=? 32)))%N.

Fixpoint lstrip (s : string) : string :=
  match s with
  | EmptyString => EmptyString
  | String c s' => if isspace c then lstrip s' else s
  end.

Definition is_empty (s : string) : bool :=
  match s with EmptyString => true | _ => false end.

Fixpoint rstrip (s : string) : string :=
  match s with
  | EmptyString => EmptyString
  | String c s' =>
      let r := rstrip s' in
      if isspace c && is_empty r then EmptyString else String c r
  end.

(** [s.strip()] *)
Definition strip (s : string) : string := rstrip (lstrip s).

(** [s.startswith(p)] *)
Fixpoint startswith (s p : string) {struct p} : bool :=
  match p, s with
  | EmptyString, _ => true
  | String a p', String b s' => if Ascii.eqb a b then startswith s' p' else false
  | String _ _, EmptyString => false
  end.

(** [c in s] for a one-character [c]. *)
Fixpoint contains_char (c : ascii) (s : string) : bool :=
  match s with
  | EmptyString => false
  | String a s' => if Ascii.eqb a c then true else contains_char c s'
  end.

(** Prepend a character to the first word of a list of words. *)
Definition cons_head (c : ascii) (l : list string) : list string :=
  match l with
  | [] => [String c EmptyString]
  | w :: ws => String c w :: ws
  end.

(** [s.split(sep)] for a non-empty separator: the string is scanned from
    the left, every occurrence of [sep] ends a word and scanning resumes
    after it.  [skip] counts the characters of a separator that was
    recognised and is still being stepped over. *)
Fixpoint split_go (sep : string) (skip : nat) (s : string) : list string :=
  match s with
  | EmptyString => [EmptyString]
  | String c s' =>
      match skip with
      | S k => split_go sep k s'
      | O =>
          if startswith s sep
          then EmptyString :: split_go sep (String.length sep - 1) s'
          else cons_head c (split_go sep 0 s')
      end
  end.

Definition split (sep : string) (s : string) : list string :=
  split_go sep 0 s.

(** [sep.join(l)] *)
Fixpoint join (sep : string) (l : list string) : string :=
  match l with
  | [] => EmptyString
  | [w] => w
  | w :: l' => w +:+ sep +:+ join sep l'
  end.

(** [s.split(sep, 1)]: at most one cut, at the first separator. *)
Fixpoint split1_go (sep : string) (s : string) : string * option string :=
  match s with
  | EmptyString => (EmptyString, None)
  | String c s' =>
      if startswith s sep
      then (EmptyString, Some (String.substring (String.length sep) (String.length s) s))
      else let '(w, r) := split1_go sep s' in (String c w, r)
  end.

Definition split1 (sep s : string) : list string :=
  match split1_go sep s with
  | (w, None) => [w]
  | (w, Some r) => [w; r]
  end.

(** Decimal value of an ASCII digit. *)
Definition digit (c : ascii) : option Z :=
  if ((48 <=? code c) && (code c <=? 57))%N
  then Some (Z.of_N (code c) - 48) else None.

(** The digits of an integer literal, read after a first digit: further
    digits, or one underscore followed by a digit. *)
Fixpoint int_digits (acc : Z) (s : string) : option Z :=
  match s with
  | EmptyString => Some acc
  | String c s' =>
      match digit c with
      | Some d => int_digits (10 * acc + d) s'
      | None =>
          if Ascii.eqb c "_"
          then match s' with
               | String c' s'' =>
                   match digit c' with
                   | Some d => int_digits (10 * acc + d) s''
                   | None => None
                   end
               | EmptyString => None
               end
          else None
      end
  end.

Definition int_unsigned (s : string) : option Z :=
  match s with
  | String c s' =>
      match digit c with
      | Some d => int_digits d s'
      | None => None
      end
  | EmptyString => None
  end.

(** The white space that [int] skips at both ends of its argument: the
    six characters of C's [isspace], TAB, LF, VT, FF, CR and the space.
    The separators FS, GS, RS, US, which [str.strip] removes, are no
    white space here. *)
Definition int_space (c : ascii) : bool :=
  (((9 <=? code c) && (code c <=? 13)) || (code c =? 32))%N.

Fixpoint int_lstrip (s : string) : string :=
  match s with
  | EmptyString => EmptyString
  | String c s' => if int_space c then int_lstrip s' else s
  end.

Fixpoint int_rstrip (s : string) : string :=
  match s with
  | EmptyString => EmptyString
  | String c s' =>
      let r := int_rstrip s' in
      if int_space c && is_empty r then EmptyString else String c r
  end.

(** The number of digits of a literal; underscores do not count, leading
    zeros do. *)
Fixpoint count_digits (s : string) : nat :=
  match s with
  | EmptyString => O
  | String c s' =>
      match digit c with
      | Some _ => S (count_digits s')
      | None => count_digits s'
      end
  end.

(** [sys.get_int_max_str_digits()], at its default. *)
Definition int_max_str_digits : nat := 4300.

(** The digits of a literal with their limit: a literal of more than
    [int_max_str_digits] digits is refused, with [ValueError] as well. *)
Definition int_literal (s : string) : option Z :=
  match int_unsigned s with
  | Some n => if (int_max_str_digits <? count_digits s)%nat then None else Some n
  | None => None
  end.

(** [int(s)] in base ten; [None] is [ValueError].  Surrounding white
    space is dropped, one sign is allowed, digits may be grouped by
    single underscores. *)
Definition int (s : string) : option Z :=
  match int_rstrip (int_lstrip s) with
  | String "+" r => int_literal r
  | String "-" r => Z.opp <$> int_literal r
  | r => int_literal r
  end.

End Py.

(** ** The rule store: [rules/blocklist_manager.py] *)

(** The [re] module is outside the repository: the store only compiles a
    pattern and searches a domain with it.  A compiled pattern is
    represented by its source, which is what [pattern.pattern] returns.
    [re_valid p] says that [re.compile(p, re.IGNORECASE)] succeeds and
    [re_search p s] that the compiled pattern finds a match in [s].  When
    the compilation fails, [re_error p] says that the exception is an
    [re.error], the one exception the store catches around [re.compile];
    a repetition count that is too large raises [OverflowError]
    instead. *)
Class Regex := {
  re_valid : string → bool;
  re_error : string → bool;
  re_search : string → string → bool
}.

(** How a call ends: with a value, or with an exception that it does not
    catch. *)
Inductive call_result :=
| Returns (r : bool)
| Raises.

(** [BlocklistCategory.CUSTOM.value] *)
Definition CUSTOM : string := "custom".

(** One [{'value': .., 'category': ..}] object of the rule file; a key can
    be absent. *)
Record entry := Entry {
  e_value : option string;
  e_category : option string
}.

(** The JSON object of a rule file; a key can be absent. *)
Record document := Document {
  doc_domains : option (list entry);
  doc_ips : option (list entry);
  doc_patterns : option (list entry)
}.

(** What a file holds: a rule document, or text that [json.load] rejects. *)
Inductive file_content :=
| Json (d : document)
| Text (lines : list string).

Abbreviation files := (gmap string file_content).

(** Outcome of [open(path, 'w')] followed by the write: success, or an
    exception that leaves [residue] at the path ([None]: no file). *)
Inductive write_result :=
| Written
| WriteFailed (residue : option file_content).

Definition write_file (io : write_result) (path : string) (c : file_content)
    (fs : files) : bool * files :=
  match io with
  | Written => (true, <[path := c]> fs)
  | WriteFailed (Some r) => (false, <[path := r]> fs)
  | WriteFailed None => (false, delete path fs)
  end.

Record BlocklistManager := {
  blocklist_file : string;
  blocked_domains : gmap string string;   (* domain -> category *)
  blocked_ips : gmap string string;       (* ip -> category *)
  blocked_patterns : list (string * string)  (* (regex, category) *)
}.

Definition set_domains (m : gmap string string) (self : BlocklistManager) :=
  {| blocklist_file := blocklist_file self; blocked_domains := m;
     blocked_ips := blocked_ips self; blocked_patterns := blocked_patterns self |}.

Definition set_ips (m : gmap string string) (self : BlocklistManager) :=
  {| blocklist_file := blocklist_file self; blocked_domains := blocked_domains self;
     blocked_ips := m; blocked_patterns := blocked_patterns self |}.

Definition set_patterns (l : list (string * string)) (self : BlocklistManager) :=
  {| blocklist_file := blocklist_file self; blocked_domains := blocked_domains self;
     blocked_ips := blocked_ips self; blocked_patterns := l |}.

(** The result triple [(is_blocked, category, reason)]. *)
Definition verdict : Type := bool * option string * option string.

Section RuleStore.
Context `{Regex}.

(** [[{'value': k, 'category': c} for k, c in d.items()]] *)
Definition items_entries (m : gmap string string) : list entry :=
  (λ kc, Entry (Some kc.1) (Some kc.2)) <$> map_to_list m.

Definition patterns_entries (l : list (string * string)) : list entry :=
  (λ pc, Entry (Some pc.1) (Some pc.2)) <$> l.

(** The document [save_blocklist] builds from memory. *)
Definition memory_document (self : BlocklistManager) : document :=
  {| doc_domains := Some (items_entries (blocked_domains self));
     doc_ips := Some (items_entries (blocked_ips self));
     doc_patterns := Some (patterns_entries (blocked_patterns self)) |}.

Definition save_blocklist (io : write_result) (data : option document)
    (self : BlocklistManager) (fs : files) : bool * files :=
  let data := default (memory_document self) data in
  write_file io (blocklist_file self) (Json data) fs.

(** The loop [for entry in data.get(key, []): d[norm(value)] = category]:
    a later entry overwrites an earlier one with the same key. *)
Definition load_entries (norm : string → string) (l : list entry)
    : gmap string string :=
  foldl (λ m e, <[norm (default "" (e_value e)) := default CUSTOM (e_category e)]> m)
        ∅ l.

(** The loop over the pattern entries.  A pattern that [re.compile]
    refuses with [re.error] is skipped with a warning; any other exception
    leaves the loop, with the patterns appended so far.  The boolean says
    that the loop came to its end. *)
Fixpoint load_patterns_from (acc : list (string * string)) (l : list entry)
    : list (string * string) * bool :=
  match l with
  | [] => (acc, true)
  | e :: l' =>
      let pattern := default "" (e_value e) in
      if re_valid pattern
      then load_patterns_from (acc ++ [(pattern, default CUSTOM (e_category e))]) l'
      else if re_error pattern then load_patterns_from acc l'
      else (acc, false)
  end.

Definition load_patterns (l : list entry) : list (string * string) * bool :=
  load_patterns_from [] l.

Definition default_blocklist : document :=
  {| doc_domains := Some []; doc_ips := Some []; doc_patterns := Some [] |}.

Definition load_blocklist (io : write_result) (self : BlocklistManager)
    (fs : files) : bool * BlocklistManager * files :=
  match fs !! blocklist_file self with
  | None =>
      let '(_, fs') := save_blocklist io (Some default_blocklist) self fs in
      (true, self, fs')
  | Some (Text _) => (false, self, fs)
  | Some (Json data) =>
      let '(patterns, completed) := load_patterns (default [] (doc_patterns data)) in
      (completed,
       {| blocklist_file := blocklist_file self;
          blocked_domains := load_entries Py.lower (default [] (doc_domains data));
          blocked_ips := load_entries id (default [] (doc_ips data));
          blocked_patterns := patterns |},
       fs)
  end.

(** [Path(blocklist_dir) / 'blocklist.json'] *)
Definition path_join (dir name : string) : string := dir +:+ "/" +:+ name.

(** The constructor; creating the directory has no effect on the model. *)
Definition __init__ (io : write_result) (blocklist_dir : string) (fs : files)
    : BlocklistManager * files :=
  let self := {| blocklist_file := path_join blocklist_dir "blocklist.json";
                 blocked_domains := ∅; blocked_ips := ∅; blocked_patterns := [] |} in
  let '(_, self', fs') := load_blocklist io self fs in
  (self', fs').

Definition add_domain (io : write_result) (domain category : string)
    (self : BlocklistManager) (fs : files) : bool * BlocklistManager * files :=
  let domain := Py.strip (Py.lower domain) in
  if Py.is_empty domain || Py.contains_char "/" domain then (false, self, fs)
  else
    let self := set_domains (<[domain := category]> (blocked_domains self)) self in
    let '(r, fs') := save_blocklist io None self fs in (r, self, fs').

(** [all(0 <= int(part) <= 255 for part in parts)]; [None] is the
    [ValueError] of [int]. *)
Fixpoint all_octets (parts : list string) : option bool :=
  match parts with
  | [] => Some true
  | part :: parts' =>
      match Py.int part with
      | None => None
      | Some n => if (0 <=? n) && (n <=? 255) then all_octets parts' else Some false
      end
  end.

Definition _is_valid_ip (ip : string) : bool :=
  let parts := Py.split "." ip in
  if negb (length parts =? 4)%nat then false
  else default false (all_octets parts).

Definition add_ip (io : write_result) (ip category : string)
    (self : BlocklistManager) (fs : files) : bool * BlocklistManager * files :=
  let ip := Py.strip ip in
  if negb (_is_valid_ip ip) then (false, self, fs)
  else
    let self := set_ips (<[ip := category]> (blocked_ips self)) self in
    let '(r, fs') := save_blocklist io None self fs in (r, self, fs').

(** [add_pattern] catches [re.error] only: another exception of
    [re.compile] leaves the call, before anything is changed. *)
Definition add_pattern (io : write_result) (pattern category : string)
    (self : BlocklistManager) (fs : files)
    : call_result * BlocklistManager * files :=
  if re_valid pattern then
    let self := set_patterns (blocked_patterns self ++ [(pattern, category)]) self in
    let '(r, fs') := save_blocklist io None self fs in (Returns r, self, fs')
  else if re_error pattern then (Returns false, self, fs)
  else (Raises, self, fs).

Definition remove_domain (io : write_result) (domain : string)
    (self : BlocklistManager) (fs : files) : bool * BlocklistManager * files :=
  let domain := Py.strip (Py.lower domain) in
  match blocked_domains self !! domain with
  | Some _ =>
      let self := set_domains (delete domain (blocked_domains self)) self in
      let '(r, fs') := save_blocklist io None self fs in (r, self, fs')
  | None => (false, self, fs)
  end.

Definition remove_ip (io : write_result) (ip : string)
    (self : BlocklistManager) (fs : files) : bool * BlocklistManager * files :=
  let ip := Py.strip ip in
  match blocked_ips self !! ip with
  | Some _ =>
      let self := set_ips (delete ip (blocked_ips self)) self in
      let '(r, fs') := save_blocklist io None self fs in (r, self, fs')
  | None => (false, self, fs)
  end.

(** The loop over [range(len(parts))]: the first index [i] whose suffix
    ['.'.join(parts[i:])] is a key. *)
Fixpoint first_parent (m : gmap string string) (parts : list string)
    (indices : list nat) : option (string * string) :=
  match indices with
  | [] => None
  | i :: indices' =>
      let parent_domain := Py.join "." (drop i parts) in
      match m !! parent_domain with
      | Some c => Some (parent_domain, c)
      | None => first_parent m parts indices'
      end
  end.

(** The loop over [blocked_patterns]: the first pattern that matches. *)
Fixpoint first_pattern (domain : string) (ps : list (string * string))
    : option (string * string) :=
  match ps with
  | [] => None
  | (pattern, category) :: ps' =>
      if re_search pattern domain then Some (pattern, category)
      else first_pattern domain ps'
  end.

Definition is_domain_blocked (domain : string) (self : BlocklistManager)
    : verdict :=
  let domain := Py.strip (Py.lower domain) in
  match blocked_domains self !! domain with
  | Some c => (true, Some c, Some "Exact match")
  | None =>
      let parts := Py.split "." domain in
      match first_parent (blocked_domains self) parts (seq 0 (length parts)) with
      | Some (parent_domain, c) =>
          (true, Some c, Some ("Parent domain match: " +:+ parent_domain))
      | None =>
          match first_pattern domain (blocked_patterns self) with
          | Some (pattern, category) =>
              (true, Some category, Some ("Pattern match: " +:+ pattern))
          | None => (false, None, None)
          end
      end
  end.

Definition is_ip_blocked (ip : string) (self : BlocklistManager) : verdict :=
  let ip := Py.strip ip in
  match blocked_ips self !! ip with
  | Some c => (true, Some c, Some "Exact match")
  | None => (false, None, None)
  end.

(** [export_to_file]; [here] is [str(Path(__file__).parent)], which the
    text form writes into its header.  Any other format writes nothing
    and returns [True]. *)
Definition export_to_file (io : write_result) (here : string)
    (file_path format : string) (self : BlocklistManager) (fs : files)
    : bool * files :=
  if String.eqb format "json" then
    let data := {| doc_domains := Some (items_entries (blocked_domains self));
                   doc_ips := Some (items_entries (blocked_ips self));
                   doc_patterns := None |} in
    write_file io file_path (Json data) fs
  else if String.eqb format "txt" then
    let lines :=
      ["# Defensiq Network Security - Blocklist";
       "# Generated: " +:+ here; ""; "# Domains"]
      ++ merge_sort String.le (map_to_list (blocked_domains self)).*1
      ++ [""; "# IP Addresses"]
      ++ merge_sort String.le (map_to_list (blocked_ips self)).*1 in
    write_file io file_path (Text lines) fs
  else (true, fs).

Definition clear_category (io : write_result) (category : string)
    (self : BlocklistManager) (fs : files) : bool * BlocklistManager * files :=
  let self :=
    {| blocklist_file := blocklist_file self;
       blocked_domains := filter (λ dc, dc.2 ≠ category) (blocked_domains self);
       blocked_ips := filter (λ ic, ic.2 ≠ category) (blocked_ips self);
       blocked_patterns := filter (λ pc, pc.2 ≠ category) (blocked_patterns self) |} in
  let '(r, fs') := save_blocklist io None self fs in (r, self, fs').

End RuleStore.

(** ** The packet filter: [network/filter_engine.py] *)

(** *** [bytes.decode('utf-8', errors='ignore')]

    A well-formed UTF-8 sequence is kept, any other byte is dropped and
    decoding resumes at the next byte. *)

Definition is_cont (n : N) : bool := ((128 <=? n) && (n <=? 191))%N.

Definition lead2 (n0 : N) : bool := ((194 <=? n0) && (n0 <=? 223))%N.

Definition lead3 (n0 n1 : N) : bool :=
  (((n0 =? 224) && (160 <=? n1) && (n1 <=? 191))
   || ((225 <=? n0) && (n0 <=? 236) && is_cont n1)
   || ((n0 =? 237) && (128 <=? n1) && (n1 <=? 159))
   || ((238 <=? n0) && (n0 <=? 239) && is_cont n1))%N.

Definition lead4 (n0 n1 : N) : bool :=
  (((n0 =? 240) && (144 <=? n1) && (n1 <=? 191))
   || ((241 <=? n0) && (n0 <=? 243) && is_cont n1)
   || ((n0 =? 244) && (128 <=? n1) && (n1 <=? 143)))%N.

Definition chr (b : byte) : ascii := ascii_of_byte b.

Fixpoint utf8_ignore (bs : list byte) : string :=
  match bs with
  | [] => EmptyString
  | b0 :: r0 =>
      let n0 := Byte.to_N b0 in
      if (n0 <? 128)%N then String (chr b0) (utf8_ignore r0)
      else
        match r0 with
        | [] => EmptyString
        | b1 :: r1 =>
            let n1 := Byte.to_N b1 in
            if lead2 n0 && is_cont n1
            then String (chr b0) (String (chr b1) (utf8_ignore r1))
            else
              match r1 with
              | [] => utf8_ignore r0
              | b2 :: r2 =>
                  let n2 := Byte.to_N b2 in
                  if lead3 n0 n1 && is_cont n2
                  then String (chr b0) (String (chr b1) (String (chr b2) (utf8_ignore r2)))
                  else
                    match r2 with
                    | [] => utf8_ignore r0
                    | b3 :: r3 =>
                        if lead4 n0 n1 && is_cont n2 && is_cont (Byte.to_N b3)
                        then String (chr b0) (String (chr b1) (String (chr b2)
                               (String (chr b3) (utf8_ignore r3))))
                        else utf8_ignore r0
                    end
              end
        end
  end.

(** [payload.startswith(prefix)] on bytes. *)
Fixpoint bytes_startswith (payload prefix : list byte) : bool :=
  match prefix, payload with
  | [], _ => true
  | a :: prefix', b :: payload' =>
      if Byte.eqb a b then bytes_startswith payload' prefix' else false
  | _ :: _, [] => false
  end.

(** *** Packets, statistics, events *)

(** What the engine reads of a [pydivert] packet; [tcp] and [udp] say
    whether the packet has that header. *)
Record packet := {
  src_addr : string;
  dst_addr : string;
  src_port : Z;
  dst_port : Z;
  tcp : bool;
  udp : bool;
  payload : list byte
}.

Record Stats := {
  packets_inspected : Z;
  packets_allowed : Z;
  packets_blocked : Z;
  start_time : option Z
}.

Inductive EventType := ERROR_OCCURRED | SERVICE_STARTED | SERVICE_STOPPED.

Inductive metadata :=
| NoData
| ErrorData (text : string)
| StatsData (s : Stats).

(** A call of the logger: [log_event] or [log_traffic]. *)
Inductive event :=
| LogEvent (kind : EventType) (message : string) (details : metadata)
| LogTraffic (allowed : bool) (protocol src_ip dst_ip : string) (port : Z)
    (reason : string).

(** The engine object.  [blocklist] is the process-wide rule store the
    engine reads; [logger] is the sequence of logger calls made so far;
    [filter_thread] and [divert_handle] say whether the attribute is set. *)
Record FilterEngine := {
  logger : list event;
  blocklist : BlocklistManager;
  running : bool;
  filter_thread : bool;
  divert_handle : bool;
  stats : Stats;
  dns_cache : gmap string string
}.

(** What [start] and the loop read from outside the engine: the import
    flag of [pydivert], the two configuration keys and the clock. *)
Record Env := {
  PYDIVERT_AVAILABLE : bool;
  filtering_enabled : bool;
  log_all_traffic : bool;
  now : Z
}.

Definition log_call (e : event) (self : FilterEngine) : FilterEngine :=
  {| logger := logger self ++ [e]; blocklist := blocklist self;
     running := running self; filter_thread := filter_thread self;
     divert_handle := divert_handle self; stats := stats self;
     dns_cache := dns_cache self |}.

Definition set_running (b : bool) (self : FilterEngine) : FilterEngine :=
  {| logger := logger self; blocklist := blocklist self;
     running := b; filter_thread := filter_thread self;
     divert_handle := divert_handle self; stats := stats self;
     dns_cache := dns_cache self |}.

Definition set_filter_thread (b : bool) (self : FilterEngine) : FilterEngine :=
  {| logger := logger self; blocklist := blocklist self;
     running := running self; filter_thread := b;
     divert_handle := divert_handle self; stats := stats self;
     dns_cache := dns_cache self |}.

Definition set_divert_handle (b : bool) (self : FilterEngine) : FilterEngine :=
  {| logger := logger self; blocklist := blocklist self;
     running := running self; filter_thread := filter_thread self;
     divert_handle := b; stats := stats self;
     dns_cache := dns_cache self |}.

Definition set_stats (s : Stats) (self : FilterEngine) : FilterEngine :=
  {| logger := logger self; blocklist := blocklist self;
     running := running self; filter_thread := filter_thread self;
     divert_handle := divert_handle self; stats := s;
     dns_cache := dns_cache self |}.

Definition set_dns_cache (m : gmap string string) (self : FilterEngine)
    : FilterEngine :=
  {| logger := logger self; blocklist := blocklist self;
     running := running self; filter_thread := filter_thread self;
     divert_handle := divert_handle self; stats := stats self;
     dns_cache := m |}.

Definition set_start_time (t : option Z) (s : Stats) : Stats :=
  {| packets_inspected := packets_inspected s;
     packets_allowed := packets_allowed s;
     packets_blocked := packets_blocked s; start_time := t |}.

Definition incr_inspected (s : Stats) : Stats :=
  {| packets_inspected := packets_inspected s + 1;
     packets_allowed := packets_allowed s;
     packets_blocked := packets_blocked s; start_time := start_time s |}.

Definition incr_allowed (s : Stats) : Stats :=
  {| packets_inspected := packets_inspected s;
     packets_allowed := packets_allowed s + 1;
     packets_blocked := packets_blocked s; start_time := start_time s |}.

Definition incr_blocked (s : Stats) : Stats :=
  {| packets_inspected := packets_inspected s;
     packets_allowed := packets_allowed s;
     packets_blocked := packets_blocked s + 1; start_time := start_time s |}.

(** [FilterEngine()] over the shared rule store. *)
Definition new_engine (store : BlocklistManager) : FilterEngine :=
  {| logger := []; blocklist := store; running := false;
     filter_thread := false; divert_handle := false;
     stats := {| packets_inspected := 0; packets_allowed := 0;
                 packets_blocked := 0; start_time := None |};
     dns_cache := ∅ |}.

(** *** The engine's operations *)

(** How a value is shown inside an f-string. *)
Definition fmt (o : option string) : string := default "None" o.

Definition CRLF : string := String "013" (String "010" EmptyString).

Definition protocol_of (p : packet) : string :=
  if tcp p then "TCP" else if udp p then "UDP" else "OTHER".

(** The [while pos < len(payload)] loop of [_extract_dns_domain].  Every
    turn that continues moves [pos] forward, so [len(payload)] turns are
    enough; [None] means the turns given were used up. *)
Fixpoint qname_loop (turns : nat) (payload : list byte) (pos : nat)
    (domain_parts : list string) : option (list string) :=
  match turns with
  | O => None
  | S turns' =>
      match payload !! pos with
      | None => Some domain_parts
      | Some b =>
          let len := Byte.to_nat b in
          if (len =? 0)%nat then Some domain_parts
          else if (192 <=? len)%nat then Some domain_parts
          else
            let pos := (pos + 1)%nat in
            if (pos + len <=? length payload)%nat then
              let label := utf8_ignore (take len (drop pos payload)) in
              qname_loop turns' payload (pos + len)%nat (domain_parts ++ [label])
            else Some domain_parts
      end
  end.

(** [_extract_dns_domain]: [None] is the Python [None].  No statement of
    the body can raise, so the [except] branch is never taken. *)
Definition _extract_dns_domain (p : packet) : option string :=
  match payload p with
  | [] => None
  | _ =>
      if (length (payload p) <? 13)%nat then None
      else
        match qname_loop (length (payload p)) (payload p) 12 [] with
        | Some (part :: parts) => Some (Py.lower (Py.join "." (part :: parts)))
        | _ => None
        end
  end.

Section Engine.
Context `{Regex}.

(** [start]; [thread_error] is the exception, if any, that starting the
    worker thread raises. *)
Definition start (env : Env) (thread_error : option string)
    (self : FilterEngine) : bool * FilterEngine :=
  if negb (PYDIVERT_AVAILABLE env) then
    (false, log_call (LogEvent ERROR_OCCURRED
                        "PyDivert not available. Cannot start filtering."
                        (ErrorData "Module not installed")) self)
  else if negb (filtering_enabled env) then
    (false, log_call (LogEvent ERROR_OCCURRED
                        "Filtering not enabled in configuration" NoData) self)
  else if running self then (true, self)
  else
    let self := set_running true self in
    let self := set_stats (set_start_time (Some (now env)) (stats self)) self in
    let self := set_filter_thread true self in
    match thread_error with
    | None =>
        (true, log_call (LogEvent SERVICE_STARTED
                           "Packet filtering engine started" NoData) self)
    | Some e =>
        let self := log_call (LogEvent ERROR_OCCURRED
                                ("Failed to start filtering engine: " +:+ e)
                                (ErrorData e)) self in
        (false, set_running false self)
    end.

(** What can go wrong in [stop]: closing the handle or joining the thread
    raises. *)
Inductive stop_fault :=
| NoFault
| CloseRaises (e : string)
| JoinRaises (e : string).

Definition stop_failed (e : string) (self : FilterEngine) : bool * FilterEngine :=
  (false, log_call (LogEvent ERROR_OCCURRED
                      ("Error stopping filtering engine: " +:+ e)
                      (ErrorData e)) self).

Definition stop (fault : stop_fault) (self : FilterEngine) : bool * FilterEngine :=
  if negb (running self) then (true, self)
  else
    let self := set_running false self in
    match fault, divert_handle self with
    | CloseRaises e, true => stop_failed e self
    | _, _ =>
        let self := set_divert_handle false self in
        match fault, filter_thread self with
        | JoinRaises e, true => stop_failed e self
        | _, _ =>
            (true, log_call (LogEvent SERVICE_STOPPED
                               "Packet filtering engine stopped"
                               (StatsData (stats self))) self)
        end
    end.

(** The loop over the lines of an HTTP request.  Every [Host:] line
    overwrites the cache entry of [dst_ip]; the loop returns at the first
    blocked host.  A line without a colon would make [split(':', 1)[1]]
    raise, which the bare [except] turns into the final [(False, None)]. *)
Fixpoint host_scan (store : BlocklistManager) (dst_ip : string)
    (lines : list string) (cache : gmap string string)
    : (bool * option string) * gmap string string :=
  match lines with
  | [] => ((false, None), cache)
  | line :: lines' =>
      if Py.startswith (Py.lower line) "host:" then
        match Py.split1 ":" line !! 1%nat with
        | None => ((false, None), cache)
        | Some after =>
            let host := Py.strip after in
            let host := default EmptyString (head (Py.split ":" host)) in
            let cache := <[dst_ip := host]> cache in
            match is_domain_blocked host store with
            | (true, category, reason) =>
                ((true, Some ("Blocked HTTP Host (" +:+ fmt category +:+ "): "
                              +:+ host +:+ " - " +:+ fmt reason)), cache)
            | _ => host_scan store dst_ip lines' cache
            end
        end
      else host_scan store dst_ip lines' cache
  end.

(** The Host-header step, taken for TCP port 80 only. *)
Definition http_host_check (p : packet) (self : FilterEngine)
    : (bool * option string) * FilterEngine :=
  if (dst_port p =? 80) && tcp p then
    if bytes_startswith (payload p) (list_byte_of_string "GET ")
       || bytes_startswith (payload p) (list_byte_of_string "POST ")
       || bytes_startswith (payload p) (list_byte_of_string "HEAD ")
    then
      let payload_str := utf8_ignore (payload p) in
      let '(r, cache) := host_scan (blocklist self) (dst_addr p)
                           (Py.split CRLF payload_str) (dns_cache self) in
      (r, set_dns_cache cache self)
    else ((false, None), self)
  else ((false, None), self).

(** The web-port step: cached domain first, then the Host header. *)
Definition web_check (p : packet) (self : FilterEngine)
    : (bool * option string) * FilterEngine :=
  if String.eqb (protocol_of p) "TCP" && ((dst_port p =? 80) || (dst_port p =? 443))
  then
    match dns_cache self !! dst_addr p with
    | Some domain =>
        match is_domain_blocked domain (blocklist self) with
        | (true, category, reason) =>
            ((true, Some ("Blocked HTTP/HTTPS to " +:+ domain +:+ " ("
                          +:+ fmt category +:+ "): " +:+ fmt reason)), self)
        | _ => http_host_check p self
        end
    | None => http_host_check p self
    end
  else ((false, None), self).

(** [_should_block_packet]: the pair [(should_block, reason)] and the
    engine, whose [dns_cache] the call may have written. *)
Definition _should_block_packet (p : packet) (self : FilterEngine)
    : (bool * option string) * FilterEngine :=
  let dst_ip := dst_addr p in
  match is_ip_blocked dst_ip (blocklist self) with
  | (true, category, reason) =>
      ((true, Some ("Blocked IP (" +:+ fmt category +:+ "): " +:+ fmt reason)), self)
  | _ =>
      if String.eqb (protocol_of p) "UDP" && ((dst_port p =? 53) || (src_port p =? 53))
      then
        match _extract_dns_domain p with
        | Some (String c d as domain) =>
            let self :=
              if src_port p =? 53
              then set_dns_cache (<[dst_ip := domain]> (dns_cache self)) self
              else self in
            match is_domain_blocked domain (blocklist self) with
            | (true, category, reason) =>
                ((true, Some ("Blocked DNS (" +:+ fmt category +:+ "): "
                              +:+ domain +:+ " - " +:+ fmt reason)), self)
            | _ => web_check p self
            end
        | _ => web_check p self
        end
      else web_check p self
  end.

(** *** The filtering loop *)

(** The whole loop stands in a [try] whose handler logs the exception and
    clears the running flag. *)
Definition loop_failed (e : string) (self : FilterEngine) : FilterEngine :=
  set_running false
    (log_call (LogEvent ERROR_OCCURRED ("Filter loop error: " +:+ e)
                 (ErrorData e)) self).

(** An exception inside the body of the loop, with its text: raised by
    the decision while it reads the packet, by the traffic log, or by
    [divert.send]. *)
Inductive loop_fault :=
| NoLoopFault
| DecisionRaises (e : string)
| LogRaises (e : string)
| SendRaises (e : string).

(** What the handle delivers to [for packet in divert]: a packet, with
    the exception that handling it will meet, or an exception of the
    handle itself. *)
Inductive delivery :=
| Delivered (p : packet) (fault : loop_fault)
| RecvRaises (e : string).

(** What one turn of the loop does with the packet it received. *)
Inductive action := Break | Dropped | Reinjected | Failed.

(** The body of [for packet in divert].  A fault strikes only if the
    statement it belongs to is reached: the log of an allowed packet is
    written only when all traffic is logged, and only an allowed packet
    is sent. *)
Definition filter_packet (env : Env) (fault : loop_fault) (p : packet)
    (self : FilterEngine) : action * FilterEngine :=
  if negb (running self) then (Break, self)
  else
    let self := set_stats (incr_inspected (stats self)) self in
    match fault with
    | DecisionRaises e => (Failed, loop_failed e self)
    | _ =>
        match _should_block_packet p self with
        | ((true, reason), self) =>
            let self := set_stats (incr_blocked (stats self)) self in
            match fault with
            | LogRaises e => (Failed, loop_failed e self)
            | _ =>
                (Dropped,
                 log_call (LogTraffic false (protocol_of p) (src_addr p)
                             (dst_addr p) (dst_port p) (fmt reason)) self)
            end
        | ((false, _), self) =>
            let self := set_stats (incr_allowed (stats self)) self in
            let logged :=
              log_call (LogTraffic true (protocol_of p) (src_addr p) (dst_addr p)
                          (dst_port p) EmptyString) self in
            match log_all_traffic env, fault with
            | true, LogRaises e => (Failed, loop_failed e self)
            | true, SendRaises e => (Failed, loop_failed e logged)
            | true, _ => (Reinjected, logged)
            | false, SendRaises e => (Failed, loop_failed e self)
            | false, _ => (Reinjected, self)
            end
        end
    end.

(** [_filter_loop] over what the handle delivers; [open_error] is the
    exception, if any, that opening the handle raises.  The result lists
    the packets that were sent on. *)
Fixpoint filter_packets (env : Env) (deliveries : list delivery)
    (self : FilterEngine) : list packet * FilterEngine :=
  match deliveries with
  | [] => ([], self)
  | RecvRaises e :: _ => ([], loop_failed e self)
  | Delivered p fault :: deliveries' =>
      match filter_packet env fault p self with
      | (Break, self) => ([], self)
      | (Failed, self) => ([], self)
      | (Dropped, self) => filter_packets env deliveries' self
      | (Reinjected, self) =>
          let '(sent, self) := filter_packets env deliveries' self in
          (p :: sent, self)
      end
  end.

Definition _filter_loop (env : Env) (open_error : option string)
    (deliveries : list delivery) (self : FilterEngine)
    : list packet * FilterEngine :=
  match open_error with
  | Some e => ([], loop_failed e self)
  | None => filter_packets env deliveries (set_divert_handle true self)
  end.

End Engine.

(** ** Vocabulary of the statements *)

(** [domain.lower().strip()], the normal form both [add_domain] and
    [is_domain_blocked] give a domain. *)
Definition normalise (domain : string) : string := Py.strip (Py.lower domain).

(** [S] is a dot-delimited suffix of [D]: it is [D], or it follows a dot
    in [D]. *)
Definition dot_suffix (S D : string) : Prop :=
  D = S ∨ ∃ p, D = p +:+ "." +:+ S.

(** [sub in s] *)
Fixpoint contains (s sub : string) : bool :=
  Py.startswith s sub ||
  match s with
  | EmptyString => false
  | String _ s' => contains s' sub
  end.

(** A regular-expression engine for the examples.  It knows patterns
    without metacharacters: every source compiles, and matches the strings
    that contain it, case ignored. *)
Definition literal_regex : Regex :=
  {| re_valid := λ _, true;
     re_error := λ _, true;
     re_search := λ pattern s, contains (Py.lower s) (Py.lower pattern) |}.

(** The same engine, with the one pattern it cannot compile: the
    repetition count is too large for [re.compile], which raises
    [OverflowError] and not [re.error]. *)
Definition overflow_pattern : string := "a{4294967296}".

Definition overflow_regex : Regex :=
  {| re_valid := λ pattern, negb (String.eqb pattern overflow_pattern);
     re_error := λ _, false;
     re_search := λ pattern s, contains (Py.lower s) (Py.lower pattern) |}.

(** Stores of the examples. *)
Definition empty_store : BlocklistManager :=
  {| blocklist_file := "config/blocklist.json"; blocked_domains := ∅;
     blocked_ips := ∅; blocked_patterns := [] |}.

Definition ads_store : BlocklistManager :=
  set_domains {["ads.com" := "advertising"]} empty_store.

(** The five mutating operations of the store, as one request type. *)
Inductive mutation :=
| AddDomain (domain category : string)
| AddIp (ip category : string)
| AddPattern (pattern category : string)
| RemoveDomain (domain : string)
| RemoveIp (ip : string).

Definition returns (call : bool * BlocklistManager * files)
    : call_result * BlocklistManager * files :=
  let '(r, self, fs) := call in (Returns r, self, fs).

Definition apply_mutation `{Regex} (io : write_result) (m : mutation)
    (self : BlocklistManager) (fs : files)
    : call_result * BlocklistManager * files :=
  match m with
  | AddDomain domain category => returns (add_domain io domain category self fs)
  | AddIp ip category => returns (add_ip io ip category self fs)
  | AddPattern pattern category => add_pattern io pattern category self fs
  | RemoveDomain domain => returns (remove_domain io domain self fs)
  | RemoveIp ip => returns (remove_ip io ip self fs)
  end.

(** The input of a mutation passes the operation's own check: the domain
    is not empty and has no slash, the address is valid, the pattern
    compiles, the key to remove is present. *)
Definition passes_validation `{Regex} (m : mutation) (self : BlocklistManager)
    : bool :=
  match m with
  | AddDomain domain _ =>
      negb (Py.is_empty (normalise domain) || Py.contains_char "/" (normalise domain))
  | AddIp ip _ => _is_valid_ip (Py.strip ip)
  | AddPattern pattern _ => re_valid pattern
  | RemoveDomain domain =>
      bool_decide (is_Some (blocked_domains self !! normalise domain))
  | RemoveIp ip => bool_decide (is_Some (blocked_ips self !! Py.strip ip))
  end.

(** Every domain key is in lower case; the store keeps it so. *)
Definition lower_keys (self : BlocklistManager) : Prop :=
  ∀ d, is_Some (blocked_domains self !! d) → Py.lower d = d.

(** The value of a string of decimal digits; [None] when a character is
    not a digit. *)
Fixpoint decimal (acc : Z) (s : string) : option Z :=
  match s with
  | EmptyString => Some acc
  | String c s' =>
      match Py.digit c with
      | Some d => decimal (10 * acc + d) s'
      | None => None
      end
  end.



(** A store with one pattern rule. *)
Definition pattern_store : BlocklistManager :=
  set_patterns [("tracker", "advertising")] ads_store.

(** Environments and packets of the examples. *)
Definition env_on : Env :=
  {| PYDIVERT_AVAILABLE := true; filtering_enabled := true;
     log_all_traffic := false; now := 1000 |}.

Definition env_disabled : Env :=
  {| PYDIVERT_AVAILABLE := true; filtering_enabled := false;
     log_all_traffic := false; now := 2000 |}.

Definition env_later : Env :=
  {| PYDIVERT_AVAILABLE := true; filtering_enabled := true;
     log_all_traffic := false; now := 3000 |}.

(** A TCP segment to port 22 without payload. *)
Definition plain_packet : packet :=
  {| src_addr := "192.0.2.1"; dst_addr := "198.51.100.7";
     src_port := 50000; dst_port := 22; tcp := true; udp := false;
     payload := [] |}.

(** A label as it is on the wire: its length byte, then its bytes. *)
Definition wire_label (l : list byte) : list byte :=
  match Byte.of_nat (length l) with
  | Some b => b :: l
  | None => []
  end.

(** A length a label can have: a length byte of 0 ends the name and one
    of 192 or more is a compression pointer. *)
Definition label_length (n : nat) : Prop := (0 < n < 192)%nat.

(** The twelve bytes of a DNS header, all zero. *)
Definition dns_header : list byte := replicate 12 x00.

(** The query name [www.example.com], complete, and the same message cut
    in the middle of its second label. *)
Definition complete_query : list byte :=
  dns_header ++ wire_label (list_byte_of_string "www")
  ++ wire_label (list_byte_of_string "example")
  ++ wire_label (list_byte_of_string "com") ++ [x00].

Definition truncated_query : list byte :=
  dns_header ++ wire_label (list_byte_of_string "www")
  ++ [x07] ++ list_byte_of_string "exa".

Definition udp_packet (src dst : string) (sport dport : Z) (data : list byte)
    : packet :=
  {| src_addr := src; dst_addr := dst; src_port := sport; dst_port := dport;
     tcp := false; udp := true; payload := data |}.

Definition tcp_packet (src dst : string) (sport dport : Z) (data : list byte)
    : packet :=
  {| src_addr := src; dst_addr := dst; src_port := sport; dst_port := dport;
     tcp := true; udp := false; payload := data |}.

(** An HTTP request for the host [other.test]. *)
Definition http_request : list byte :=
  list_byte_of_string
    ("GET / HTTP/1.1" +:+ CRLF +:+ "Host: other.test:8080" +:+ CRLF +:+ CRLF).

(** An engine whose cache maps an address to [good.test], over a store
    without rules. *)
Definition cached_engine : FilterEngine :=
  set_dns_cache {["198.51.100.7" := "good.test"]} (new_engine empty_store).

(** The DNS answer for [malware.test]. *)
Definition malware_answer : list byte :=
  dns_header ++ wire_label (list_byte_of_string "malware")
  ++ wire_label (list_byte_of_string "test") ++ [x00].

(** The store after [add_domain("malware.test", "malware")]. *)
Definition malware_store : BlocklistManager :=
  (add_domain Written "malware.test" "malware" empty_store ∅).1.2.

Definition malware_dns_answer : packet :=
  udp_packet "192.0.2.53" "203.0.113.5" 53 50000 malware_answer.

Definition https_packet : packet :=
  tcp_packet "192.0.2.1" "203.0.113.5" 50001 443 [].

(** The store after [add_domain("malware.test", "malware")] and
    [add_ip("203.0.113.5", "custom")]. *)
Definition malware_ip_store : BlocklistManager :=
  (add_ip Written "203.0.113.5" "custom" malware_store ∅).1.2.

Definition http_packet : packet :=
  tcp_packet "192.0.2.1" "198.51.100.7" 50002 80 http_request.

(** The methods whose requests the Host-header step reads. *)
Definition is_http_request (data : list byte) : bool :=
  bytes_startswith data (list_byte_of_string "GET ")
  || bytes_startswith data (list_byte_of_string "POST ")
  || bytes_startswith data (list_byte_of_string "HEAD ").

(** A line that is no [Host:] header. *)
Definition no_host (line : string) : Prop :=
  Py.startswith (Py.lower line) "host:" = false.

(** Every stored pattern compiles: [add_pattern] and the loader keep
    compiled patterns only. *)
Definition valid_patterns `{Regex} (self : BlocklistManager) : Prop :=
  Forall (λ pc, re_valid pc.1 = true) (blocked_patterns self).

(** The two facts every store built by this module satisfies. *)
Definition store_ok `{Regex} (self : BlocklistManager) : Prop :=
  lower_keys self ∧ valid_patterns self.

(** A store with three pattern rules and no domain rule. *)
Definition two_patterns_store : BlocklistManager :=
  set_patterns [("casino", "gambling"); ("tracker", "advertising"); ("track", "custom")]
    empty_store.

(** *** Statistics and import of the rule store *)

(** The values of [BlocklistCategory], in the order of the enumeration. *)
Definition categories : list string :=
  ["malware"; "phishing"; "advertising"; "gambling"; "adult"; "custom"].

(** [sum(1 for c in d.values() if c == category)] *)
Definition count_category (m : gmap string string) (category : string) : nat :=
  length (filter (λ c, c = category) (map_to_list m).*2).

(** The dict [get_statistics] returns; [by_category] lists, for each
    category of the enumeration, the number of domains and of addresses. *)
Record statistics := {
  total_domains : nat;
  total_ips : nat;
  total_patterns : nat;
  by_category : list (string * (nat * nat))
}.

Definition get_statistics (self : BlocklistManager) : statistics :=
  {| total_domains := size (blocked_domains self);
     total_ips := size (blocked_ips self);
     total_patterns := length (blocked_patterns self);
     by_category :=
       (λ category, (category, (count_category (blocked_domains self) category,
                                count_category (blocked_ips self) category)))
       <$> categories |}.

(** The state an import threads through its loop: the count, the store
    and the files. *)
Definition import_state : Type := nat * BlocklistManager * files.

Definition counted (r : bool) (count : nat) : nat := if r then S count else count.

(** One line of the text form: blank lines and comments are skipped, a
    valid address goes to [add_ip], anything else to [add_domain]. *)
Definition import_text_line (io : write_result) (category line : string)
    (st : import_state) : import_state :=
  let '(count, self, fs) := st in
  let line := Py.strip line in
  if Py.is_empty line || Py.startswith line "#" then st
  else if _is_valid_ip line then
    let '(r, self, fs) := add_ip io line category self fs in
    (counted r count, self, fs)
  else
    let '(r, self, fs) := add_domain io line category self fs in
    (counted r count, self, fs).

(** One entry of the JSON form, of the ['domains'] and of the ['ips']
    list. *)
Definition import_json_domain (io : write_result) (category : string) (e : entry)
    (st : import_state) : import_state :=
  let '(count, self, fs) := st in
  let '(r, self, fs) :=
    add_domain io (default "" (e_value e)) (default category (e_category e)) self fs in
  (counted r count, self, fs).

Definition import_json_ip (io : write_result) (category : string) (e : entry)
    (st : import_state) : import_state :=
  let '(count, self, fs) := st in
  let '(r, self, fs) :=
    add_ip io (default "" (e_value e)) (default category (e_category e)) self fs in
  (counted r count, self, fs).

(** A loop over the items of a file; [io_at i] is the outcome of the
    write item number [i] performs, if it performs one. *)
Fixpoint import_loop {A : Type} (step : write_result → A → import_state → import_state)
    (io_at : nat → write_result) (i : nat) (items : list A) (st : import_state)
    : import_state :=
  match items with
  | [] => st
  | x :: items' => import_loop step io_at (S i) items' (step (io_at i) x st)
  end.

Definition import_text (io_at : nat → write_result) (category : string)
    (lines : list string) (st : import_state) : import_state :=
  import_loop (λ io, import_text_line io category) io_at 0 lines st.

Definition import_json (io_at : nat → write_result) (category : string)
    (data : document) (st : import_state) : import_state :=
  let domains := default [] (doc_domains data) in
  let st := import_loop (λ io, import_json_domain io category) io_at 0 domains st in
  import_loop (λ io, import_json_ip io category) io_at (length domains)
    (default [] (doc_ips data)) st.

(** [import_from_file].  [suffix] is [file_path.suffix] as [pathlib]
    computes it; [json_text] gives the lines of a file that holds a JSON
    document, for the case where such a file is read as text.  A file
    with the suffix [.json] that is not JSON makes [json.load] raise,
    and the count so far, 0, is returned. *)
Definition import_from_file (io_at : nat → write_result) (suffix : string)
    (json_text : document → list string) (file_path category : string)
    (self : BlocklistManager) (fs : files) : import_state :=
  match fs !! file_path with
  | None => (0%nat, self, fs)
  | Some content =>
      if String.eqb (Py.lower suffix) ".json" then
        match content with
        | Json data => import_json io_at category data (0%nat, self, fs)
        | Text _ => (0%nat, self, fs)
        end
      else
        match content with
        | Text lines => import_text io_at category lines (0%nat, self, fs)
        | Json data => import_text io_at category (json_text data) (0%nat, self, fs)
        end
  end.

(** What an import can do to a store: add or overwrite domain and address
    rules, and nothing else. *)
Definition grows (self self' : BlocklistManager) : Prop :=
  blocklist_file self' = blocklist_file self
  ∧ blocked_patterns self' = blocked_patterns self
  ∧ (∀ k, is_Some (blocked_domains self !! k) → is_Some (blocked_domains self' !! k))
  ∧ (∀ k, is_Some (blocked_ips self !! k) → is_Some (blocked_ips self' !! k))
  ∧ (lower_keys self → lower_keys self').

(** A line the text import acts on, and a line it accepts. *)
Definition significant (line : string) : bool :=
  negb (Py.is_empty (Py.strip line) || Py.startswith (Py.strip line) "#").

Definition accepted (line : string) : bool :=
  _is_valid_ip (Py.strip line)
  || negb (Py.contains_char "/" (normalise (Py.strip line))).

(** A store with a rule of a category outside the enumeration, as the
    NextDNS import of the dashboard creates them. *)
Definition nextdns_store : BlocklistManager :=
  set_domains (<["tracker.example" := "nextdns"]> (blocked_domains ads_store))
    ads_store.

(** The rules of one category stay: what a later line of the same import
    can do to an earlier one. *)
Definition keeps (category : string) (self self' : BlocklistManager) : Prop :=
  (∀ k, blocked_domains self !! k = Some category →
        blocked_domains self' !! k = Some category)
  ∧ (∀ k, blocked_ips self !! k = Some category →
          blocked_ips self' !! k = Some category).

(** The lines of a small hosts file. *)
Definition hosts_lines : list string :=
  ["# blocked hosts"; ""; "Ads.Example.com "; "203.0.113.9"; "bad/path"; "999.1.1.1"].

(** *** Runs of the engine *)

(** What can happen to an engine, one call after the other: [start],
    [stop], and a run of the worker's loop over what the handle
    delivers. *)
Inductive engine_op :=
| OpStart (env : Env) (thread_error : option string)
| OpStop (fault : stop_fault)
| OpLoop (env : Env) (open_error : option string) (deliveries : list delivery).

Definition apply_op `{Regex} (op : engine_op) (self : FilterEngine) : FilterEngine :=
  match op with
  | OpStart env thread_error => (start env thread_error self).2
  | OpStop fault => (stop fault self).2
  | OpLoop env open_error deliveries =>
      (_filter_loop env open_error deliveries self).2
  end.

Definition run_ops `{Regex} (ops : list engine_op) (self : FilterEngine)
    : FilterEngine :=
  foldl (λ e op, apply_op op e) self ops.

(** Every packet inspected was either allowed or blocked. *)
Definition balanced (s : Stats) : Prop :=
  packets_inspected s = packets_allowed s + packets_blocked s
  ∧ 0 ≤ packets_allowed s ∧ 0 ≤ packets_blocked s.

(** Packets delivered without any exception. *)
Definition clean (packets : list packet) : list delivery :=
  (λ p, Delivered p NoLoopFault) <$> packets.

(** The packets among what the handle delivers. *)
Definition delivered (deliveries : list delivery) : list packet :=
  omap (λ d, match d with Delivered p _ => Some p | RecvRaises _ => None end)
       deliveries.

(** The packets that were inspected and neither allowed nor blocked. *)
Definition lost (s : Stats) : Z :=
  packets_inspected s - (packets_allowed s + packets_blocked s).

Definition is_decision_fault (d : delivery) : bool :=
  match d with
  | Delivered _ (DecisionRaises _) => true
  | _ => false
  end.

(** A run of the loop in which the decision raises on some packet. *)
Definition may_lose (op : engine_op) : bool :=
  match op with
  | OpLoop _ None deliveries => existsb is_decision_fault deliveries
  | _ => false
  end.

(** A packet that is neither a DNS message nor web traffic: no step of
    the decision after the address rules looks at it. *)
Definition unseen (p : packet) : bool :=
  negb (String.eqb (protocol_of p) "UDP" && ((dst_port p =? 53) || (src_port p =? 53)))
  && negb (String.eqb (protocol_of p) "TCP"
           && ((dst_port p =? 80) || (dst_port p =? 443))).

(** The verdict on a packet that arrives at the engine [self]. *)
Definition blocks `{Regex} (p : packet) (self : FilterEngine) : bool :=
  (_should_block_packet p (set_stats (incr_inspected (stats self)) self)).1.1.

(** The same packet with another payload. *)
Definition with_payload (data : list byte) (p : packet) : packet :=
  {| src_addr := src_addr p; dst_addr := dst_addr p; src_port := src_port p;
     dst_port := dst_port p; tcp := tcp p; udp := udp p; payload := data |}.

(** A verdict carries a reason exactly when it blocks. *)
Definition well_formed (v : bool * option string) : Prop :=
  if v.1 then is_Some v.2 else v.2 = None.

(** *** Names on the wire *)

(** The byte after the last label: the zero byte that ends a name, or the
    first byte of a compression pointer. *)
Definition ends_name (b : byte) : Prop :=
  Byte.to_nat b = 0%nat ∨ (192 ≤ Byte.to_nat b)%nat.

(** The wire form of a domain name: its labels, each behind its length,
    and the zero byte. *)
Definition encode_name (name : string) : list byte :=
  flat_map wire_label (list_byte_of_string <$> Py.split "." name) ++ [x00].

(** Every character is ASCII. *)
Fixpoint ascii_only (s : string) : bool :=
  match s with
  | EmptyString => true
  | String c s' => (Py.code c <? 128)%N && ascii_only s'
  end.

(** ** The configuration: [core/config.py]

    The configuration is the value [json.load] returns.  A dict is the
    list of its items in insertion order, with distinct keys.  Numbers
    that are not integers do not occur in the settings and are left out.
    The model covers the dict held in memory; the settings file and its
    checksum are represented by the outcome of the write alone. *)

#[local] Set Warnings "-register-all".

Inductive json :=
| JNull
| JBool (b : bool)
| JInt (n : Z)
| JStr (s : string)
| JList (l : list json)
| JDict (items : list (string * json)).

(** [d[key]] when [key in d] *)
Fixpoint dict_get (key : string) (items : list (string * json)) : option json :=
  match items with
  | [] => None
  | (k, v) :: items' => if String.eqb k key then Some v else dict_get key items'
  end.

(** [d[key] = value]: the item is replaced where it is, or added last. *)
Fixpoint dict_set (key : string) (value : json) (items : list (string * json))
    : list (string * json) :=
  match items with
  | [] => [(key, value)]
  | (k, v) :: items' =>
      if String.eqb k key then (k, value) :: items'
      else (k, v) :: dict_set key value items'
  end.

(** The loop of [ConfigManager.get] over the keys of the path. *)
Fixpoint get_keys (keys : list string) (value default : json) : json :=
  match keys with
  | [] => value
  | key :: keys' =>
      match value with
      | JDict items =>
          match dict_get key items with
          | Some v => get_keys keys' v default
          | None => default
          end
      | _ => default
      end
  end.

(** [ConfigManager.get(key_path, default)] on the configuration
    [config]. *)
Definition config_get (key_path : string) (default config : json) : json :=
  get_keys (Py.split "." key_path) config default.

(** The navigation and assignment of [ConfigManager.set]: a missing key
    on the way gets an empty dict; [None] is the [TypeError] raised when
    a value on the way is not a dict. *)
Fixpoint set_keys (keys : list string) (value config : json) : option json :=
  match keys with
  | [] => None
  | [key] =>
      match config with
      | JDict items => Some (JDict (dict_set key value items))
      | _ => None
      end
  | key :: keys' =>
      match config with
      | JDict items =>
          match set_keys keys' value (default (JDict []) (dict_get key items)) with
          | Some sub => Some (JDict (dict_set key sub items))
          | None => None
          end
      | _ => None
      end
  end.

(** [ConfigManager.set(key_path, value)]: the new value of [self.config]
    and the result of [save()], whose write succeeds or not as [saved]
    says; [None] when the call raises.  The source assigns in place: what
    is given here is the configuration as [self.config] shows it after
    the call, not which other references see the assignment. *)
Definition config_set (saved : bool) (key_path : string) (value config : json)
    : option (bool * json) :=
  match set_keys (Py.split "." key_path) value config with
  | Some config' => Some (saved, config')
  | None => None
  end.

(** [merge(default, loaded)] of [_merge_with_defaults]: the items of
    [loaded] are put into a copy of [default]; where both hold a dict
    under a key, the two dicts are merged in the same way. *)
Fixpoint merge_value (default loaded : json) {struct loaded} : json :=
  match default, loaded with
  | JDict d, JDict l =>
      JDict
        ((fix merge_items (l : list (string * json)) (result : list (string * json))
            : list (string * json) :=
            match l with
            | [] => result
            | (key, value) :: l' =>
                merge_items l'
                  (dict_set key
                     (match dict_get key result with
                      | Some (JDict _ as dv) =>
                          match value with
                          | JDict _ => merge_value dv value
                          | _ => value
                          end
                      | _ => value
                      end) result)
            end) l d)
  | _, _ => loaded
  end.

(** The value of [ConfigManager.DEFAULT_CONFIG] as the class body
    defines it.  The attribute is a mutable dict: [load] returns a
    shallow copy of it when there is no settings file, and [set] on that
    copy writes into the nested dicts of the attribute itself.  The
    functions of this part give the value of [self.config]; they are used
    with [DEFAULT_CONFIG] for a process in which no such [set] has been
    made. *)
Definition DEFAULT_CONFIG : json :=
  JDict
    [("app", JDict [("theme", JStr "light"); ("auto_start", JBool false);
                    ("minimize_to_tray", JBool true);
                    ("show_notifications", JBool true)]);
     ("monitoring", JDict [("enabled", JBool true); ("capture_mode", JStr "passive");
                           ("update_interval", JInt 1000);
                           ("log_all_traffic", JBool false)]);
     ("filtering", JDict [("enabled", JBool false); ("block_mode", JStr "drop");
                          ("log_blocked", JBool true)]);
     ("cia_triad", JDict [("confidentiality_checks", JBool true);
                          ("integrity_checks", JBool true);
                          ("availability_checks", JBool true);
                          ("http_warning", JBool true);
                          ("dos_threshold", JInt 1000)]);
     ("blocklist", JDict [("enabled", JBool false);
                          ("categories",
                           JDict [("malware", JBool true); ("phishing", JBool true);
                                  ("advertising", JBool false);
                                  ("gambling", JBool false); ("adult", JBool false)])]);
     ("windows", JDict [("firewall_integration", JBool false);
                        ("defender_monitoring", JBool true);
                        ("event_viewer_import", JBool false)]);
     ("logging", JDict [("level", JStr "INFO"); ("max_log_size_mb", JInt 100);
                        ("retention_days", JInt 30); ("export_format", JStr "csv")])].

(** [_merge_with_defaults(config)]; [None] is the [AttributeError] that
    [loaded.items()] raises when the loaded value is not a dict. *)
Definition _merge_with_defaults (config : json) : option json :=
  match config with
  | JDict _ => Some (merge_value DEFAULT_CONFIG config)
  | _ => None
  end.

(** The items of [merge(default, loaded)] for two dicts. *)
Definition merge_items (loaded result : list (string * json))
    : list (string * json) :=
  match merge_value (JDict result) (JDict loaded) with
  | JDict items => items
  | _ => []
  end.

(** What [merge] stores under a key that [loaded] holds. *)
Definition merged_item (old : option json) (value : json) : json :=
  match old, value with
  | Some (JDict d), JDict l => merge_value (JDict d) (JDict l)
  | _, _ => value
  end.

(** A value [json.load] can return: the keys of every dict are
    distinct. *)
Fixpoint wf_json (v : json) : bool :=
  match v with
  | JDict items =>
      bool_decide (NoDup items.*1)
      && (fix all (l : list (string * json)) : bool :=
            match l with
            | [] => true
            | (_, x) :: l' => wf_json x && all l'
            end) items
  | JList l =>
      (fix all (l : list json) : bool :=
         match l with
         | [] => true
         | x :: l' => wf_json x && all l'
         end) l
  | _ => true
  end.

(** The value at the end of a path of keys, if the path exists. *)
Fixpoint find_keys (keys : list string) (value : json) : option json :=
  match keys with
  | [] => Some value
  | key :: keys' =>
      match value with
      | JDict items =>
          match dict_get key items with
          | Some v => find_keys keys' v
          | None => None
          end
      | _ => None
      end
  end.

Definition is_dict (v : json) : bool :=
  match v with JDict _ => true | _ => false end.

(** The truth value of a configuration value, as [if not value] tests
    it. *)
Definition truthy (v : json) : bool :=
  match v with
  | JNull => false
  | JBool b => b
  | JInt n => negb (n =? 0)
  | JStr s => negb (Py.is_empty s)
  | JList l => match l with [] => false | _ => true end
  | JDict items => match items with [] => false | _ => true end
  end.

(** What the engine reads from a configuration, with the defaults its
    calls of [get] pass. *)
Definition env_of_config (pydivert : bool) (clock : Z) (config : json) : Env :=
  {| PYDIVERT_AVAILABLE := pydivert;
     filtering_enabled := truthy (config_get "filtering.enabled" (JBool false) config);
     log_all_traffic :=
       truthy (config_get "monitoring.log_all_traffic" (JBool false) config);
     now := clock |}.

(** * Properties *)

(** ** Strings *)

Example lower_ex : Py.lower "X.Ads.COM" = "x.ads.com".
Proof. reflexivity. Qed.

Example strip_ex : Py.strip "  a b
 " = "a b".
Proof. reflexivity. Qed.

Example split_ex : Py.split "." "a.b..c" = ["a"; "b"; ""; "c"].
Proof. reflexivity. Qed.

Example split_crlf_ex :
  Py.split (String "013" (String "010" "")) (String "a" (String "013" (String "010" "b")))
  = ["a"; "b"].
Proof. reflexivity. Qed.

Example split1_ex : Py.split1 ":" "Host: h:80" = ["Host"; " h:80"].
Proof. reflexivity. Qed.

Example int_ex :
  Py.int "255" = Some 255 /\ Py.int "+1" = Some 1 /\ Py.int "1_0" = Some 10 /\
  Py.int " 7" = Some 7 /\ Py.int "-1" = Some (-1) /\ Py.int "" = None /\
  Py.int "1__0" = None /\ Py.int "a" = None.
Proof. repeat split; reflexivity. Qed.

(** The unit separator is white space for [strip] and none for [int]. *)
Example int_separator_ex :
  Py.strip (String "031" "1") = "1" /\ Py.int (String "031" "1") = None /\
  _is_valid_ip ("1.1.1." +:+ String "031" "1") = false.
Proof. repeat split; reflexivity. Qed.

(** A literal of more than 4300 digits is refused. *)
Lemma int_literal_limit (s : string) :
  (Py.int_max_str_digits < Py.count_digits s)%nat → Py.int_literal s = None.
Proof.
  intros Hlt%Nat.ltb_lt. unfold Py.int_literal. rewrite Hlt.
  by destruct (Py.int_unsigned s).
Qed.

Lemma split_dot_cons (c : ascii) (s : string) :
  Py.split "." (String c s) =
  if Ascii.eqb "." c then EmptyString :: Py.split "." s
  else Py.cons_head c (Py.split "." s).
Proof.
  unfold Py.split. cbn [Py.split_go Py.startswith String.length Nat.sub].
  destruct (Ascii.eqb "." c); reflexivity.
Qed.

Lemma split_dot_nonempty (s : string) : Py.split "." s ≠ [].
Proof.
  destruct s as [|c s]; [discriminate|].
  rewrite split_dot_cons. destruct (Ascii.eqb "." c); [discriminate|].
  destruct (Py.split "." s); discriminate.
Qed.

Lemma join_cons_head (sep : string) (c : ascii) (l : list string) :
  l ≠ [] → Py.join sep (Py.cons_head c l) = String c (Py.join sep l).
Proof.
  destruct l as [|w [|w' l]]; [congruence|reflexivity|reflexivity].
Qed.

Lemma join_cons (sep w : string) (l : list string) :
  l ≠ [] → Py.join sep (w :: l) = w +:+ sep +:+ Py.join sep l.
Proof. destruct l; [congruence|reflexivity]. Qed.

Lemma join_split_dot (s : string) : Py.join "." (Py.split "." s) = s.
Proof.
  induction s as [|c s IH]; [reflexivity|].
  rewrite split_dot_cons. destruct (Ascii.eqb_spec "." c) as [<-|Hc].
  - rewrite join_cons by apply split_dot_nonempty. by rewrite IH.
  - rewrite join_cons_head by apply split_dot_nonempty. by rewrite IH.
Qed.

Lemma string_app_cons (x : ascii) (a b : string) :
  String x a +:+ b = String x (a +:+ b).
Proof. reflexivity. Qed.

Lemma string_app_assoc (a b c : string) : (a +:+ b) +:+ c = a +:+ b +:+ c.
Proof.
  induction a as [|x a IH]; [reflexivity|]. by rewrite !string_app_cons, IH.
Qed.

Lemma string_app_empty_r (a : string) : a +:+ EmptyString = a.
Proof.
  induction a as [|x a IH]; [reflexivity|]. by rewrite string_app_cons, IH.
Qed.

Lemma cons_head_app (c : ascii) (l1 l2 : list string) :
  l1 ≠ [] → Py.cons_head c (l1 ++ l2) = Py.cons_head c l1 ++ l2.
Proof. destruct l1; [congruence|reflexivity]. Qed.

(** Splitting distributes over a dot between two strings. *)
Lemma split_dot_app (p s : string) :
  Py.split "." (p +:+ "." +:+ s) = Py.split "." p ++ Py.split "." s.
Proof.
  induction p as [|c p IH].
  - change (EmptyString +:+ "." +:+ s) with (String "." s).
    by rewrite split_dot_cons.
  - change (String c p +:+ "." +:+ s) with (String c (p +:+ "." +:+ s)).
    rewrite !split_dot_cons, IH. destruct (Ascii.eqb "." c); [reflexivity|].
    by rewrite cons_head_app by apply split_dot_nonempty.
Qed.

Lemma join_app (sep : string) (l1 l2 : list string) :
  l1 ≠ [] → l2 ≠ [] →
  Py.join sep (l1 ++ l2) = Py.join sep l1 +:+ sep +:+ Py.join sep l2.
Proof.
  intros H1 H2. induction l1 as [|w l1 IH]; [congruence|].
  destruct l1 as [|w' l1].
  - simpl app. by rewrite join_cons.
  - change ((w :: w' :: l1) ++ l2) with (w :: ((w' :: l1) ++ l2)).
    rewrite join_cons by discriminate. rewrite IH by discriminate.
    rewrite (join_cons sep w (w' :: l1)) by discriminate.
    by rewrite !string_app_assoc.
Qed.

(** The suffixes tried by the parent walk are the dot-delimited suffixes. *)
Lemma dot_suffix_drop (D : string) (i : nat) :
  (i < length (Py.split "." D))%nat →
  dot_suffix (Py.join "." (drop i (Py.split "." D))) D.
Proof.
  intros Hi. destruct i as [|i].
  - left. by rewrite drop_0, join_split_dot.
  - right. exists (Py.join "." (take (S i) (Py.split "." D))).
    rewrite <- join_app.
    + by rewrite take_drop, join_split_dot.
    + destruct (Py.split "." D); [simpl in Hi; lia|discriminate].
    + intros E. apply (f_equal length) in E. rewrite length_drop in E. simpl in E. lia.
Qed.

Lemma drop_dot_suffix (S D : string) :
  dot_suffix S D →
  ∃ i, (i < length (Py.split "." D))%nat ∧ Py.join "." (drop i (Py.split "." D)) = S.
Proof.
  intros [->|[p ->]].
  - exists 0%nat. split.
    + pose proof (split_dot_nonempty S). destruct (Py.split "." S); [congruence|simpl; lia].
    + by rewrite drop_0, join_split_dot.
  - exists (length (Py.split "." p)). rewrite split_dot_app. split.
    + rewrite length_app. pose proof (split_dot_nonempty S).
      destruct (Py.split "." S); [congruence|simpl; lia].
    + by rewrite drop_app_length, join_split_dot.
Qed.

Lemma join_drop_dot_suffix (l : list string) (d : nat) :
  (d < length l)%nat → dot_suffix (Py.join "." (drop d l)) (Py.join "." l).
Proof.
  intros Hd. destruct d as [|d]; [left; by rewrite drop_0|].
  right. exists (Py.join "." (take (S d) l)).
  rewrite <- join_app; [by rewrite take_drop| |].
  - destruct l; [simpl in Hd; lia|discriminate].
  - intros E. apply (f_equal length) in E. rewrite length_drop in E. simpl in E. lia.
Qed.

(** ** The rule store *)

Section RuleStoreFacts.
Context `{Regex}.

Lemma first_parent_seq (m : gmap string string) (parts : list string) (n a : nat) :
  match first_parent m parts (seq a n) with
  | Some (P, c) =>
      ∃ i, (a ≤ i < a + n)%nat ∧ P = Py.join "." (drop i parts) ∧ m !! P = Some c ∧
           ∀ j, (a ≤ j < i)%nat → m !! Py.join "." (drop j parts) = None
  | None => ∀ j, (a ≤ j < a + n)%nat → m !! Py.join "." (drop j parts) = None
  end.
Proof.
  revert a. induction n as [|n IH]; intros a; simpl.
  - intros j Hj. lia.
  - destruct (m !! Py.join "." (drop a parts)) as [c|] eqn:E.
    + exists a. repeat split; [lia|lia|done|]. intros j Hj. lia.
    + specialize (IH (S a)). destruct (first_parent m parts (seq (S a) n)) as [[P c]|].
      * destruct IH as (i & Hi & HP & Hc & Hbefore). exists i.
        repeat split; [lia|lia|done|done|].
        intros j Hj. destruct (decide (j = a)) as [->|]; [done|]. apply Hbefore. lia.
      * intros j Hj. destruct (decide (j = a)) as [->|]; [done|]. apply IH. lia.
Qed.

Lemma is_domain_blocked_exact (self : BlocklistManager) (D c : string) :
  blocked_domains self !! normalise D = Some c →
  is_domain_blocked D self = (true, Some c, Some "Exact match").
Proof. intros E. unfold is_domain_blocked. fold (normalise D). by rewrite E. Qed.

(** The parent walk finds the longest stored dot-delimited suffix. *)
Lemma is_domain_blocked_parent (self : BlocklistManager) (D S c : string) :
  blocked_domains self !! S = Some c →
  dot_suffix S (normalise D) →
  blocked_domains self !! normalise D = None →
  ∃ P c', dot_suffix P (normalise D) ∧ dot_suffix S P ∧ P ≠ normalise D ∧
          blocked_domains self !! P = Some c' ∧
          is_domain_blocked D self
          = (true, Some c', Some ("Parent domain match: " +:+ P)).
Proof.
  intros HS Hsuf HD. unfold is_domain_blocked. fold (normalise D). rewrite HD.
  pose proof (first_parent_seq (blocked_domains self) (Py.split "." (normalise D))
                (length (Py.split "." (normalise D))) 0) as Hw.
  destruct (first_parent _ _ _) as [[P c']|].
  - destruct Hw as (i & Hi & -> & Hc & Hbefore).
    exists (Py.join "." (drop i (Py.split "." (normalise D)))), c'.
    split; [apply dot_suffix_drop; lia|]. split; [|split; [|split; [exact Hc|reflexivity]]].
    + apply drop_dot_suffix in Hsuf as (k & Hk & <-).
      assert (i ≤ k)%nat as Hik.
      { destruct (decide (i ≤ k)%nat); [done|]. rewrite Hbefore in HS; [done|lia]. }
      replace k with (i + (k - i))%nat by lia. rewrite <- drop_drop.
      apply join_drop_dot_suffix. rewrite length_drop. lia.
    + intros E. rewrite E in Hc. congruence.
  - apply drop_dot_suffix in Hsuf as (k & Hk & <-). rewrite Hw in HS; [done|lia].
Qed.

Lemma is_domain_blocked_none (self : BlocklistManager) (D : string) :
  (∀ P, dot_suffix P (normalise D) → blocked_domains self !! P = None) →
  first_pattern (normalise D) (blocked_patterns self) = None →
  is_domain_blocked D self = (false, None, None).
Proof.
  intros Hno Hpat. unfold is_domain_blocked. fold (normalise D).
  rewrite (Hno (normalise D)) by (by left).
  pose proof (first_parent_seq (blocked_domains self) (Py.split "." (normalise D))
                (length (Py.split "." (normalise D))) 0) as Hw.
  destruct (first_parent _ _ _) as [[P c']|].
  - destruct Hw as (i & Hi & -> & Hc & _). rewrite Hno in Hc; [done|].
    apply dot_suffix_drop. lia.
  - by rewrite Hpat.
Qed.

End RuleStoreFacts.

Section SuffixRule.
Context `{Regex}.

(** C3 (as amended).  Let the store hold the domain rule [S] with category
    [c].  A domain that normalises to [S] is blocked with category [c] and
    reason "Exact match".  A strict subdomain of [S] is blocked, and the
    rule cited is the longest stored dot-delimited suffix [P] of the
    domain, of which [S] is itself a suffix: "Exact match" when [P] is the
    domain, "Parent domain match: P" otherwise; when [S] is the only stored
    suffix, the reason is "Parent domain match: S" with category [c].
    A domain none of whose dot-delimited suffixes is stored, and which no
    pattern matches, is not blocked, whatever substrings it has. *)
Theorem is_domain_blocked_suffix_rule (self : BlocklistManager) (S c : string) :
  blocked_domains self !! S = Some c →
  (∀ D, normalise D = S →
        is_domain_blocked D self = (true, Some c, Some "Exact match"))
  ∧ (∀ D, dot_suffix S (normalise D) →
          ∃ P c', dot_suffix P (normalise D) ∧ dot_suffix S P ∧
                  blocked_domains self !! P = Some c' ∧
                  is_domain_blocked D self
                  = (true, Some c',
                     Some (if decide (P = normalise D) then "Exact match"
                           else "Parent domain match: " +:+ P)))
  ∧ (∀ D, dot_suffix S (normalise D) → normalise D ≠ S →
          (∀ P, dot_suffix P (normalise D) →
                is_Some (blocked_domains self !! P) → P = S) →
          is_domain_blocked D self
          = (true, Some c, Some ("Parent domain match: " +:+ S)))
  ∧ (∀ D, (∀ P, is_Some (blocked_domains self !! P) →
                ¬ dot_suffix P (normalise D)) →
          first_pattern (normalise D) (blocked_patterns self) = None →
          is_domain_blocked D self = (false, None, None)).
Proof.
  intros HS.
  assert (∀ D, dot_suffix S (normalise D) →
          ∃ P c', dot_suffix P (normalise D) ∧ dot_suffix S P ∧
                  blocked_domains self !! P = Some c' ∧
                  is_domain_blocked D self
                  = (true, Some c',
                     Some (if decide (P = normalise D) then "Exact match"
                           else "Parent domain match: " +:+ P))) as Hwalk.
  { intros D Hsuf. destruct (blocked_domains self !! normalise D) as [c'|] eqn:E.
    - exists (normalise D), c'. rewrite decide_True by done.
      repeat split; [by left|done|done|by apply is_domain_blocked_exact].
    - destruct (is_domain_blocked_parent self D S c HS Hsuf E)
        as (P & c' & HP & HSP & Hne & Hc & Hr).
      exists P, c'. by rewrite decide_False. }
  repeat split.
  - intros D <-. by apply is_domain_blocked_exact.
  - exact Hwalk.
  - intros D Hsuf Hne Honly. destruct (Hwalk D Hsuf) as (P & c' & HP & _ & Hc & Hr).
    assert (P = S) as -> by (apply Honly; [done|by eexists]).
    rewrite decide_False in Hr by done. congruence.
  - intros D Hno Hpat. apply is_domain_blocked_none; [|done].
    intros P HP. destruct (blocked_domains self !! P) eqn:E; [|done].
    exfalso. apply (Hno P); [by eexists|done].
Qed.

End SuffixRule.

(** The rule [ads.com] blocks [x.ads.com] and does not block
    [notads.com]. *)
Example ads_rule :
  @is_domain_blocked literal_regex "x.ads.com" ads_store
  = (true, Some "advertising", Some "Parent domain match: ads.com")
  ∧ @is_domain_blocked literal_regex "X.Ads.Com " ads_store
    = (true, Some "advertising", Some "Parent domain match: ads.com")
  ∧ @is_domain_blocked literal_regex "notads.com" ads_store = (false, None, None).
Proof. repeat split; vm_compute; reflexivity. Qed.

Lemma is_domain_blocked_suffix_rule_witness :
  blocked_domains ads_store !! "ads.com" = Some "advertising"
  ∧ @is_domain_blocked literal_regex "ADS.com" ads_store
    = (true, Some "advertising", Some "Exact match").
Proof.
  split; [reflexivity|].
  apply (@is_domain_blocked_suffix_rule literal_regex ads_store "ads.com"
           "advertising"); reflexivity.
Defined.

(** C3, as stated, fails at [D = S]: the reason reported for the rule
    [ads.com] and the domain [ads.com] is "Exact match", which does not
    cite the rule; and a second rule makes [notads.com] blocked although
    [ads.com] is not a dot-delimited suffix of it. *)
Lemma is_domain_blocked_reason_counterexample :
  blocked_domains ads_store !! "ads.com" = Some "advertising"
  ∧ @is_domain_blocked literal_regex "ads.com" ads_store
    = (true, Some "advertising", Some "Exact match")
  ∧ contains "Exact match" "ads.com" = false
  ∧ (let both := set_domains (<["notads.com" := "custom"]> (blocked_domains ads_store))
                   ads_store in
     blocked_domains both !! "ads.com" = Some "advertising"
     ∧ contains "notads.com" "ads.com" = true
     ∧ @is_domain_blocked literal_regex "notads.com" both
       = (true, Some "custom", Some "Exact match")).
Proof. repeat split; vm_compute; reflexivity. Qed.

Section Frames.
Context `{Regex}.

(** C10.  [clear_category c] removes exactly the entries of category [c]:
    a domain or address is kept, with its category, iff its category is
    not [c]; no remaining pattern has category [c], and the patterns of
    the other categories are the same as before, in the same order. *)
Theorem clear_category_frame (io : write_result) (category : string)
    (self : BlocklistManager) (fs : files) :
  let self' := (clear_category io category self fs).1.2 in
  (∀ d c, blocked_domains self' !! d = Some c
          ↔ blocked_domains self !! d = Some c ∧ c ≠ category)
  ∧ (∀ i c, blocked_ips self' !! i = Some c
            ↔ blocked_ips self !! i = Some c ∧ c ≠ category)
  ∧ Forall (λ pc, pc.2 ≠ category) (blocked_patterns self')
  ∧ filter (λ pc, pc.2 ≠ category) (blocked_patterns self')
    = filter (λ pc, pc.2 ≠ category) (blocked_patterns self)
  ∧ sublist (blocked_patterns self') (blocked_patterns self).
Proof.
  unfold clear_category, save_blocklist.
  destruct (write_file _ _ _ _) as [r fs']. cbn.
  split; [|split; [|split; [|split]]].
  - intros d c. apply map_lookup_filter_Some.
  - intros i c. apply map_lookup_filter_Some.
  - apply Forall_forall. by intros pc [? ?]%list_elem_of_filter.
  - induction (blocked_patterns self) as [|pc l IH]; [done|].
    rewrite !filter_cons. destruct (decide (pc.2 ≠ category)) as [Hk|Hk].
    + rewrite filter_cons, decide_True by done. by rewrite IH.
    + done.
  - apply sublist_filter.
Qed.

End Frames.

Section Persistence.
Context `{Regex}.

Lemma write_file_failed (residue : option file_content) (path : string)
    (c : file_content) (fs : files) :
  (write_file (WriteFailed residue) path c fs).1 = false.
Proof. by destruct residue. Qed.

Lemma save_blocklist_failed (residue : option file_content)
    (data : option document) (self : BlocklistManager) (fs : files) :
  ∃ fs', save_blocklist (WriteFailed residue) data self fs = (false, fs').
Proof. unfold save_blocklist, write_file. destruct residue; eauto. Qed.


Lemma first_pattern_app (D : string) (ps qs : list (string * string)) :
  first_pattern D (ps ++ qs)
  = match first_pattern D ps with
    | Some pc => Some pc
    | None => first_pattern D qs
    end.
Proof.
  induction ps as [|[p c] ps IH]; [done|]. simpl.
  by destruct (re_search p D).
Qed.

(** What a negative answer of [is_domain_blocked] says about the store. *)
Lemma is_domain_blocked_false (D : string) (self : BlocklistManager) :
  is_domain_blocked D self = (false, None, None) →
  blocked_domains self !! normalise D = None
  ∧ first_parent (blocked_domains self) (Py.split "." (normalise D))
      (seq 0 (length (Py.split "." (normalise D)))) = None
  ∧ first_pattern (normalise D) (blocked_patterns self) = None.
Proof.
  unfold is_domain_blocked. fold (normalise D).
  destruct (blocked_domains self !! normalise D); [discriminate|].
  destruct (first_parent _ _ _) as [[? ?]|]; [discriminate|].
  destruct (first_pattern _ _) as [[? ?]|]; [discriminate|]. done.
Qed.

(** Only the exact-match branch gives the reason "Exact match". *)
Lemma is_domain_blocked_exact_inv (D c : string) (self : BlocklistManager) :
  is_domain_blocked D self = (true, Some c, Some "Exact match") →
  blocked_domains self !! normalise D = Some c.
Proof.
  unfold is_domain_blocked. fold (normalise D).
  destruct (blocked_domains self !! normalise D); [congruence|].
  destruct (first_parent _ _ _) as [[? ?]|]; [discriminate|].
  destruct (first_pattern _ _) as [[? ?]|]; discriminate.
Qed.

(** C7.  A mutation whose input passes validation and whose write fails
    returns [False], and memory keeps the change: the added domain or
    address is reported blocked by an exact match with the category
    given, the added pattern is the last of the list and blocks the
    domains it matches that nothing blocked before, the removed domain is
    no longer an exact match and the removed address is no longer
    blocked. *)
Theorem failed_persist_keeps_change (m : mutation) (self : BlocklistManager)
    (fs : files) (residue : option file_content) :
  passes_validation m self = true →
  let '(r, self', fs') := apply_mutation (WriteFailed residue) m self fs in
  r = Returns false ∧
  match m with
  | AddDomain d c =>
      is_domain_blocked d self' = (true, Some c, Some "Exact match")
  | AddIp ip c =>
      is_ip_blocked ip self' = (true, Some c, Some "Exact match")
  | AddPattern p c =>
      blocked_patterns self' = blocked_patterns self ++ [(p, c)] ∧
      ∀ D, re_search p (normalise D) = true →
           is_domain_blocked D self = (false, None, None) →
           is_domain_blocked D self'
           = (true, Some c, Some ("Pattern match: " +:+ p))
  | RemoveDomain d =>
      blocked_domains self' = delete (normalise d) (blocked_domains self) ∧
      ∀ c, is_domain_blocked d self' ≠ (true, Some c, Some "Exact match")
  | RemoveIp ip =>
      blocked_ips self' = delete (Py.strip ip) (blocked_ips self) ∧
      is_ip_blocked ip self' = (false, None, None)
  end.
Proof.
  intros Hv. destruct m as [d c|ip c|p c|d|ip]; simpl in Hv;
    cbn [apply_mutation]; unfold returns.
  - unfold add_domain. fold (normalise d).
    apply negb_true_iff in Hv. rewrite Hv.
    destruct (save_blocklist_failed residue None
                (set_domains (<[normalise d := c]> (blocked_domains self)) self) fs)
      as [fs' ->].
    split; [done|]. apply is_domain_blocked_exact. simpl. apply lookup_insert_eq.
  - unfold add_ip. rewrite Hv. cbn [negb].
    destruct (save_blocklist_failed residue None
                (set_ips (<[Py.strip ip := c]> (blocked_ips self)) self) fs)
      as [fs' ->].
    split; [done|]. unfold is_ip_blocked. simpl. by rewrite lookup_insert_eq.
  - unfold add_pattern. rewrite Hv.
    destruct (save_blocklist_failed residue None
                (set_patterns (blocked_patterns self ++ [(p, c)]) self) fs)
      as [fs' ->].
    split; [done|]. split; [done|]. intros D Hm (Hd & Hp & Hq)%is_domain_blocked_false.
    unfold is_domain_blocked. fold (normalise D). simpl.
    rewrite Hd, Hp, first_pattern_app, Hq. simpl. by rewrite Hm.
  - unfold remove_domain. fold (normalise d).
    apply bool_decide_eq_true in Hv as [c Hc]. rewrite Hc.
    destruct (save_blocklist_failed residue None
                (set_domains (delete (normalise d) (blocked_domains self)) self) fs)
      as [fs' ->].
    split; [done|]. split; [done|]. intros c' E%is_domain_blocked_exact_inv.
    simpl in E. by rewrite lookup_delete_eq in E.
  - unfold remove_ip. apply bool_decide_eq_true in Hv as [c Hc]. rewrite Hc.
    destruct (save_blocklist_failed residue None
                (set_ips (delete (Py.strip ip) (blocked_ips self)) self) fs)
      as [fs' ->].
    split; [done|]. split; [done|]. unfold is_ip_blocked. simpl.
    by rewrite lookup_delete_eq.
Qed.

End Persistence.

Lemma failed_persist_keeps_change_witness :
  @passes_validation literal_regex (AddDomain "Tracker.Example" "advertising")
    empty_store = true
  ∧ (let '(r, self', _) :=
       @apply_mutation literal_regex (WriteFailed None)
         (AddDomain "Tracker.Example" "advertising") empty_store ∅ in
     r = Returns false
     ∧ @is_domain_blocked literal_regex "Tracker.Example" self'
       = (true, Some "advertising", Some "Exact match")).
Proof.
  split; [reflexivity|].
  apply (@failed_persist_keeps_change literal_regex
           (AddDomain "Tracker.Example" "advertising") empty_store ∅ None).
  reflexivity.
Defined.

(** ** Address validation *)

Lemma digit_not_space (c : ascii) (d : Z) :
  Py.digit c = Some d → Py.isspace c = false.
Proof. by destruct c as [[] [] [] [] [] [] [] []]. Qed.






Lemma decimal_rstrip (s : string) (acc n : Z) :
  decimal acc s = Some n → Py.rstrip s = s.
Proof.
  revert acc. induction s as [|c s IH]; intros acc; simpl; [done|].
  destruct (Py.digit c) as [d|] eqn:E; [|discriminate].
  intros Hs. rewrite (digit_not_space c d E). simpl. by rewrite (IH _ Hs).
Qed.









(** [add_ip("999.1.1.1")] fails and changes nothing; [add_ip("1.1.1.1")]
    succeeds when the write does, and the address is then blocked. *)
Example add_ip_examples :
  add_ip Written "999.1.1.1" "custom" empty_store ∅
  = (false, empty_store, ∅)
  ∧ (let '(r, self', _) :=
       add_ip Written "1.1.1.1" "custom" empty_store ∅ in
     r = true ∧ is_ip_blocked "1.1.1.1" self' = (true, Some "custom", Some "Exact match")).
Proof. vm_compute. repeat split; reflexivity. Qed.


(** ** Export and reload *)

Lemma lower_char_idemp (c : ascii) : Py.lower_char (Py.lower_char c) = Py.lower_char c.
Proof. by destruct c as [[] [] [] [] [] [] [] []]. Qed.

Lemma lower_idemp (s : string) : Py.lower (Py.lower s) = Py.lower s.
Proof.
  induction s as [|c s IH]; [done|]. simpl. by rewrite lower_char_idemp, IH.
Qed.

Lemma lower_lstrip (s : string) : Py.lower s = s → Py.lower (Py.lstrip s) = Py.lstrip s.
Proof.
  induction s as [|c s IH]; [done|]. simpl. intros [= Hc Hs].
  destruct (Py.isspace c); [by apply IH|]. simpl. by rewrite Hc, Hs.
Qed.

Lemma lower_rstrip (s : string) : Py.lower s = s → Py.lower (Py.rstrip s) = Py.rstrip s.
Proof.
  induction s as [|c s IH]; [done|]. simpl. intros [= Hc Hs].
  destruct (Py.isspace c && Py.is_empty (Py.rstrip s)); [done|].
  simpl. by rewrite Hc, IH.
Qed.

Lemma lower_normalise (d : string) : Py.lower (normalise d) = normalise d.
Proof.
  unfold normalise, Py.strip. apply lower_rstrip, lower_lstrip, lower_idemp.
Qed.

Section RoundTrip.
Context `{Regex}.

(** The loading loop, as a right fold over the reversed list. *)
Lemma load_loop_foldr (norm : string → string) (l : list (string * string))
    (acc : gmap string string) :
  foldl (λ m e, <[norm (default "" (e_value e)) := default CUSTOM (e_category e)]> m)
        acc ((λ kc, Entry (Some kc.1) (Some kc.2)) <$> l)
  = foldr (λ kc, <[norm kc.1 := kc.2]>) acc (reverse l).
Proof.
  revert acc. induction l as [|kc l IH]; intros acc; [done|].
  rewrite fmap_cons, reverse_cons, foldr_snoc. simpl. by rewrite IH.
Qed.

Lemma foldr_insert_norm (norm : string → string) (l : list (string * string)) :
  Forall (λ kc, norm kc.1 = kc.1) l →
  foldr (λ kc, <[norm kc.1 := kc.2]>) (∅ : gmap string string) l = list_to_map l.
Proof.
  induction 1 as [|kc l Hk _ IH]; [done|]. simpl. by rewrite Hk, IH.
Qed.

(** Writing the items of a dict and loading them gives the dict back,
    when the keys are in the normal form the loader applies. *)
Lemma load_entries_items (norm : string → string) (m : gmap string string) :
  (∀ k, is_Some (m !! k) → norm k = k) →
  load_entries norm (items_entries m) = m.
Proof.
  intros Hnorm. unfold load_entries, items_entries.
  rewrite load_loop_foldr, foldr_insert_norm.
  - rewrite <- (list_to_map_to_list m) at 2.
    symmetry. apply list_to_map_proper; [apply NoDup_fst_map_to_list|].
    symmetry. apply reverse_Permutation.
  - apply Forall_forall. intros [k c] Hin. apply Hnorm. simpl.
    apply elem_of_reverse, elem_of_map_to_list in Hin. by eexists.
Qed.

(** C2 (as amended).  Exporting a store in the JSON form and constructing
    a fresh manager on the exported file reconstructs the exact-match
    domain mapping (its keys are in lower case, as the store keeps them)
    and the exact-match IP mapping; the pattern list of the fresh store is
    empty, because the exported document has no patterns. *)
Theorem export_load_roundtrip (io : write_result) (here dir : string)
    (self : BlocklistManager) (fs : files) :
  lower_keys self →
  let '(r, fs') :=
    export_to_file Written here (path_join dir "blocklist.json") "json" self fs in
  let '(fresh, _) := __init__ io dir fs' in
  r = true
  ∧ blocked_domains fresh = blocked_domains self
  ∧ blocked_ips fresh = blocked_ips self
  ∧ blocked_patterns fresh = [].
Proof.
  intros Hlow. unfold export_to_file, write_file, __init__, load_blocklist.
  cbn [String.eqb Ascii.eqb Bool.eqb blocklist_file]. simpl String.eqb.
  cbn [blocklist_file]. rewrite lookup_insert_eq.
  cbn [doc_domains doc_ips doc_patterns default blocked_domains blocked_ips
       blocked_patterns fst snd].
  split; [done|]. split; [|split; [|done]].
  - by apply load_entries_items.
  - by apply (load_entries_items id).
Qed.

(** The store keeps its domain keys in lower case. *)
Lemma lower_keys_insert (d c : string) (self : BlocklistManager) :
  lower_keys self →
  lower_keys (set_domains (<[normalise d := c]> (blocked_domains self)) self).
Proof.
  intros Hlow k. simpl. destruct (decide (k = normalise d)) as [->|Hk].
  - intros _. apply lower_normalise.
  - rewrite lookup_insert_ne by done. apply Hlow.
Qed.

Lemma lower_keys_load (l : list entry) (k : string) :
  is_Some (load_entries Py.lower l !! k) → Py.lower k = k.
Proof.
  unfold load_entries.
  assert (∀ acc : gmap string string,
            (∀ k, is_Some (acc !! k) → Py.lower k = k) →
            ∀ k, is_Some (foldl (λ m e, <[Py.lower (default "" (e_value e))
                                          := default CUSTOM (e_category e)]> m) acc l !! k) →
                 Py.lower k = k) as Hgen.
  { induction l as [|e l IH]; intros acc Hacc; [done|]. simpl. apply IH.
    intros k'. destruct (decide (k' = Py.lower (default "" (e_value e)))) as [->|Hk].
    - intros _. apply lower_idemp.
    - rewrite lookup_insert_ne by done. apply Hacc. }
  apply Hgen. intros k'. rewrite lookup_empty. by intros [? ?].
Qed.

Lemma lower_keys_mutation (io : write_result) (m : mutation)
    (self : BlocklistManager) (fs : files) :
  lower_keys self → lower_keys (apply_mutation io m self fs).1.2.
Proof.
  intros Hlow. destruct m as [d c|ip c|p c|d|ip]; cbn [apply_mutation];
    unfold returns.
  - unfold add_domain. fold (normalise d).
    destruct (_ || _); [done|]. destruct (save_blocklist _ _ _ _).
    by apply lower_keys_insert.
  - unfold add_ip. destruct (negb _); [done|]. by destruct (save_blocklist _ _ _ _).
  - unfold add_pattern. destruct (re_valid p); [|by destruct (re_error p)].
    by destruct (save_blocklist _ _ _ _).
  - unfold remove_domain. fold (normalise d).
    destruct (blocked_domains self !! normalise d); [|done].
    destruct (save_blocklist _ _ _ _). simpl. intros k [c Hc]. simpl in Hc.
    apply lookup_delete_Some in Hc as [_ Hc]. apply Hlow. by eexists.
  - unfold remove_ip. destruct (blocked_ips self !! Py.strip ip); [|done].
    by destruct (save_blocklist _ _ _ _).
Qed.

Lemma lower_keys_clear (io : write_result) (category : string)
    (self : BlocklistManager) (fs : files) :
  lower_keys self → lower_keys (clear_category io category self fs).1.2.
Proof.
  intros Hlow. unfold clear_category. destruct (save_blocklist _ _ _ _).
  intros k [c Hc]. simpl in Hc. apply map_lookup_filter_Some in Hc as [Hc _].
  apply Hlow. by eexists.
Qed.

Lemma lower_keys_init (io : write_result) (dir : string) (fs : files) :
  lower_keys (__init__ io dir fs).1.
Proof.
  unfold __init__, load_blocklist. cbn [blocklist_file].
  destruct (fs !! path_join dir "blocklist.json") as [[data|lines]|].
  - destruct (load_patterns _). simpl. intros k. simpl. apply lower_keys_load.
  - simpl. intros k. simpl. rewrite lookup_empty. by intros [? ?].
  - destruct (save_blocklist _ _ _ _). simpl. intros k. simpl.
    rewrite lookup_empty. by intros [? ?].
Qed.

End RoundTrip.

Lemma export_load_roundtrip_witness :
  lower_keys ads_store
  ∧ (let '(r, fs') :=
       export_to_file Written "src/rules" (path_join "backup" "blocklist.json")
         "json" ads_store ∅ in
     let '(fresh, _) := @__init__ literal_regex Written "backup" fs' in
     r = true
     ∧ blocked_domains fresh = blocked_domains ads_store
     ∧ blocked_ips fresh = blocked_ips ads_store
     ∧ blocked_patterns fresh = []).
Proof.
  assert (lower_keys ads_store) as Hlow.
  { intros k [c Hc]. simpl in Hc. by apply lookup_singleton_Some in Hc as [<- _]. }
  split; [exact Hlow|].
  exact (@export_load_roundtrip literal_regex Written "src/rules" "backup"
           ads_store ∅ Hlow).
Defined.

(** C2, as stated, fails for the pattern list: a store with one pattern
    reloads, after an export, with none. *)
Lemma export_drops_patterns_counterexample :
  let '(r, fs') :=
    export_to_file Written "src/rules" (path_join "backup" "blocklist.json")
      "json" pattern_store ∅ in
  let '(fresh, _) := @__init__ literal_regex Written "backup" fs' in
  r = true
  ∧ blocked_patterns pattern_store = [("tracker", "advertising")]
  ∧ blocked_patterns fresh = []
  ∧ blocked_patterns fresh ≠ blocked_patterns pattern_store.
Proof. vm_compute. repeat split; discriminate || reflexivity. Qed.

(** ** The life cycle of the engine *)

Lemma stop_not_running (fault : stop_fault) (self : FilterEngine) :
  running (stop fault self).2 = false.
Proof.
  unfold stop. destruct (running self) eqn:E; simpl; [|done].
  destruct fault, (divert_handle self), (filter_thread self); done.
Qed.

(** [stop] leaves the counters, the cache and the rule store alone. *)
Lemma stop_frame (fault : stop_fault) (self : FilterEngine) :
  stats (stop fault self).2 = stats self
  ∧ dns_cache (stop fault self).2 = dns_cache self
  ∧ blocklist (stop fault self).2 = blocklist self.
Proof.
  unfold stop. destruct (running self); simpl; [|done].
  destruct fault, (divert_handle self), (filter_thread self); done.
Qed.

(** C1 (as amended).  After [stop()] and a [start()] that succeeds, the
    engine is running, [start_time] is the time of the restart, the
    counters [packets_inspected], [packets_allowed] and [packets_blocked]
    have the values they had before the stop, and the Identity Cache and
    the rule store are unchanged. *)
Theorem restart_keeps_counters (env : Env) (fault : stop_fault)
    (thread_error : option string) (self : FilterEngine) :
  (start env thread_error (stop fault self).2).1 = true →
  let started := (start env thread_error (stop fault self).2).2 in
  running started = true
  ∧ start_time (stats started) = Some (now env)
  ∧ packets_inspected (stats started) = packets_inspected (stats self)
  ∧ packets_allowed (stats started) = packets_allowed (stats self)
  ∧ packets_blocked (stats started) = packets_blocked (stats self)
  ∧ dns_cache started = dns_cache self
  ∧ blocklist started = blocklist self.
Proof.
  pose proof (stop_not_running fault self) as Hrun.
  destruct (stop_frame fault self) as (Hstats & Hcache & Hstore).
  destruct (stop fault self) as [r stopped]. simpl in *.
  unfold start. rewrite Hrun.
  destruct (PYDIVERT_AVAILABLE env); simpl; [|discriminate].
  destruct (filtering_enabled env); simpl; [|discriminate].
  destruct thread_error; simpl; [discriminate|].
  intros _. by rewrite Hstats, Hcache, Hstore.
Qed.

(** C8 (as amended).  While the engine is running, [start()] returns
    success and changes nothing when [pydivert] is available and
    [filtering.enabled] is set; otherwise it returns failure, having only
    logged an error. *)
Theorem start_when_running (env : Env) (thread_error : option string)
    (self : FilterEngine) :
  running self = true →
  (PYDIVERT_AVAILABLE env = true → filtering_enabled env = true →
   start env thread_error self = (true, self))
  ∧ (PYDIVERT_AVAILABLE env = false ∨ filtering_enabled env = false →
     ∃ message details,
       start env thread_error self
       = (false, log_call (LogEvent ERROR_OCCURRED message details) self)).
Proof.
  intros Hrun. unfold start. split.
  - intros -> ->. simpl. by rewrite Hrun.
  - destruct (PYDIVERT_AVAILABLE env); simpl; [|by eauto].
    intros [? | ->]; [done|]. simpl. eauto.
Qed.

(** An engine that inspected one packet, then was stopped. *)
Lemma restart_keeps_counters_witness :
  let e1 := (start env_on None (new_engine empty_store)).2 in
  let e2 :=
    (@_filter_loop literal_regex env_on None [Delivered plain_packet NoLoopFault]
       e1).2 in
  (start env_later None (stop NoFault e2).2).1 = true
  ∧ (let started := (start env_later None (stop NoFault e2).2).2 in
     running started = true
     ∧ start_time (stats started) = Some 3000
     ∧ packets_inspected (stats started) = packets_inspected (stats e2)
     ∧ packets_allowed (stats started) = packets_allowed (stats e2)
     ∧ packets_blocked (stats started) = packets_blocked (stats e2)
     ∧ dns_cache started = dns_cache e2
     ∧ blocklist started = blocklist e2).
Proof.
  intros e1 e2. split; [reflexivity|].
  apply (restart_keeps_counters env_later NoFault None e2). reflexivity.
Defined.

(** C1, as stated, fails for the counters: an engine that inspected and
    allowed one packet still counts it after stop and restart. *)
Lemma restart_counters_counterexample :
  let e1 := (start env_on None (new_engine empty_store)).2 in
  let e2 :=
    (@_filter_loop literal_regex env_on None [Delivered plain_packet NoLoopFault]
       e1).2 in
  let '(ok, started) := start env_later None (stop NoFault e2).2 in
  ok = true ∧ running started = true
  ∧ packets_inspected (stats started) = 1
  ∧ packets_allowed (stats started) = 1
  ∧ packets_inspected (stats started) ≠ 0.
Proof. vm_compute. repeat split; discriminate || reflexivity. Qed.

Lemma start_when_running_witness :
  let e1 := (start env_on None (new_engine empty_store)).2 in
  running e1 = true ∧ start env_later None e1 = (true, e1).
Proof.
  intros e1. split; [reflexivity|].
  apply (start_when_running env_later None e1); reflexivity.
Defined.

(** C8, as stated, fails once filtering has been disabled: [start()] on a
    running engine returns failure. *)
Lemma start_when_running_counterexample :
  let e1 := (start env_on None (new_engine empty_store)).2 in
  running e1 = true
  ∧ filtering_enabled env_disabled = false
  ∧ (start env_disabled None e1).1 = false
  ∧ (start env_disabled None e1).2 ≠ e1.
Proof.
  vm_compute. repeat split; try reflexivity. intros E. discriminate E.
Qed.

(** ** The DNS name extractor *)

(** The turns given to the loop are enough: it always ends by itself. *)
Lemma qname_loop_total (turns : nat) (data : list byte) (pos : nat)
    (parts : list string) :
  (length data - pos < turns)%nat → is_Some (qname_loop turns data pos parts).
Proof.
  revert pos parts. induction turns as [|turns IH]; intros pos parts Hlt; [lia|].
  cbn [qname_loop]. destruct (data !! pos) as [b|] eqn:E; [|by eexists].
  apply lookup_lt_Some in E.
  destruct (Byte.to_nat b =? 0)%nat eqn:E0; [by eexists|].
  destruct (192 <=? Byte.to_nat b)%nat; [by eexists|].
  destruct (pos + 1 + Byte.to_nat b <=? length data)%nat eqn:E1; [|by eexists].
  apply IH. apply Nat.eqb_neq in E0. lia.
Qed.

Lemma wire_label_cons (l : list byte) :
  label_length (length l) →
  ∃ b, wire_label l = b :: l ∧ Byte.to_nat b = length l.
Proof.
  intros [Hpos Hlt]. unfold wire_label.
  destruct (Byte.of_nat (length l)) as [b|] eqn:E.
  - exists b. split; [done|]. by apply Byte.to_of_nat.
  - apply Byte.of_nat_None_iff in E. lia.
Qed.

(** The loop reads complete labels one after the other. *)
Lemma qname_loop_labels (labels : list (list byte)) :
  ∀ (turns : nat) (data pre rest : list byte) (parts : list string),
    Forall (λ l, label_length (length l)) labels →
    data = pre ++ flat_map wire_label labels ++ rest →
    qname_loop (length labels + turns) data (length pre) parts
    = qname_loop turns data (length pre + length (flat_map wire_label labels))
        (parts ++ (utf8_ignore <$> labels)).
Proof.
  induction labels as [|l labels IH]; intros turns data pre rest parts Hok Hdata.
  - simpl. by rewrite Nat.add_0_r, app_nil_r.
  - apply Forall_cons in Hok as [Hl Hok].
    destruct (wire_label_cons l Hl) as (b & Hb & Hlen).
    simpl in Hdata. rewrite Hb in Hdata.
    assert (data !! length pre = Some b) as Hat.
    { rewrite Hdata. by rewrite lookup_app_r, Nat.sub_diag by lia. }
    cbn [length Nat.add qname_loop]. rewrite Hat.
    destruct Hl as [Hpos Hlt]. rewrite Hlen.
    replace (length l =? 0)%nat with false by (symmetry; apply Nat.eqb_neq; lia).
    replace (192 <=? length l)%nat with false by (symmetry; apply Nat.leb_gt; lia).
    assert (length data = length pre + S (length l)
                          + length (flat_map wire_label labels ++ rest))%nat as Hsize.
    { rewrite Hdata. rewrite length_app. simpl. rewrite !length_app. lia. }
    replace (length pre + 1 + length l <=? length data)%nat with true
      by (symmetry; apply Nat.leb_le; lia).
    assert (take (length l) (drop (length pre + 1) data) = l) as ->.
    { rewrite Hdata. rewrite drop_app_ge by lia.
      replace (length pre + 1 - length pre)%nat with 1%nat by lia.
      simpl. rewrite drop_0. by rewrite <- app_assoc, take_app_length. }
    specialize (IH turns data (pre ++ b :: l) rest (parts ++ [utf8_ignore l]) Hok).
    rewrite length_app in IH. simpl in IH.
    replace (length pre + 1 + length l)%nat with (length pre + S (length l))%nat by lia.
    rewrite IH.
    + cbn [flat_map]. rewrite Hb, fmap_cons, <- app_assoc, length_app.
      cbn [length app]. f_equal. lia.
    + rewrite Hdata. by rewrite <- !app_assoc.
Qed.

(** What the extractor returns for a name cut inside a label. *)
Lemma qname_loop_truncated (turns : nat) (data : list byte) (pos : nat)
    (parts : list string) (b : byte) :
  data !! pos = Some b → label_length (Byte.to_nat b) →
  (length data < pos + 1 + Byte.to_nat b)%nat →
  qname_loop (S turns) data pos parts = Some parts.
Proof.
  intros Hat [Hpos Hlt] Hcut. cbn [qname_loop]. rewrite Hat.
  replace (Byte.to_nat b =? 0)%nat with false by (symmetry; apply Nat.eqb_neq; lia).
  replace (192 <=? Byte.to_nat b)%nat with false by (symmetry; apply Nat.leb_gt; lia).
  by replace (pos + 1 + Byte.to_nat b <=? length data)%nat with false
    by (symmetry; apply Nat.leb_gt; lia).
Qed.

Lemma wire_labels_length (labels : list (list byte)) :
  Forall (λ l, label_length (length l)) labels →
  (length labels ≤ length (flat_map wire_label labels))%nat.
Proof.
  induction 1 as [|l labels Hl _ IH]; [done|].
  destruct (wire_label_cons l Hl) as (b & Hb & _).
  simpl. rewrite Hb, length_app. simpl. lia.
Qed.

(** C4 (as amended).  Let the payload be a twelve-byte header, then any
    number of complete labels, then a length byte that announces more
    bytes than remain.  The extractor returns no domain when no label is
    complete, and otherwise the complete labels, decoded, joined by dots
    and lower-cased.  The call always returns: the loop ends within the
    turns it is given. *)
Theorem extract_dns_domain_truncated (p : packet) (header : list byte)
    (labels : list (list byte)) (b : byte) (rest : list byte) :
  payload p = header ++ flat_map wire_label labels ++ b :: rest →
  length header = 12%nat →
  Forall (λ l, label_length (length l)) labels →
  label_length (Byte.to_nat b) →
  (length rest < Byte.to_nat b)%nat →
  _extract_dns_domain p
  = match labels with
    | [] => None
    | _ :: _ => Some (Py.lower (Py.join "." (utf8_ignore <$> labels)))
    end
  ∧ is_Some (qname_loop (length (payload p)) (payload p) 12 []).
Proof.
  intros Hdata Hhdr Hok Hb Hcut.
  pose proof (wire_labels_length labels Hok) as Hn.
  assert (length (payload p)
          = 12 + length (flat_map wire_label labels) + S (length rest))%nat as Hsize.
  { rewrite Hdata, !length_app. simpl. lia. }
  split; [|apply qname_loop_total; lia].
  unfold _extract_dns_domain.
  destruct (payload p) as [|b0 data0] eqn:Hp; [simpl in Hsize; lia|].
  rewrite <- Hp in *. clear Hp b0 data0.
  replace (length (payload p) <? 13)%nat with false
    by (symmetry; apply Nat.ltb_ge; lia).
  replace (length (payload p))
    with (length labels + S (length (payload p) - length labels - 1))%nat at 1 by lia.
  rewrite <- Hhdr.
  rewrite (qname_loop_labels labels _ (payload p) header (b :: rest) [] Hok Hdata).
  rewrite (qname_loop_truncated _ _ _ _ b); [| |done|lia].
  - simpl. by destruct (utf8_ignore <$> labels) eqn:E; destruct labels.
  - rewrite Hdata. rewrite lookup_app_r by lia.
    rewrite lookup_app_r by lia.
    by replace (length header + length (flat_map wire_label labels)
                - length header - length (flat_map wire_label labels))%nat
      with 0%nat by lia.
Qed.

(** The header followed by [3]www[7]example[3]com[0] gives
    [www.example.com]. *)
Example extract_dns_domain_complete :
  _extract_dns_domain (udp_packet "192.0.2.1" "192.0.2.53" 50000 53 complete_query)
  = Some "www.example.com".
Proof. vm_compute. reflexivity. Qed.

Lemma extract_dns_domain_truncated_witness :
  label_length (Byte.to_nat x07)
  ∧ _extract_dns_domain
      (udp_packet "192.0.2.1" "192.0.2.53" 50000 53 truncated_query)
    = Some "www".
Proof.
  assert (label_length (Byte.to_nat x07)) as Hb by (vm_compute; lia).
  split; [exact Hb|].
  apply (extract_dns_domain_truncated
           (udp_packet "192.0.2.1" "192.0.2.53" 50000 53 truncated_query)
           dns_header [list_byte_of_string "www"] x07 (list_byte_of_string "exa")).
  - reflexivity.
  - reflexivity.
  - repeat constructor; vm_compute; lia.
  - exact Hb.
  - vm_compute. lia.
Defined.

(** C4, as stated, fails when a label is complete before the cut: the
    length byte 7 at offset 16 announces seven bytes where three remain,
    and the extractor returns the first label. *)
Lemma extract_dns_domain_truncated_counterexample :
  truncated_query !! 16%nat = Some x07
  ∧ length truncated_query = 20%nat
  ∧ _extract_dns_domain
      (udp_packet "192.0.2.1" "192.0.2.53" 50000 53 truncated_query)
    = Some "www"
  ∧ _extract_dns_domain
      (udp_packet "192.0.2.1" "192.0.2.53" 50000 53 truncated_query)
    ≠ None.
Proof. vm_compute. repeat split; discriminate || reflexivity. Qed.

(** ** Lines of an HTTP request *)

Lemma substring_all (s : string) (n : nat) :
  (String.length s ≤ n)%nat → String.substring 0 n s = s.
Proof.
  revert n. induction s as [|c s IH]; intros n Hn; [by destruct n|].
  destruct n as [|n]; [simpl in Hn; lia|]. simpl. rewrite IH; [done|].
  simpl in Hn. lia.
Qed.

Lemma split_colon_cons (c : ascii) (s : string) :
  Py.split ":" (String c s) =
  if Ascii.eqb ":" c then EmptyString :: Py.split ":" s
  else Py.cons_head c (Py.split ":" s).
Proof.
  unfold Py.split. cbn [Py.split_go Py.startswith String.length Nat.sub].
  destruct (Ascii.eqb ":" c); reflexivity.
Qed.

(** The part before the first colon has no colon. *)
Lemma head_split_no_colon (s : string) :
  Py.contains_char ":" (default EmptyString (head (Py.split ":" s))) = false.
Proof.
  induction s as [|c s IH]; [done|]. rewrite split_colon_cons.
  destruct (Ascii.eqb ":" c) eqn:E; [done|]. rewrite Ascii.eqb_sym in E.
  destruct (Py.split ":" s) as [|w ws];
    cbn [Py.cons_head head from_option] in *; unfold id in *;
    cbn [Py.contains_char]; by rewrite E.
Qed.

Lemma string_app_nil_l (s : string) : EmptyString +:+ s = s.
Proof. reflexivity. Qed.

(** A line [Host: value], its name in any case, is recognised and cut
    after the first colon. *)
Lemma host_line_parts (header value : string) :
  Py.lower header = "host" →
  Py.startswith (Py.lower (header +:+ ":" +:+ value)) "host:" = true
  ∧ Py.split1 ":" (header +:+ ":" +:+ value) !! 1%nat = Some value.
Proof.
  intros Hh.
  destruct header as [|a [|b [|c [|d [|e rest]]]]]; try discriminate Hh.
  injection Hh as Ha Hb Hc Hd.
  rewrite !string_app_cons, !string_app_nil_l.
  assert (String.substring 0 (S (String.length value)) value = value) as Hsub
    by (apply substring_all; lia).
  destruct a as [[] [] [] [] [] [] [] []]; try discriminate Ha;
  destruct b as [[] [] [] [] [] [] [] []]; try discriminate Hb;
  destruct c as [[] [] [] [] [] [] [] []]; try discriminate Hc;
  destruct d as [[] [] [] [] [] [] [] []]; try discriminate Hd;
  (split; [reflexivity|]);
  unfold Py.split1; cbn [Py.split1_go Py.startswith Ascii.eqb Bool.eqb andb
                          String.length String.substring];
  rewrite Hsub; reflexivity.
Qed.

(** ** The decision procedure *)

Section Decision.
Context `{Regex}.

(** The scan of the request lines writes the cache at [dst_ip] only. *)
Lemma host_scan_frame (store : BlocklistManager) (dst_ip : string)
    (lines : list string) (cache : gmap string string) (k : string) :
  k ≠ dst_ip → (host_scan store dst_ip lines cache).2 !! k = cache !! k.
Proof.
  intros Hk. revert cache. induction lines as [|line lines IH]; intros cache; [done|].
  cbn [host_scan]. destruct (Py.startswith (Py.lower line) "host:"); [|apply IH].
  destruct (Py.split1 ":" line !! 1%nat) as [after|]; [|done].
  destruct (is_domain_blocked _ store) as [[[] c] r]; cbn [snd].
  - by rewrite lookup_insert_ne.
  - rewrite IH. by rewrite lookup_insert_ne.
Qed.

Lemma http_host_check_frame (p : packet) (self : FilterEngine) :
  ∃ cache, (http_host_check p self).2 = set_dns_cache cache self
           ∧ ∀ k, k ≠ dst_addr p → cache !! k = dns_cache self !! k.
Proof.
  assert (self = set_dns_cache (dns_cache self) self) as Hself by by destruct self.
  unfold http_host_check.
  destruct ((dst_port p =? 80) && tcp p); [|by exists (dns_cache self)].
  destruct (_ || _); [|by exists (dns_cache self)].
  pose proof (host_scan_frame (blocklist self) (dst_addr p)
                (Py.split CRLF (utf8_ignore (payload p))) (dns_cache self)) as Hf.
  destruct (host_scan _ _ _ _) as [r cache]. exists cache. split; [done|].
  intros k Hk. by apply Hf.
Qed.

Lemma web_check_frame (p : packet) (self : FilterEngine) :
  ∃ cache, (web_check p self).2 = set_dns_cache cache self
           ∧ ∀ k, k ≠ dst_addr p → cache !! k = dns_cache self !! k.
Proof.
  assert (self = set_dns_cache (dns_cache self) self) as Hself by by destruct self.
  unfold web_check. destruct (_ && _); [|by exists (dns_cache self)].
  destruct (dns_cache self !! dst_addr p) as [domain|];
    [|apply http_host_check_frame].
  destruct (is_domain_blocked domain _) as [[[] ?] ?];
    [by exists (dns_cache self)|apply http_host_check_frame].
Qed.

(** A decision writes nothing but the cache entry of the destination. *)
Lemma should_block_frame (p : packet) (self : FilterEngine) :
  ∃ cache, (_should_block_packet p self).2 = set_dns_cache cache self
           ∧ ∀ k, k ≠ dst_addr p → cache !! k = dns_cache self !! k.
Proof.
  assert (self = set_dns_cache (dns_cache self) self) as Hself by by destruct self.
  unfold _should_block_packet.
  destruct (is_ip_blocked _ _) as [[[] ?] ?]; [by exists (dns_cache self)|].
  destruct (_ && _); [|apply web_check_frame].
  destruct (_extract_dns_domain p) as [[|c d]|]; [apply web_check_frame| |apply web_check_frame].
  set (self' := if src_port p =? 53
                then set_dns_cache (<[dst_addr p := String c d]> (dns_cache self)) self
                else self).
  assert (∃ cache, self' = set_dns_cache cache self
                   ∧ ∀ k, k ≠ dst_addr p → cache !! k = dns_cache self !! k)
    as (cache' & Hs' & Hc').
  { unfold self'. destruct (src_port p =? 53).
    - eexists. split; [done|]. intros k Hk. by rewrite lookup_insert_ne.
    - by exists (dns_cache self). }
  destruct (is_domain_blocked (String c d) (blocklist self')) as [[[] ?] ?];
    [by exists cache'|].
  destruct (web_check_frame p self') as (cache & Hw & Hc). exists cache.
  rewrite Hw, Hs'. split; [done|]. intros k Hk. rewrite Hc by done.
  rewrite Hs'. simpl. by apply Hc'.
Qed.

(** A TCP segment skips the DNS step. *)
Lemma should_block_tcp (p : packet) (self : FilterEngine) :
  tcp p = true →
  _should_block_packet p self
  = match is_ip_blocked (dst_addr p) (blocklist self) with
    | (true, category, reason) =>
        ((true, Some ("Blocked IP (" +:+ fmt category +:+ "): " +:+ fmt reason)), self)
    | _ => web_check p self
    end.
Proof.
  intros Htcp. unfold _should_block_packet, protocol_of. rewrite Htcp.
  by destruct (is_ip_blocked _ _) as [[[] ?] ?].
Qed.

Lemma set_dns_cache_same (self : FilterEngine) :
  set_dns_cache (dns_cache self) self = self.
Proof. by destruct self. Qed.

(** Lines without a Host header are passed over. *)
Lemma host_scan_skip (store : BlocklistManager) (dst_ip : string)
    (before rest : list string) (cache : gmap string string) :
  Forall no_host before →
  host_scan store dst_ip (before ++ rest) cache = host_scan store dst_ip rest cache.
Proof.
  induction 1 as [|l before Hl _ IH]; [done|].
  cbn [app host_scan]. by rewrite Hl.
Qed.

Lemma host_scan_no_host (store : BlocklistManager) (dst_ip : string)
    (lines : list string) (cache : gmap string string) :
  Forall no_host lines → host_scan store dst_ip lines cache = ((false, None), cache).
Proof.
  intros Hlines. rewrite <- (app_nil_r lines). by rewrite host_scan_skip.
Qed.

(** What the scan does at a Host header. *)
Lemma host_scan_host_line (store : BlocklistManager) (dst_ip : string)
    (header value : string) (after : list string) (cache : gmap string string) :
  Py.lower header = "host" →
  host_scan store dst_ip ((header +:+ ":" +:+ value) :: after) cache
  = let host := default EmptyString (head (Py.split ":" (Py.strip value))) in
    match is_domain_blocked host store with
    | (true, category, reason) =>
        ((true, Some ("Blocked HTTP Host (" +:+ fmt category +:+ "): "
                      +:+ host +:+ " - " +:+ fmt reason)),
         <[dst_ip := host]> cache)
    | _ => host_scan store dst_ip after (<[dst_ip := host]> cache)
    end.
Proof.
  intros Hheader. destruct (host_line_parts header value Hheader) as [Hstart Hcut].
  cbn [host_scan]. rewrite Hstart, Hcut. cbn zeta.
  by destruct (is_domain_blocked _ store) as [[[] ?] ?].
Qed.

(** C5 (as amended).  Let a TCP packet go to port 80 and let the cache
    hold a domain for its destination.  If the destination address is
    blocked, or the cached domain is, the verdict is that block and the
    engine, cache included, is unchanged: no Host header is looked for.
    If neither is blocked, the verdict and the resulting engine are those
    of the Host-header step, as for a destination that is not cached: a
    payload that does not start with [GET], [POST] or [HEAD], or a
    request without Host header, is allowed and leaves the engine
    unchanged; at the first Host header of a request the cache entry of
    the destination is overwritten with the host of the header (what
    follows the colon, trimmed and cut at the next colon), the packet is
    blocked with the reason [Blocked HTTP Host] if the rule store blocks
    that host, and otherwise the scan goes on with the lines that
    follow. *)
Theorem cached_domain_port_80 (p : packet) (self : FilterEngine) (domain : string) :
  tcp p = true → dst_port p = 80 →
  dns_cache self !! dst_addr p = Some domain →
  (∀ category reason,
     is_ip_blocked (dst_addr p) (blocklist self) = (true, category, reason) →
     _should_block_packet p self
     = ((true, Some ("Blocked IP (" +:+ fmt category +:+ "): " +:+ fmt reason)), self))
  ∧ (∀ category reason,
       (is_ip_blocked (dst_addr p) (blocklist self)).1.1 = false →
       is_domain_blocked domain (blocklist self) = (true, category, reason) →
       _should_block_packet p self
       = ((true, Some ("Blocked HTTP/HTTPS to " +:+ domain +:+ " ("
                       +:+ fmt category +:+ "): " +:+ fmt reason)), self))
  ∧ ((is_ip_blocked (dst_addr p) (blocklist self)).1.1 = false →
     (is_domain_blocked domain (blocklist self)).1.1 = false →
     let lines := Py.split CRLF (utf8_ignore (payload p)) in
     _should_block_packet p self = http_host_check p self
     ∧ (is_http_request (payload p) = false →
        _should_block_packet p self = ((false, None), self))
     ∧ (is_http_request (payload p) = true → Forall no_host lines →
        _should_block_packet p self = ((false, None), self))
     ∧ (∀ before header value after,
          is_http_request (payload p) = true →
          lines = before ++ (header +:+ ":" +:+ value) :: after →
          Forall no_host before → Py.lower header = "host" →
          let host := default EmptyString (head (Py.split ":" (Py.strip value))) in
          let cache := <[dst_addr p := host]> (dns_cache self) in
          _should_block_packet p self
          = match is_domain_blocked host (blocklist self) with
            | (true, category, reason) =>
                ((true, Some ("Blocked HTTP Host (" +:+ fmt category +:+ "): "
                              +:+ host +:+ " - " +:+ fmt reason)),
                 set_dns_cache cache self)
            | _ =>
                let '(r, cache') :=
                  host_scan (blocklist self) (dst_addr p) after cache in
                (r, set_dns_cache cache' self)
            end)).
Proof.
  intros Htcp Hport Hcache. rewrite (should_block_tcp p self Htcp).
  assert (web_check p self
          = match is_domain_blocked domain (blocklist self) with
            | (true, category, reason) =>
                ((true, Some ("Blocked HTTP/HTTPS to " +:+ domain +:+ " ("
                              +:+ fmt category +:+ "): " +:+ fmt reason)), self)
            | _ => http_host_check p self
            end) as Hweb.
  { unfold web_check, protocol_of. by rewrite Htcp, Hport, Hcache. }
  split; [|split].
  - intros category reason ->. done.
  - intros category reason Hip Hdom.
    destruct (is_ip_blocked _ _) as [[[] ?] ?]; [done|]. by rewrite Hweb, Hdom.
  - intros Hip Hdom lines.
    assert (match is_ip_blocked (dst_addr p) (blocklist self) with
            | (true, category, reason) =>
                ((true, Some ("Blocked IP (" +:+ fmt category +:+ "): "
                              +:+ fmt reason)), self)
            | _ => web_check p self
            end = http_host_check p self) as ->.
    { destruct (is_ip_blocked _ _) as [[[] ?] ?]; [done|]. rewrite Hweb.
      by destruct (is_domain_blocked domain _) as [[[] ?] ?]. }
    assert (http_host_check p self
            = if is_http_request (payload p)
              then let '(r, cache) :=
                     host_scan (blocklist self) (dst_addr p) lines (dns_cache self) in
                   (r, set_dns_cache cache self)
              else ((false, None), self)) as Hstep.
    { unfold http_host_check, is_http_request. by rewrite Hport, Htcp. }
    split; [done|]. rewrite Hstep. split; [|split].
    + by intros ->.
    + intros -> Hnone. rewrite host_scan_no_host by done.
      by rewrite set_dns_cache_same.
    + intros before header value after -> Hlines Hbefore Hheader host cache.
      rewrite Hlines, host_scan_skip by done.
      rewrite host_scan_host_line by done. cbn zeta. fold host. fold cache.
      by destruct (is_domain_blocked host (blocklist self)) as [[[] ?] ?].
Qed.

(** C6 (as amended).  Let the store hold the rule [malware.test] of
    category [malware] and no rule for the address 203.0.113.5.  After a UDP packet from
    port 53 to 203.0.113.5 whose payload decodes to [malware.test], the
    cache maps the address to that domain, and any TCP packet to
    203.0.113.5 port 443 is blocked with the reason of the cache step,
    which cites the category. *)
Theorem dns_answer_then_https (self : FilterEngine) (answer web : packet) :
  blocked_domains (blocklist self) !! "malware.test" = Some "malware" →
  blocked_ips (blocklist self) !! "203.0.113.5" = None →
  udp answer = true → tcp answer = false → src_port answer = 53 →
  dst_addr answer = "203.0.113.5" →
  _extract_dns_domain answer = Some "malware.test" →
  tcp web = true → dst_addr web = "203.0.113.5" → dst_port web = 443 →
  let '(first, engine) := _should_block_packet answer self in
  first = (true, Some "Blocked DNS (malware): malware.test - Exact match")
  ∧ dns_cache engine !! "203.0.113.5" = Some "malware.test"
  ∧ _should_block_packet web engine
    = ((true, Some "Blocked HTTP/HTTPS to malware.test (malware): Exact match"),
       engine).
Proof.
  intros Hrule Hip Hudp Hnotcp Hsport Hdst Hname Htcp Hwdst Hwport.
  assert (∀ e, blocklist e = blocklist self →
               is_ip_blocked "203.0.113.5" (blocklist e) = (false, None, None)) as Hfree.
  { intros e ->. unfold is_ip_blocked.
    change (Py.strip "203.0.113.5") with "203.0.113.5". by rewrite Hip. }
  assert (∀ e, blocklist e = blocklist self →
               is_domain_blocked "malware.test" (blocklist e)
               = (true, Some "malware", Some "Exact match")) as Hblocked.
  { intros e ->. apply is_domain_blocked_exact.
    change (normalise "malware.test") with "malware.test". exact Hrule. }
  unfold _should_block_packet at 1. unfold protocol_of.
  rewrite Hdst, (Hfree self eq_refl), Hnotcp, Hudp, Hsport, Hname.
  cbn [String.eqb Ascii.eqb Bool.eqb andb orb Z.eqb Pos.eqb].
  rewrite Hblocked by done. rewrite orb_true_r.
  split; [reflexivity|]. split; [apply lookup_insert_eq|].
  rewrite should_block_tcp by done. rewrite Hwdst, Hfree by done.
  unfold web_check, protocol_of. rewrite Htcp, Hwport, Hwdst.
  cbn [String.eqb Ascii.eqb Bool.eqb andb orb Z.eqb Pos.eqb dns_cache set_dns_cache].
  rewrite lookup_insert_eq. by rewrite Hblocked.
Qed.

End Decision.

(** The request of the examples names its host with a port, which is
    dropped. *)
Example http_host_example :
  (@http_host_check literal_regex http_packet (new_engine empty_store)).2
  = set_dns_cache {["198.51.100.7" := "other.test"]} (new_engine empty_store).
Proof. vm_compute. reflexivity. Qed.

Lemma cached_domain_port_80_witness :
  tcp http_packet = true ∧ dst_port http_packet = 80
  ∧ dns_cache cached_engine !! dst_addr http_packet = Some "good.test"
  ∧ @_should_block_packet literal_regex http_packet cached_engine
    = ((false, None),
       set_dns_cache (<["198.51.100.7" := "other.test"]> (dns_cache cached_engine))
         cached_engine).
Proof.
  split; [reflexivity|]. split; [reflexivity|]. split; [reflexivity|].
  destruct (@cached_domain_port_80 literal_regex http_packet cached_engine
              "good.test" eq_refl eq_refl eq_refl) as (_ & _ & Hfree).
  destruct (Hfree eq_refl eq_refl) as (_ & _ & _ & Hhost).
  assert (Forall no_host ["GET / HTTP/1.1"]) as Hbefore
    by (constructor; [reflexivity|constructor]).
  rewrite (Hhost ["GET / HTTP/1.1"] "Host" " other.test:8080" [""; ""]
             eq_refl eq_refl Hbefore eq_refl).
  reflexivity.
Defined.

(** C5, as stated, fails when the cached domain is not blocked: the Host
    header of the request is read and replaces the cache entry. *)
Lemma cached_domain_port_80_counterexample :
  tcp http_packet = true ∧ dst_port http_packet = 80
  ∧ dns_cache cached_engine !! "198.51.100.7" = Some "good.test"
  ∧ (let '(v, engine) :=
       @_should_block_packet literal_regex http_packet cached_engine in
     v = (false, None)
     ∧ dns_cache engine !! "198.51.100.7" = Some "other.test"
     ∧ dns_cache engine !! "198.51.100.7"
       ≠ dns_cache cached_engine !! "198.51.100.7").
Proof. vm_compute. repeat split; discriminate || reflexivity. Qed.

Lemma dns_answer_then_https_witness :
  blocked_domains malware_store !! "malware.test" = Some "malware"
  ∧ _extract_dns_domain malware_dns_answer = Some "malware.test"
  ∧ (let '(first, engine) :=
       @_should_block_packet literal_regex malware_dns_answer
         (new_engine malware_store) in
     first = (true, Some "Blocked DNS (malware): malware.test - Exact match")
     ∧ dns_cache engine !! "203.0.113.5" = Some "malware.test"
     ∧ @_should_block_packet literal_regex https_packet engine
       = ((true, Some "Blocked HTTP/HTTPS to malware.test (malware): Exact match"),
          engine)).
Proof.
  split; [reflexivity|]. split; [reflexivity|].
  apply (@dns_answer_then_https literal_regex (new_engine malware_store)
           malware_dns_answer https_packet); reflexivity.
Defined.

(** C6, as stated, fails when the store also holds a rule for the address
    203.0.113.5: both packets are blocked by the address rule, with its
    category, before the name is looked at, and the cache is never
    written. *)
Lemma dns_answer_then_https_counterexample :
  blocked_domains malware_ip_store !! "malware.test" = Some "malware"
  ∧ udp malware_dns_answer = true ∧ src_port malware_dns_answer = 53
  ∧ dst_addr malware_dns_answer = "203.0.113.5"
  ∧ _extract_dns_domain malware_dns_answer = Some "malware.test"
  ∧ tcp https_packet = true ∧ dst_addr https_packet = "203.0.113.5"
  ∧ dst_port https_packet = 443
  ∧ (let '(first, engine) :=
       @_should_block_packet literal_regex malware_dns_answer
         (new_engine malware_ip_store) in
     first = (true, Some "Blocked IP (custom): Exact match")
     ∧ dns_cache engine !! "203.0.113.5" = None
     ∧ @_should_block_packet literal_regex https_packet engine
       = ((true, Some "Blocked IP (custom): Exact match"), engine)).
Proof. vm_compute. repeat split; reflexivity. Qed.

(** ** Saving and reloading *)

Section Durability.
Context `{Regex}.

(** Writing the patterns and loading them gives the same list, in the
    same order, and the loop comes to its end. *)
Lemma load_patterns_from_entries (acc l : list (string * string)) :
  Forall (λ pc, re_valid pc.1 = true) l →
  load_patterns_from acc (patterns_entries l) = (acc ++ l, true).
Proof.
  intros Hl. revert acc. induction Hl as [|[p c] l Hp _ IH]; intros acc.
  - by rewrite app_nil_r.
  - unfold patterns_entries in *. rewrite fmap_cons. simpl in *.
    by rewrite Hp, IH, <- app_assoc.
Qed.

Lemma load_patterns_entries (l : list (string * string)) :
  Forall (λ pc, re_valid pc.1 = true) l →
  load_patterns (patterns_entries l) = (l, true).
Proof. apply (load_patterns_from_entries []). Qed.

(** The loader keeps compiled patterns only, also when it is left
    early. *)
Lemma load_patterns_from_valid (acc : list (string * string)) (l : list entry) :
  Forall (λ pc, re_valid pc.1 = true) acc →
  Forall (λ pc, re_valid pc.1 = true) (load_patterns_from acc l).1.
Proof.
  revert acc. induction l as [|e l IH]; intros acc Hacc; [done|].
  cbn [load_patterns_from]. destruct (re_valid _) eqn:E.
  - apply IH, Forall_app. split; [done|]. by repeat constructor.
  - destruct (re_error _); [by apply IH|done].
Qed.

Lemma load_patterns_valid (l : list entry) :
  Forall (λ pc, re_valid pc.1 = true) (load_patterns l).1.
Proof. by apply load_patterns_from_valid. Qed.

Lemma store_ok_init (io : write_result) (dir : string) (fs : files) :
  store_ok (__init__ io dir fs).1.
Proof.
  split; [apply lower_keys_init|].
  unfold valid_patterns, __init__, load_blocklist. cbn [blocklist_file].
  destruct (fs !! path_join dir "blocklist.json") as [[data|lines]|].
  - pose proof (load_patterns_valid (default [] (doc_patterns data))) as Hvalid.
    by destruct (load_patterns _).
  - simpl. constructor.
  - destruct (save_blocklist _ _ _ _). simpl. constructor.
Qed.

Lemma store_ok_mutation (io : write_result) (m : mutation)
    (self : BlocklistManager) (fs : files) :
  store_ok self → store_ok (apply_mutation io m self fs).1.2.
Proof.
  intros [Hlow Hval]. split; [by apply lower_keys_mutation|].
  unfold valid_patterns in *.
  destruct m as [d c|ip c|p c|d|ip]; cbn [apply_mutation]; unfold returns.
  - unfold add_domain. destruct (_ || _); [done|].
    by destruct (save_blocklist _ _ _ _).
  - unfold add_ip. destruct (negb _); [done|].
    by destruct (save_blocklist _ _ _ _).
  - unfold add_pattern.
    destruct (re_valid p) eqn:E; [|by destruct (re_error p)].
    destruct (save_blocklist _ _ _ _). simpl.
    apply Forall_app. split; [done|]. by repeat constructor.
  - unfold remove_domain. destruct (blocked_domains self !! _); [|done].
    by destruct (save_blocklist _ _ _ _).
  - unfold remove_ip. destruct (blocked_ips self !! _); [|done].
    by destruct (save_blocklist _ _ _ _).
Qed.

Lemma store_ok_clear (io : write_result) (category : string)
    (self : BlocklistManager) (fs : files) :
  store_ok self → store_ok (clear_category io category self fs).1.2.
Proof.
  intros [Hlow Hval]. split; [by apply lower_keys_clear|].
  unfold valid_patterns, clear_category in *.
  destruct (save_blocklist _ _ _ _). simpl.
  apply Forall_forall. intros pc [_ Hin]%list_elem_of_filter.
  by eapply Forall_forall in Hval.
Qed.

(** X1.  The invariant of the store.  A fresh manager has lower-case
    domain keys and patterns that compile, whatever the rule file holds,
    and the five mutations and [clear_category] keep both facts. *)
Theorem store_ok_invariant :
  (∀ io dir fs, store_ok (__init__ io dir fs).1)
  ∧ (∀ io m self fs, store_ok self → store_ok (apply_mutation io m self fs).1.2)
  ∧ (∀ io category self fs,
       store_ok self → store_ok (clear_category io category self fs).1.2).
Proof.
  split; [|split].
  - apply store_ok_init.
  - apply store_ok_mutation.
  - apply store_ok_clear.
Qed.

(** Loading the document written from memory gives memory back. *)
Lemma load_memory_document (io : write_result) (self other : BlocklistManager)
    (fs : files) :
  store_ok self →
  blocklist_file other = blocklist_file self →
  fs !! blocklist_file self = Some (Json (memory_document self)) →
  load_blocklist io other fs = (true, self, fs).
Proof.
  intros [Hlow Hval] Hfile Hfs. unfold load_blocklist. rewrite Hfile, Hfs.
  cbn [memory_document doc_domains doc_ips doc_patterns from_option].
  change (id (patterns_entries (blocked_patterns self)))
    with (patterns_entries (blocked_patterns self)).
  rewrite load_patterns_entries by done.
  change (id (items_entries (blocked_domains self)))
    with (items_entries (blocked_domains self)).
  change (id (items_entries (blocked_ips self)))
    with (items_entries (blocked_ips self)).
  rewrite (load_entries_items Py.lower) by done.
  rewrite (load_entries_items id) by done.
  by destruct self.
Qed.

(** X2.  Saving is durable.  After [save_blocklist] has written memory,
    loading the rule file into any manager of the same file gives the
    saved store back: the same domains, addresses and patterns, the
    patterns in the same order. *)
Theorem save_load_roundtrip (io : write_result) (self other : BlocklistManager)
    (fs : files) :
  store_ok self →
  blocklist_file other = blocklist_file self →
  let '(saved, fs') := save_blocklist Written None self fs in
  saved = true ∧ load_blocklist io other fs' = (true, self, fs').
Proof.
  intros Hok Hfile. unfold save_blocklist, write_file. cbn [from_option].
  split; [done|]. apply load_memory_document; [done|done|].
  apply lookup_insert_eq.
Qed.

(** X3.  A mutation that returns [True] has left the rule file equal to
    memory, so a reload gives the store as it is after the mutation.  A
    mutation whose input is refused changes neither memory nor the files;
    it returns [False], except that [add_pattern] catches [re.error]
    only: when [re.compile] fails with another exception the call raises.
    No other call of the five raises. *)
Theorem mutation_durable (io io' : write_result) (m : mutation)
    (self other : BlocklistManager) (fs : files) :
  store_ok self →
  let '(r, self', fs') := apply_mutation io m self fs in
  (passes_validation m self = false →
   self' = self ∧ fs' = fs
   ∧ r = match m with
         | AddPattern p _ => if re_error p then Returns false else Raises
         | _ => Returns false
         end)
  ∧ (r = Raises ↔
     ∃ p c, m = AddPattern p c ∧ re_valid p = false ∧ re_error p = false)
  ∧ (r = Returns true → blocklist_file other = blocklist_file self →
     fs' !! blocklist_file self = Some (Json (memory_document self'))
     ∧ load_blocklist io' other fs' = (true, self', fs')).
Proof.
  intros Hok.
  pose proof (store_ok_mutation io m self fs Hok) as Hmut.
  assert (∀ new : BlocklistManager,
            blocklist_file new = blocklist_file self → store_ok new →
            let '(r, fs') := save_blocklist io None new fs in
            Returns r = Returns true → blocklist_file other = blocklist_file self →
            fs' !! blocklist_file self = Some (Json (memory_document new))
            ∧ load_blocklist io' other fs' = (true, new, fs')) as Hsave.
  { intros new Hf Hnew. unfold save_blocklist, write_file. cbn [from_option].
    destruct io as [|[r|]]; [|done|done].
    intros _ Hother. rewrite Hf.
    assert (<[blocklist_file self := Json (memory_document new)]> fs
            !! blocklist_file self = Some (Json (memory_document new))) as Hl
      by apply lookup_insert_eq.
    split; [done|]. apply load_memory_document; [done|congruence|by rewrite Hf]. }
  destruct m as [d c|ip c|p c|d|ip]; cbn [apply_mutation passes_validation] in *;
    unfold returns in *.
  - unfold add_domain in *. fold (normalise d) in *.
    destruct (_ || _); [split; [done|split; [|done]]|].
    + split; [done|]. by intros (? & ? & ? & _).
    + specialize (Hsave (set_domains (<[normalise d := c]> (blocked_domains self)) self)
                    eq_refl).
      destruct (save_blocklist _ _ _ _). split; [done|]. split; [|by apply Hsave].
      split; [done|]. by intros (? & ? & ? & _).
  - unfold add_ip in *. destruct (_is_valid_ip _); cbn [negb] in *.
    + specialize (Hsave (set_ips (<[Py.strip ip := c]> (blocked_ips self)) self) eq_refl).
      destruct (save_blocklist _ _ _ _). split; [done|]. split; [|by apply Hsave].
      split; [done|]. by intros (? & ? & ? & _).
    + split; [done|]. split; [|done]. split; [done|]. by intros (? & ? & ? & _).
  - unfold add_pattern in *. destruct (re_valid p) eqn:Ev.
    + specialize (Hsave (set_patterns (blocked_patterns self ++ [(p, c)]) self) eq_refl).
      destruct (save_blocklist _ _ _ _). split; [done|]. split; [|by apply Hsave].
      split; [done|]. intros (? & ? & [= <- <-] & ? & _). congruence.
    + destruct (re_error p) eqn:Ee.
      * split; [done|]. split; [|done]. split; [done|].
        intros (? & ? & [= <- <-] & _ & ?). congruence.
      * split; [done|]. split; [|done]. split; [|done]. intros _. by exists p, c.
  - unfold remove_domain in *. fold (normalise d) in *.
    destruct (blocked_domains self !! normalise d) eqn:E.
    + rewrite bool_decide_eq_true_2 by by eexists.
      specialize (Hsave (set_domains (delete (normalise d) (blocked_domains self)) self)
                    eq_refl).
      destruct (save_blocklist _ _ _ _). split; [done|]. split; [|by apply Hsave].
      split; [done|]. by intros (? & ? & ? & _).
    + split; [done|]. split; [|done]. split; [done|]. by intros (? & ? & ? & _).
  - unfold remove_ip in *.
    destruct (blocked_ips self !! Py.strip ip) eqn:E.
    + rewrite bool_decide_eq_true_2 by by eexists.
      specialize (Hsave (set_ips (delete (Py.strip ip) (blocked_ips self)) self) eq_refl).
      destruct (save_blocklist _ _ _ _). split; [done|]. split; [|by apply Hsave].
      split; [done|]. by intros (? & ? & ? & _).
    + split; [done|]. split; [|done]. split; [done|]. by intros (? & ? & ? & _).
Qed.

End Durability.

(** [add_pattern] with a pattern that makes [re.compile] raise
    [OverflowError] raises and changes nothing; a rule file that holds
    such a pattern is loaded up to it, and [load_blocklist] returns
    [False]. *)
Example overflow_pattern_example :
  @add_pattern overflow_regex Written overflow_pattern "custom" empty_store ∅
  = (Raises, empty_store, ∅)
  ∧ (let fs : files :=
       {["config/blocklist.json" :=
           Json {| doc_domains := Some [Entry (Some "Ads.com") (Some "advertising")];
                   doc_ips := None;
                   doc_patterns :=
                     Some [Entry (Some "casino") (Some "gambling");
                           Entry (Some overflow_pattern) None;
                           Entry (Some "tracker") None] |}]} in
     @load_blocklist overflow_regex Written empty_store fs
     = (false,
        set_patterns [("casino", "gambling")]
          (set_domains {["ads.com" := "advertising"]} empty_store),
        fs)).
Proof. vm_compute. split; reflexivity. Qed.

Lemma pattern_store_ok : @store_ok literal_regex pattern_store.
Proof.
  split.
  - intros k [c Hc]. simpl in Hc. by apply lookup_singleton_Some in Hc as [<- _].
  - by repeat constructor.
Qed.

Lemma save_load_roundtrip_witness :
  @store_ok literal_regex pattern_store
  ∧ (let '(saved, fs') := save_blocklist Written None pattern_store ∅ in
     saved = true
     ∧ @load_blocklist literal_regex Written empty_store fs'
       = (true, pattern_store, fs')).
Proof.
  split; [exact pattern_store_ok|].
  exact (@save_load_roundtrip literal_regex Written pattern_store empty_store ∅
           pattern_store_ok eq_refl).
Defined.

Lemma mutation_durable_witness :
  @store_ok literal_regex pattern_store
  ∧ (let '(r, self', fs') :=
       @apply_mutation literal_regex Written (AddPattern "casino" "gambling")
         pattern_store ∅ in
     r = Returns true
     ∧ blocked_patterns self' = [("tracker", "advertising"); ("casino", "gambling")]
     ∧ @load_blocklist literal_regex Written empty_store fs' = (true, self', fs')).
Proof.
  split; [exact pattern_store_ok|].
  pose proof (@mutation_durable literal_regex Written Written
                (AddPattern "casino" "gambling") pattern_store empty_store ∅
                pattern_store_ok) as Hd.
  destruct (@apply_mutation literal_regex Written (AddPattern "casino" "gambling")
              pattern_store ∅) as [[r self'] fs'] eqn:E.
  injection E as <- <- <-.
  split; [reflexivity|]. split; [reflexivity|].
  by apply Hd.
Defined.

(** ** Queries *)

Lemma isspace_lower_char (c : ascii) : Py.isspace (Py.lower_char c) = Py.isspace c.
Proof. by destruct c as [[] [] [] [] [] [] [] []]. Qed.

Lemma is_empty_lower (s : string) : Py.is_empty (Py.lower s) = Py.is_empty s.
Proof. by destruct s. Qed.

Lemma lstrip_lower (s : string) : Py.lstrip (Py.lower s) = Py.lower (Py.lstrip s).
Proof.
  induction s as [|c s IH]; [done|]. simpl. rewrite isspace_lower_char.
  by destruct (Py.isspace c).
Qed.

Lemma rstrip_lower (s : string) : Py.rstrip (Py.lower s) = Py.lower (Py.rstrip s).
Proof.
  induction s as [|c s IH]; [done|]. simpl.
  rewrite isspace_lower_char, IH, is_empty_lower.
  by destruct (Py.isspace c && Py.is_empty (Py.rstrip s)).
Qed.

(** Lower-casing and trimming commute. *)
Lemma strip_lower (s : string) : Py.strip (Py.lower s) = Py.lower (Py.strip s).
Proof. unfold Py.strip. by rewrite lstrip_lower, rstrip_lower. Qed.

Lemma rstrip_idemp (s : string) : Py.rstrip (Py.rstrip s) = Py.rstrip s.
Proof.
  induction s as [|c s IH]; [done|]. simpl.
  destruct (Py.isspace c && Py.is_empty (Py.rstrip s)) eqn:E; [done|].
  simpl. by rewrite IH, E.
Qed.

Lemma lstrip_rstrip (s : string) :
  Py.lstrip (Py.rstrip (Py.lstrip s)) = Py.rstrip (Py.lstrip s).
Proof.
  induction s as [|c s IH]; [done|]. simpl.
  destruct (Py.isspace c) eqn:E; [done|]. simpl. rewrite E. simpl. by rewrite E.
Qed.

Lemma strip_idemp (s : string) : Py.strip (Py.strip s) = Py.strip s.
Proof. unfold Py.strip. by rewrite lstrip_rstrip, rstrip_idemp. Qed.

(** The normal form is a fixed point of normalisation. *)
Lemma normalise_idemp (d : string) : normalise (normalise d) = normalise d.
Proof.
  unfold normalise. by rewrite <- strip_lower, lower_idemp, strip_lower,
    <- strip_lower, strip_idemp.
Qed.

Section Queries.
Context `{Regex}.

(** X4.  A query depends on the normal form of the domain only: two
    spellings that differ in case or in surrounding white space get the
    same answer, and so do a domain and its normal form. *)
Theorem is_domain_blocked_normal_form (self : BlocklistManager) (D D' : string) :
  normalise D = normalise D' →
  is_domain_blocked D self = is_domain_blocked D' self
  ∧ is_domain_blocked (normalise D) self = is_domain_blocked D self.
Proof.
  intros E. split.
  - unfold is_domain_blocked. fold (normalise D) (normalise D'). by rewrite E.
  - unfold is_domain_blocked. fold (normalise (normalise D)) (normalise D).
    by rewrite normalise_idemp.
Qed.

(** X5.  A domain that [add_domain] accepts is blocked from then on, in
    every spelling, together with all its subdomains, whether or not the
    write succeeded; the domain itself reports the category given. *)
Theorem add_domain_blocks_subdomains (io : write_result) (d c : string)
    (self : BlocklistManager) (fs : files) :
  passes_validation (AddDomain d c) self = true →
  let self' := (add_domain io d c self fs).1.2 in
  (∀ D, normalise D = normalise d →
        is_domain_blocked D self' = (true, Some c, Some "Exact match"))
  ∧ (∀ D, dot_suffix (normalise d) (normalise D) →
          (is_domain_blocked D self').1.1 = true).
Proof.
  intros Hv. simpl in Hv. apply negb_true_iff in Hv.
  unfold add_domain. fold (normalise d). rewrite Hv.
  destruct (save_blocklist _ _ _ _) as [r fs']. cbn [fst snd].
  set (self' := set_domains (<[normalise d := c]> (blocked_domains self)) self).
  assert (blocked_domains self' !! normalise d = Some c) as Hin
    by apply lookup_insert_eq.
  split.
  - intros D E. apply is_domain_blocked_exact. by rewrite E.
  - intros D Hsuf.
    destruct (blocked_domains self' !! normalise D) as [c'|] eqn:E.
    + by rewrite (is_domain_blocked_exact self' D c' E).
    + destruct (is_domain_blocked_parent self' D (normalise d) c Hin Hsuf E)
        as (P & c' & _ & _ & _ & _ & ->). done.
Qed.

(** X6.  Removing a domain that is not a key returns [False] and changes
    neither memory nor the files.  Removing a domain just added, when it
    was not a key before, gives the store back as it was, and the rule
    file then holds that store. *)
Theorem remove_domain_undoes_add (d c : string) (self : BlocklistManager)
    (fs : files) :
  (blocked_domains self !! normalise d = None →
   ∀ io, remove_domain io d self fs = (false, self, fs))
  ∧ (blocked_domains self !! normalise d = None →
     passes_validation (AddDomain d c) self = true →
     let '(_, added, fs1) := add_domain Written d c self fs in
     let '(r, removed, fs2) := remove_domain Written d added fs1 in
     r = true ∧ removed = self
     ∧ fs2 !! blocklist_file self = Some (Json (memory_document self))).
Proof.
  split.
  - intros E io. unfold remove_domain. fold (normalise d). by rewrite E.
  - intros E Hv. simpl in Hv. apply negb_true_iff in Hv.
    unfold add_domain, remove_domain, save_blocklist, write_file.
    fold (normalise d). rewrite Hv. cbn [from_option blocked_domains set_domains].
    rewrite lookup_insert_eq. cbn [blocked_domains set_domains blocklist_file].
    rewrite delete_insert_eq, delete_id by done.
    assert (set_domains (blocked_domains self)
              (set_domains (<[normalise d := c]> (blocked_domains self)) self)
            = self) as -> by by destruct self.
    split; [done|]. split; [done|]. apply lookup_insert_eq.
Qed.

(** X7.  Patterns are consulted in list order and after the domain rules:
    when no dot-delimited suffix of the domain is a stored rule, the
    answer is the first pattern of the list that matches, with its
    category; the patterns before it do not match. *)
Theorem pattern_first_match_wins (self : BlocklistManager) (D : string)
    (before after : list (string * string)) (p c : string) :
  (∀ P, dot_suffix P (normalise D) → blocked_domains self !! P = None) →
  blocked_patterns self = before ++ (p, c) :: after →
  Forall (λ qc, re_search qc.1 (normalise D) = false) before →
  re_search p (normalise D) = true →
  is_domain_blocked D self = (true, Some c, Some ("Pattern match: " +:+ p)).
Proof.
  intros Hno Hps Hbefore Hp. unfold is_domain_blocked. fold (normalise D).
  rewrite (Hno (normalise D)) by by left.
  pose proof (first_parent_seq (blocked_domains self) (Py.split "." (normalise D))
                (length (Py.split "." (normalise D))) 0) as Hw.
  destruct (first_parent _ _ _) as [[P c']|].
  - destruct Hw as (i & Hi & -> & Hc & _). rewrite Hno in Hc; [done|].
    apply dot_suffix_drop. lia.
  - rewrite Hps, first_pattern_app.
    assert (first_pattern (normalise D) before = None) as ->.
    { clear Hps. induction Hbefore as [|[q qc] l Hq _ IH]; [done|].
      simpl in *. by rewrite Hq. }
    simpl. by rewrite Hp.
Qed.

End Queries.

Lemma is_domain_blocked_normal_form_witness :
  normalise " ADS.com" = normalise "ads.COM "
  ∧ @is_domain_blocked literal_regex " ADS.com" ads_store
    = @is_domain_blocked literal_regex "ads.COM " ads_store.
Proof.
  split; [reflexivity|].
  apply (@is_domain_blocked_normal_form literal_regex ads_store " ADS.com" "ads.COM ").
  reflexivity.
Defined.

Lemma add_domain_blocks_subdomains_witness :
  @passes_validation literal_regex (AddDomain " Ads.COM" "advertising") empty_store
  = true
  ∧ @is_domain_blocked literal_regex "ads.com"
      (add_domain (WriteFailed None) " Ads.COM" "advertising" empty_store ∅).1.2
    = (true, Some "advertising", Some "Exact match").
Proof.
  split; [reflexivity|].
  apply (@add_domain_blocks_subdomains literal_regex (WriteFailed None) " Ads.COM"
           "advertising" empty_store ∅); reflexivity.
Defined.

Lemma pattern_first_match_wins_witness :
  @is_domain_blocked literal_regex "cdn.Tracker.example" two_patterns_store
  = (true, Some "advertising", Some "Pattern match: tracker").
Proof.
  apply (@pattern_first_match_wins literal_regex two_patterns_store
           "cdn.Tracker.example" [("casino", "gambling")] [("track", "custom")]
           "tracker" "advertising").
  - intros P _. apply lookup_empty.
  - reflexivity.
  - repeat constructor.
  - reflexivity.
Defined.

(** ** Statistics *)

Lemma length_filter_split {A : Type} (P Q : A → Prop)
    `{∀ x, Decision (P x)} `{∀ x, Decision (Q x)} (l : list A) :
  (∀ x, ¬ (P x ∧ Q x)) →
  length (filter (λ x, P x ∨ Q x) l)
  = (length (filter P l) + length (filter Q l))%nat.
Proof.
  intros Hex. induction l as [|x l IH]; [done|].
  rewrite !filter_cons.
  destruct (decide (P x)) as [HP|HP], (decide (Q x)) as [HQ|HQ].
  - destruct (Hex x). done.
  - rewrite decide_True by by left. simpl. by rewrite IH.
  - rewrite decide_True by by right. simpl. rewrite IH. lia.
  - rewrite decide_False by by intros [?|?]. done.
Qed.

Lemma length_filter_ext {A : Type} (P Q : A → Prop)
    `{∀ x, Decision (P x)} `{∀ x, Decision (Q x)} (l : list A) :
  (∀ x, P x ↔ Q x) → length (filter P l) = length (filter Q l).
Proof.
  intros Hiff. induction l as [|x l IH]; [done|].
  rewrite !filter_cons.
  destruct (decide (P x)) as [HP|HP], (decide (Q x)) as [HQ|HQ]; simpl;
    rewrite ?IH; try done; exfalso; apply Hiff in HP || apply Hiff in HQ; done.
Qed.

(** The counts of distinct categories add up to the number of values in
    one of them. *)
Lemma count_sum (values cs : list string) :
  NoDup cs →
  sum_list ((λ category, length (filter (λ c, c = category) values)) <$> cs)
  = length (filter (λ c, c ∈ cs) values).
Proof.
  induction 1 as [|c cs Hc _ IH].
  - simpl. induction values as [|v values IHv]; [done|].
    rewrite filter_cons, decide_False by apply not_elem_of_nil. done.
  - rewrite fmap_cons. simpl. rewrite IH.
    rewrite <- (length_filter_split (λ v, v = c) (λ v, v ∈ cs)).
    + apply length_filter_ext. intros v. by rewrite elem_of_cons.
    + intros v [-> Hv]. done.
Qed.

Lemma length_filter_all {A : Type} (P : A → Prop) `{∀ x, Decision (P x)}
    (l : list A) :
  length (filter P l) = length l ↔ Forall P l.
Proof.
  induction l as [|x l IH]; [by split; [constructor|]|].
  rewrite filter_cons. pose proof (length_filter P l) as Hle.
  destruct (decide (P x)) as [HP|HP]; simpl.
  - split.
    + intros E. constructor; [done|]. apply IH. lia.
    + intros [_ Hl]%Forall_cons. f_equal. by apply IH.
  - split; [lia|]. by intros [? _]%Forall_cons.
Qed.

Lemma categories_NoDup : NoDup categories.
Proof. apply (bool_decide_unpack _). vm_compute. exact I. Qed.

Lemma count_category_total (m : gmap string string) :
  let counted_sum := sum_list (count_category m <$> categories) in
  (counted_sum ≤ size m)%nat
  ∧ (counted_sum = size m ↔ ∀ k c, m !! k = Some c → c ∈ categories).
Proof.
  unfold count_category.
  rewrite (count_sum (map_to_list m).*2 categories) by apply categories_NoDup.
  pose proof (length_filter (λ c, c ∈ categories) (map_to_list m).*2) as Hle.
  rewrite length_fmap, length_map_to_list in Hle. split; [done|].
  rewrite <- (length_map_to_list m), <- (length_fmap snd (map_to_list m)).
  rewrite length_filter_all, Forall_fmap, Forall_forall. split.
  - intros Hall k c Hkc. apply (Hall (k, c)). by apply elem_of_map_to_list.
  - intros Hall [k c] Hin. apply (Hall k c). by apply elem_of_map_to_list.
Qed.

(** X8.  In the result of [get_statistics] the per-category counts of
    domains add up to at most [total_domains], and to exactly
    [total_domains] iff every domain rule has one of the six categories
    of the enumeration; the same holds for addresses.  A rule of any other
    category is in the total and in no category. *)
Theorem statistics_by_category (self : BlocklistManager) :
  let s := get_statistics self in
  let domains_counted := sum_list ((by_category s).*2.*1) in
  let ips_counted := sum_list ((by_category s).*2.*2) in
  (by_category s).*1 = categories
  ∧ (domains_counted ≤ total_domains s)%nat
  ∧ (domains_counted = total_domains s
     ↔ ∀ d c, blocked_domains self !! d = Some c → c ∈ categories)
  ∧ (ips_counted ≤ total_ips s)%nat
  ∧ (ips_counted = total_ips s
     ↔ ∀ i c, blocked_ips self !! i = Some c → c ∈ categories).
Proof.
  destruct (count_category_total (blocked_domains self)) as [Hd1 Hd2].
  destruct (count_category_total (blocked_ips self)) as [Hi1 Hi2].
  cbn [get_statistics by_category total_domains total_ips].
  rewrite <- !list_fmap_compose.
  split; [reflexivity|]. done.
Qed.

(** The rule of category [nextdns] is counted in the total only. *)
Example statistics_undercount :
  total_domains (get_statistics nextdns_store) = 2%nat
  ∧ sum_list ((by_category (get_statistics nextdns_store)).*2.*1) = 1%nat.
Proof. vm_compute. done. Qed.

(** ** Import *)

Lemma grows_refl (self : BlocklistManager) : grows self self.
Proof. by repeat split. Qed.

Lemma grows_trans (a b c : BlocklistManager) : grows a b → grows b c → grows a c.
Proof.
  intros (Hf1 & Hp1 & Hd1 & Hi1 & Hl1) (Hf2 & Hp2 & Hd2 & Hi2 & Hl2).
  repeat split; [congruence|congruence|auto..].
Qed.

Lemma add_domain_grows (io : write_result) (d c : string)
    (self : BlocklistManager) (fs : files) :
  grows self (add_domain io d c self fs).1.2.
Proof.
  pose proof (lower_keys_insert d c self) as Hlow.
  unfold add_domain. fold (normalise d).
  destruct (_ || _); [apply grows_refl|]. destruct (save_blocklist _ _ _ _).
  repeat split; try done. simpl. intros k Hk.
  destruct (decide (k = normalise d)) as [->|Hne].
  - rewrite lookup_insert_eq. by eexists.
  - by rewrite lookup_insert_ne.
Qed.

Lemma add_ip_grows (io : write_result) (ip c : string)
    (self : BlocklistManager) (fs : files) :
  grows self (add_ip io ip c self fs).1.2.
Proof.
  unfold add_ip. destruct (negb _); [apply grows_refl|].
  destruct (save_blocklist _ _ _ _).
  repeat split; try done. simpl. intros k Hk.
  destruct (decide (k = Py.strip ip)) as [->|Hne].
  - rewrite lookup_insert_eq. by eexists.
  - by rewrite lookup_insert_ne.
Qed.

Lemma import_loop_grows {A : Type}
    (step : write_result → A → import_state → import_state)
    (io_at : nat → write_result) (items : list A) :
  (∀ io x st, grows st.1.2 (step io x st).1.2
              ∧ ((step io x st).1.1 ≤ S st.1.1)%nat) →
  ∀ i st, grows st.1.2 (import_loop step io_at i items st).1.2
          ∧ ((import_loop step io_at i items st).1.1 ≤ st.1.1 + length items)%nat.
Proof.
  intros Hstep. induction items as [|x items IH]; intros i st; simpl.
  - split; [apply grows_refl|lia].
  - destruct (IH (S i) (step (io_at i) x st)) as [Hg Hc].
    destruct (Hstep (io_at i) x st) as [Hg1 Hc1].
    split; [by eapply grows_trans|lia].
Qed.

Lemma counted_le (r : bool) (count : nat) : (counted r count ≤ S count)%nat.
Proof. destruct r; simpl; lia. Qed.

Lemma import_text_line_grows (category : string) (io : write_result)
    (line : string) (st : import_state) :
  grows st.1.2 (import_text_line io category line st).1.2
  ∧ ((import_text_line io category line st).1.1 ≤ S st.1.1)%nat.
Proof.
  destruct st as [[count self] fs]. unfold import_text_line.
  destruct (_ || _); [split; [apply grows_refl|simpl; lia]|].
  destruct (_is_valid_ip _).
  - pose proof (add_ip_grows io (Py.strip line) category self fs) as Hg.
    destruct (add_ip _ _ _ _ _) as [[r self'] fs']. split; [done|apply counted_le].
  - pose proof (add_domain_grows io (Py.strip line) category self fs) as Hg.
    destruct (add_domain _ _ _ _ _) as [[r self'] fs']. split; [done|apply counted_le].
Qed.

Lemma import_json_domain_grows (category : string) (io : write_result)
    (e : entry) (st : import_state) :
  grows st.1.2 (import_json_domain io category e st).1.2
  ∧ ((import_json_domain io category e st).1.1 ≤ S st.1.1)%nat.
Proof.
  destruct st as [[count self] fs]. unfold import_json_domain.
  pose proof (add_domain_grows io (default "" (e_value e))
                (default category (e_category e)) self fs) as Hg.
  destruct (add_domain _ _ _ _ _) as [[r self'] fs']. split; [done|apply counted_le].
Qed.

Lemma import_json_ip_grows (category : string) (io : write_result)
    (e : entry) (st : import_state) :
  grows st.1.2 (import_json_ip io category e st).1.2
  ∧ ((import_json_ip io category e st).1.1 ≤ S st.1.1)%nat.
Proof.
  destruct st as [[count self] fs]. unfold import_json_ip.
  pose proof (add_ip_grows io (default "" (e_value e))
                (default category (e_category e)) self fs) as Hg.
  destruct (add_ip _ _ _ _ _) as [[r self'] fs']. split; [done|apply counted_le].
Qed.

(** X9.  [import_from_file] only adds or overwrites domain and address
    rules.  Whatever the file holds and whichever writes fail, the
    pattern list and the rule-file path are unchanged, no domain or
    address rule is removed, and lower-case domain keys stay lower-case;
    a file that does not exist gives the count 0 and changes nothing. *)
Theorem import_from_file_grows (io_at : nat → write_result) (suffix : string)
    (json_text : document → list string) (file_path category : string)
    (self : BlocklistManager) (fs : files) :
  let '(count, self', fs') :=
    import_from_file io_at suffix json_text file_path category self fs in
  grows self self'
  ∧ (fs !! file_path = None → count = 0%nat ∧ self' = self ∧ fs' = fs).
Proof.
  unfold import_from_file.
  destruct (fs !! file_path) as [content|]; [|split; [apply grows_refl|done]].
  assert (∀ lines,
            grows self (import_text io_at category lines (0%nat, self, fs)).1.2)
    as Htext.
  { intros lines.
    apply (import_loop_grows _ io_at lines (import_text_line_grows category)
             0%nat (0%nat, self, fs)). }
  destruct (String.eqb _ _), content as [data|lines].
  - unfold import_json.
    destruct (import_loop_grows _ io_at (default [] (doc_domains data))
                (import_json_domain_grows category) 0%nat (0%nat, self, fs))
      as [Hg1 _].
    destruct (import_loop_grows _ io_at (default [] (doc_ips data))
                (import_json_ip_grows category)
                (length (default [] (doc_domains data)))
                (import_loop (λ io, import_json_domain io category) io_at 0
                   (default [] (doc_domains data)) (0%nat, self, fs)))
      as [Hg2 _].
    destruct (import_loop (λ io, import_json_ip io category) _ _ _ _)
      as [[count self'] fs'].
    split; [|done]. by eapply grows_trans.
  - split; [apply grows_refl|done].
  - specialize (Htext (json_text data)).
    by destruct (import_text _ _ _ _) as [[count self'] fs'].
  - specialize (Htext lines).
    by destruct (import_text _ _ _ _) as [[count self'] fs'].
Qed.

(** X10.  The count an import returns is never more than the number of
    items of the file: lines for the text form, domain and address
    entries for the JSON form. *)
Theorem import_count_bound (io_at : nat → write_result) (category : string)
    (self : BlocklistManager) (fs : files) :
  (∀ lines,
     ((import_text io_at category lines (0%nat, self, fs)).1.1 ≤ length lines)%nat)
  ∧ (∀ data,
       ((import_json io_at category data (0%nat, self, fs)).1.1
        ≤ length (default [] (doc_domains data))
          + length (default [] (doc_ips data)))%nat).
Proof.
  split.
  - intros lines.
    destruct (import_loop_grows _ io_at lines (import_text_line_grows category)
                0%nat (0%nat, self, fs)) as [_ Hc]. exact Hc.
  - intros data. unfold import_json.
    destruct (import_loop_grows _ io_at (default [] (doc_domains data))
                (import_json_domain_grows category) 0%nat (0%nat, self, fs))
      as [_ Hc1].
    destruct (import_loop_grows _ io_at (default [] (doc_ips data))
                (import_json_ip_grows category)
                (length (default [] (doc_domains data)))
                (import_loop (λ io, import_json_domain io category) io_at 0
                   (default [] (doc_domains data)) (0%nat, self, fs)))
      as [_ Hc2].
    cbv zeta. cbn [fst snd] in *.
    eapply Nat.le_trans; [exact Hc2|].
    eapply Nat.le_trans; [apply Nat.add_le_mono_r; exact Hc1|]. lia.
Qed.

Lemma normalise_strip (s : string) : normalise (Py.strip s) = normalise s.
Proof. unfold normalise. by rewrite <- strip_lower, strip_idemp. Qed.

Lemma is_empty_normalise (s : string) :
  Py.is_empty (normalise s) = Py.is_empty (Py.strip s).
Proof. unfold normalise. by rewrite strip_lower, is_empty_lower. Qed.

Lemma keeps_refl (category : string) (self : BlocklistManager) :
  keeps category self self.
Proof. by split. Qed.

Lemma keeps_trans (category : string) (a b c : BlocklistManager) :
  keeps category a b → keeps category b c → keeps category a c.
Proof. intros [Hd1 Hi1] [Hd2 Hi2]. split; auto. Qed.

(** What one line does when its write succeeds. *)
Lemma import_text_line_written (category line : string) (count : nat)
    (self : BlocklistManager) (fs : files) :
  let '(count', self', _) :=
    import_text_line Written category line (count, self, fs) in
  count' = (count + (if significant line && accepted line then 1 else 0))%nat
  ∧ keeps category self self'
  ∧ (significant line = true →
     (_is_valid_ip (Py.strip line) = true →
      blocked_ips self' !! Py.strip line = Some category)
     ∧ (_is_valid_ip (Py.strip line) = false → accepted line = true →
        blocked_domains self' !! normalise line = Some category)).
Proof.
  unfold import_text_line, significant, accepted.
  destruct (Py.is_empty (Py.strip line) || Py.startswith (Py.strip line) "#") eqn:Esig.
  { simpl. split; [lia|]. split; [apply keeps_refl|done]. }
  apply orb_false_iff in Esig as [Hne _].
  destruct (_is_valid_ip (Py.strip line)) eqn:Eip.
  - unfold add_ip, save_blocklist, write_file. rewrite strip_idemp, Eip.
    cbn [negb from_option counted andb orb].
    split; [lia|]. split; [split; [done|]|].
    + simpl. intros k Hk. destruct (decide (k = Py.strip line)) as [->|Hkne].
      * apply lookup_insert_eq.
      * by rewrite lookup_insert_ne.
    + intros _. split; [|done]. intros _. simpl. apply lookup_insert_eq.
  - unfold add_domain, save_blocklist, write_file. fold (normalise (Py.strip line)).
    rewrite normalise_strip, is_empty_normalise, Hne. cbn [orb negb andb].
    destruct (Py.contains_char "/" (normalise line)) eqn:Eslash.
    + simpl. split; [lia|]. split; [apply keeps_refl|]. intros _. split; done.
    + cbn [negb from_option counted].
      split; [lia|]. split; [split; [|done]|].
      * simpl. intros k Hk. destruct (decide (k = normalise line)) as [->|Hkne].
        -- apply lookup_insert_eq.
        -- by rewrite lookup_insert_ne.
      * intros _. split; [done|]. intros _ _. simpl. apply lookup_insert_eq.
Qed.

Lemma import_text_loop_written (category : string) (lines : list string) :
  ∀ (i count : nat) (self : BlocklistManager) (fs : files),
    let '(count', self', _) :=
      import_loop (λ io, import_text_line io category) (λ _, Written) i lines
        (count, self, fs) in
    count' = (count + length (filter (λ l, significant l && accepted l) lines))%nat
    ∧ keeps category self self'
    ∧ ∀ line, line ∈ lines → significant line = true →
        (_is_valid_ip (Py.strip line) = true →
         blocked_ips self' !! Py.strip line = Some category)
        ∧ (_is_valid_ip (Py.strip line) = false → accepted line = true →
           blocked_domains self' !! normalise line = Some category).
Proof.
  induction lines as [|l lines IH]; intros i count self fs.
  - simpl. split; [lia|]. split; [apply keeps_refl|]. by intros line ?%elem_of_nil.
  - cbn [import_loop].
    pose proof (import_text_line_written category l count self fs) as H1.
    destruct (import_text_line Written category l (count, self, fs))
      as [[count1 self1] fs1].
    destruct H1 as (Hc1 & Hk1 & Hl1).
    specialize (IH (S i) count1 self1 fs1).
    destruct (import_loop _ _ _ _ _) as [[count2 self2] fs2].
    destruct IH as (Hc2 & Hk2 & Hl2).
    split; [|split; [by eapply keeps_trans|]].
    + rewrite filter_cons. destruct (significant l && accepted l).
      * rewrite decide_True by exact I. simpl. lia.
      * rewrite decide_False by (intros Hf; exact Hf). lia.
    + intros line [->|Hin]%elem_of_cons Hsig; [|by apply Hl2].
      destruct (Hl1 Hsig) as [Hip Hdom]. destruct Hk2 as [Hkd Hki].
      split; [intros E; by apply Hki, Hip|intros E Ha; by apply Hkd, Hdom].
Qed.

Section ImportResult.
Context `{Regex}.

(** X11.  A text import of ASCII lines whose writes all succeed returns
    the number of lines that are neither blank nor comments and are
    accepted (a valid address, or a domain without slash), and afterwards
    every such line is blocked with the category of the import: a valid
    address by [is_ip_blocked], any other accepted line by
    [is_domain_blocked], as an exact match. *)
Theorem import_text_blocks (category : string) (lines : list string)
    (self : BlocklistManager) (fs : files) :
  Forall (λ l, ascii_only l = true) lines →
  let '(count, self', _) :=
    import_text (λ _, Written) category lines (0%nat, self, fs) in
  count = length (filter (λ l, significant l && accepted l) lines)
  ∧ ∀ line, line ∈ lines → significant line = true → accepted line = true →
      if _is_valid_ip (Py.strip line)
      then is_ip_blocked line self' = (true, Some category, Some "Exact match")
      else is_domain_blocked line self' = (true, Some category, Some "Exact match").
Proof.
  intros _. unfold import_text.
  pose proof (import_text_loop_written category lines 0 0 self fs) as Hloop.
  destruct (import_loop _ _ _ _ _) as [[count self'] fs'].
  destruct Hloop as (Hc & _ & Hl). split; [done|].
  intros line Hin Hsig Hacc. destruct (Hl line Hin Hsig) as [Hip Hdom].
  destruct (_is_valid_ip (Py.strip line)) eqn:E.
  - unfold is_ip_blocked. by rewrite Hip.
  - apply is_domain_blocked_exact. by apply Hdom.
Qed.

End ImportResult.

(** Of six lines, one is a comment, one is blank, one has a slash; the
    out-of-range address is taken as a domain. *)
Example import_text_example :
  let '(count, self', _) :=
    import_text (λ _, Written) "custom" hosts_lines (0%nat, empty_store, ∅) in
  count = 3%nat
  ∧ blocked_domains self'
    = {["ads.example.com" := "custom"; "999.1.1.1" := "custom"]}
  ∧ blocked_ips self' = {["203.0.113.9" := "custom"]}.
Proof. vm_compute. repeat split; reflexivity. Qed.

Lemma import_text_blocks_witness :
  Forall (λ l, ascii_only l = true) hosts_lines
  ∧ (let '(count, self', _) :=
       import_text (λ _, Written) "custom" hosts_lines
         (0%nat, empty_store, ∅) in
     count = length (filter (λ l, significant l && accepted l) hosts_lines)
     ∧ ∀ line, line ∈ hosts_lines → significant line = true →
         accepted line = true →
         if _is_valid_ip (Py.strip line)
         then is_ip_blocked line self'
              = (true, Some "custom", Some "Exact match")
         else @is_domain_blocked literal_regex line self'
              = (true, Some "custom", Some "Exact match")).
Proof.
  assert (Forall (λ l, ascii_only l = true) hosts_lines) as Hascii.
  { unfold hosts_lines. repeat constructor. }
  split; [exact Hascii|].
  exact (@import_text_blocks literal_regex "custom" hosts_lines empty_store ∅
           Hascii).
Defined.

(** ** The filtering loop *)

Section Loop.
Context `{Regex}.

(** A rule for the destination address blocks the packet. *)
Lemma should_block_ip_rule (p : packet) (self : FilterEngine) :
  (is_ip_blocked (dst_addr p) (blocklist self)).1.1 = true →
  (_should_block_packet p self).1.1 = true.
Proof.
  unfold _should_block_packet. by destruct (is_ip_blocked _ _) as [[[] ?] ?].
Qed.

(** Without a rule for its address, a packet that is neither DNS nor web
    traffic is allowed. *)
Lemma should_block_unseen (p : packet) (self : FilterEngine) :
  (is_ip_blocked (dst_addr p) (blocklist self)).1.1 = false →
  unseen p = true →
  _should_block_packet p self = ((false, None), self).
Proof.
  intros Hip [Hdns Hweb]%andb_true_iff.
  apply negb_true_iff in Hdns, Hweb.
  unfold _should_block_packet, web_check.
  destruct (is_ip_blocked _ _) as [[[] ?] ?]; [done|].
  by rewrite Hdns, Hweb.
Qed.

(** One turn of the loop on a running engine counts the packet as
    inspected and then, unless the decision raises, once more as allowed
    or as blocked, according to the verdict. *)
Lemma filter_packet_running (env : Env) (fault : loop_fault) (p : packet)
    (self : FilterEngine) :
  running self = true →
  let '(a, self') := filter_packet env fault p self in
  blocklist self' = blocklist self
  ∧ start_time (stats self') = start_time (stats self)
  ∧ packets_inspected (stats self') = packets_inspected (stats self) + 1
  ∧ match a with
    | Break => False
    | Dropped =>
        running self' = true ∧ blocks p self = true
        ∧ packets_blocked (stats self') = packets_blocked (stats self) + 1
        ∧ packets_allowed (stats self') = packets_allowed (stats self)
    | Reinjected =>
        running self' = true ∧ blocks p self = false
        ∧ packets_allowed (stats self') = packets_allowed (stats self) + 1
        ∧ packets_blocked (stats self') = packets_blocked (stats self)
    | Failed =>
        running self' = false
        ∧ match fault with
          | NoLoopFault => False
          | DecisionRaises _ =>
              packets_allowed (stats self') = packets_allowed (stats self)
              ∧ packets_blocked (stats self') = packets_blocked (stats self)
          | LogRaises _ | SendRaises _ =>
              (packets_allowed (stats self') = packets_allowed (stats self) + 1
               ∧ packets_blocked (stats self') = packets_blocked (stats self))
              ∨ (packets_allowed (stats self') = packets_allowed (stats self)
                 ∧ packets_blocked (stats self') = packets_blocked (stats self) + 1)
          end
    end.
Proof.
  intros Hrun. unfold filter_packet, blocks. rewrite Hrun. cbn [negb].
  destruct (should_block_frame p (set_stats (incr_inspected (stats self)) self))
    as (cache & Hframe & _).
  destruct fault as [|e|e|e]; [|by repeat split|..];
    destruct (_should_block_packet p _) as [[[] reason] self1]; simpl in Hframe;
    subst self1; try destruct (log_all_traffic env); simpl;
    repeat split; auto.
Qed.

Lemma filter_packets_stopped (env : Env) (packets : list packet)
    (self : FilterEngine) :
  running self = false → filter_packets env (clean packets) self = ([], self).
Proof.
  intros Hrun. destruct packets as [|p packets]; [done|].
  simpl. unfold filter_packet. by rewrite Hrun.
Qed.

(** A run over clean deliveries is the run over a first part followed by
    the run over the rest. *)
Lemma filter_packets_app (env : Env) (before after : list packet)
    (self : FilterEngine) :
  filter_packets env (clean (before ++ after)) self
  = let '(sent1, self1) := filter_packets env (clean before) self in
    let '(sent2, self2) := filter_packets env (clean after) self1 in
    (sent1 ++ sent2, self2).
Proof.
  revert self. induction before as [|p before IH]; intros self.
  - simpl. by destruct (filter_packets env (clean after) self).
  - destruct (running self) eqn:Hrun.
    2:{ rewrite (filter_packets_stopped env ((p :: before) ++ after) self Hrun).
        rewrite (filter_packets_stopped env (p :: before) self Hrun).
        by rewrite (filter_packets_stopped env after self Hrun). }
    unfold clean in *. rewrite <- app_comm_cons, !fmap_cons.
    cbn [filter_packets].
    pose proof (filter_packet_running env NoLoopFault p self Hrun) as Hstep.
    destruct (filter_packet env NoLoopFault p self) as [a self1].
    destruct Hstep as (_ & _ & _ & Ha).
    destruct a; [done| | |by destruct Ha].
    + apply IH.
    + rewrite IH. destruct (filter_packets env _ self1) as [sent1 self2].
      by destruct (filter_packets env _ self2).
Qed.

(** One clean packet on a running engine is sent on exactly when the
    decision allows it. *)
Lemma filter_packets_one (env : Env) (p : packet) (self : FilterEngine) :
  running self = true →
  (filter_packets env (clean [p]) self).1 = if blocks p self then [] else [p].
Proof.
  intros Hrun. cbn [clean fmap list_fmap filter_packets].
  pose proof (filter_packet_running env NoLoopFault p self Hrun) as Hstep.
  destruct (filter_packet env NoLoopFault p self) as [a self1].
  destruct Hstep as (_ & _ & _ & Ha).
  destruct a; [done| | |by destruct Ha].
  - destruct Ha as (_ & -> & _). done.
  - destruct Ha as (_ & -> & _). done.
Qed.

(** X12.  Over packets that are delivered and handled without exception,
    a running loop stays running, inspects every packet and counts each
    exactly once: the allowed counter grows by the number of packets sent
    on, the blocked counter by the number dropped.  The packets sent on
    are, in the order received, exactly those that the decision allows
    when they arrive; in particular no packet to an address with an
    address rule is sent on, and every packet without such a rule that is
    neither DNS nor web traffic is.  The rule store is untouched.  A loop
    that finds the engine stopped inspects and sends nothing. *)
Theorem filter_packets_accounting (env : Env) (packets : list packet)
    (self : FilterEngine) :
  let '(sent, self') := filter_packets env (clean packets) self in
  sublist sent packets
  ∧ blocklist self' = blocklist self
  ∧ (running self = false → sent = [] ∧ self' = self)
  ∧ (running self = true →
     running self' = true
     ∧ packets_inspected (stats self')
       = packets_inspected (stats self) + Z.of_nat (length packets)
     ∧ packets_allowed (stats self')
       = packets_allowed (stats self) + Z.of_nat (length sent)
     ∧ packets_blocked (stats self')
       = packets_blocked (stats self)
         + Z.of_nat (length packets - length sent)
     ∧ (∀ before p after, packets = before ++ p :: after →
          let '(sent1, self1) := filter_packets env (clean before) self in
          sent = sent1 ++ (if blocks p self1 then [] else [p])
                 ++ (filter_packets env (clean after)
                       (filter_packets env (clean (before ++ [p])) self).2).1)
     ∧ (∀ p, p ∈ sent →
          (is_ip_blocked (dst_addr p) (blocklist self)).1.1 = false)
     ∧ (∀ p, p ∈ packets →
          (is_ip_blocked (dst_addr p) (blocklist self)).1.1 = false →
          unseen p = true → p ∈ sent)).
Proof.
  assert (∀ packets self,
            let '(sent, self') := filter_packets env (clean packets) self in
            sublist sent packets
            ∧ blocklist self' = blocklist self
            ∧ (running self = false → sent = [] ∧ self' = self)
            ∧ (running self = true →
               running self' = true
               ∧ packets_inspected (stats self')
                 = packets_inspected (stats self) + Z.of_nat (length packets)
               ∧ packets_allowed (stats self')
                 = packets_allowed (stats self) + Z.of_nat (length sent)
               ∧ packets_blocked (stats self')
                 = packets_blocked (stats self)
                   + Z.of_nat (length packets - length sent)
               ∧ (∀ p, p ∈ sent →
                    (is_ip_blocked (dst_addr p) (blocklist self)).1.1 = false)
               ∧ (∀ p, p ∈ packets →
                    (is_ip_blocked (dst_addr p) (blocklist self)).1.1 = false →
                    unseen p = true → p ∈ sent))) as Hmain.
  { clear packets self. intros packets.
    induction packets as [|p packets IH]; intros self.
    - simpl. split; [done|]. split; [done|]. split; [done|]. intros Hrun.
      split; [done|]. split; [lia|]. split; [lia|]. split; [lia|].
      split; intros q Hq; by apply elem_of_nil in Hq.
    - destruct (running self) eqn:Hrun.
      2:{ rewrite filter_packets_stopped by done.
          split; [apply sublist_nil_l|]. split; [done|]. split; [done|]. intros [=]. }
      unfold clean. rewrite fmap_cons. fold (clean packets). cbn [filter_packets].
      pose proof (filter_packet_running env NoLoopFault p self Hrun) as Hstep.
      pose proof (should_block_ip_rule p (set_stats (incr_inspected (stats self)) self))
        as Hrule.
      pose proof (should_block_unseen p (set_stats (incr_inspected (stats self)) self))
        as Hunseen.
      fold (blocks p self) in Hrule. cbn [blocklist set_stats] in Hrule, Hunseen.
      destruct (filter_packet env NoLoopFault p self) as [a self1].
      destruct Hstep as (Hstore1 & _ & Hins & Ha).
      specialize (IH self1).
      destruct (filter_packets env (clean packets) self1) as [sent self2].
      destruct IH as (Hsub & Hstore2 & _ & Hcount).
      pose proof (sublist_length _ _ Hsub) as Hlen.
      destruct a; [done| | |by destruct Ha].
      + destruct Ha as (Hrun1 & Hv & Hb & Hala).
        destruct (Hcount Hrun1) as (Hrun2 & Hi & Hal & Hbl & Hnot & Hall).
        split; [by apply sublist_cons|]. split; [congruence|]. split; [done|].
        intros _. split; [done|]. cbn [length].
        split; [lia|]. split; [lia|]. split; [lia|]. split.
        * intros q Hq. rewrite <- Hstore1. by apply Hnot.
        * intros q [->|Hq]%elem_of_cons Hfree Hu.
          -- exfalso. unfold blocks in Hv. rewrite (Hunseen Hfree Hu) in Hv.
             discriminate.
          -- apply Hall; [done| |done]. by rewrite Hstore1.
      + destruct Ha as (Hrun1 & Hv & Hala & Hb).
        destruct (Hcount Hrun1) as (Hrun2 & Hi & Hal & Hbl & Hnot & Hall).
        split; [by apply sublist_skip|]. split; [congruence|]. split; [done|].
        intros _. split; [done|]. cbn [length].
        split; [lia|]. split; [lia|]. split; [lia|]. split.
        * intros q [->|Hq]%elem_of_cons.
          -- destruct (is_ip_blocked (dst_addr p) (blocklist self)).1.1 eqn:E;
               [|done]. rewrite Hrule in Hv by done. discriminate.
          -- rewrite <- Hstore1. by apply Hnot.
        * intros q [->|Hq]%elem_of_cons Hfree Hu; [apply list_elem_of_here|].
          apply list_elem_of_further, Hall; [done| |done]. by rewrite Hstore1. }
  pose proof (Hmain packets self) as Hall.
  destruct (filter_packets env (clean packets) self) as [sent self'] eqn:Erun.
  destruct Hall as (Hsub & Hstore & Hstop & Hrun).
  split; [done|]. split; [done|]. split; [done|]. intros Hr.
  destruct (Hrun Hr) as (Hr' & Hi & Ha & Hb & Hnot & Hin).
  split; [done|]. split; [done|]. split; [done|]. split; [done|].
  split; [|by split].
  intros before p after ->.
  pose proof (Hmain before self) as Hbefore.
  replace (before ++ p :: after) with ((before ++ [p]) ++ after) in Erun
    by by rewrite <- app_assoc.
  rewrite filter_packets_app in Erun.
  rewrite (filter_packets_app env before [p] self) in Erun |- *.
  destruct (filter_packets env (clean before) self) as [sent1 self1].
  destruct Hbefore as (_ & _ & _ & Hrun1). destruct (Hrun1 Hr) as (Hr1 & _).
  pose proof (filter_packets_one env p self1 Hr1) as Hone.
  destruct (filter_packets env (clean [p]) self1) as [sent2 self2].
  simpl in Hone. subst sent2. cbn [snd] in *.
  destruct (filter_packets env (clean after) self2) as [sent3 self3].
  injection Erun as <- <-. by rewrite <- app_assoc.
Qed.

Lemma lost_bounds (env : Env) (deliveries : list delivery) (self : FilterEngine) :
  let s := stats self in
  let s' := stats (filter_packets env deliveries self).2 in
  packets_allowed s ≤ packets_allowed s'
  ∧ packets_blocked s ≤ packets_blocked s'
  ∧ lost s ≤ lost s'
  ∧ lost s' ≤ lost s + (if existsb is_decision_fault deliveries then 1 else 0).
Proof.
  revert self. unfold lost.
  induction deliveries as [|[p fault|e] deliveries IH]; intros self.
  - simpl. lia.
  - cbn [filter_packets existsb is_decision_fault].
    destruct (running self) eqn:Hrun.
    2:{ unfold filter_packet. rewrite Hrun. simpl.
        destruct (_ || _); lia. }
    pose proof (filter_packet_running env fault p self Hrun) as Hstep.
    destruct (filter_packet env fault p self) as [a self1].
    destruct Hstep as (_ & _ & Hins & Ha).
    specialize (IH self1). cbv zeta in IH.
    assert (∀ b : bool, 0 ≤ (if b then 1 else 0) ≤ 1) as Hbit
      by (intros []; lia).
    pose proof (Hbit (existsb is_decision_fault deliveries)) as Hrest.
    destruct a; [done| | |].
    + destruct Ha as (_ & _ & Hb & Hal).
      destruct (filter_packets env deliveries self1) as [sent self2].
      cbn [snd] in *. destruct fault; cbn [orb]; lia.
    + destruct Ha as (_ & _ & Hal & Hb).
      destruct (filter_packets env deliveries self1) as [sent self2].
      cbn [snd] in *. destruct fault; cbn [orb]; lia.
    + destruct Ha as (_ & Hf). cbn [snd].
      clear IH Hbit.
      destruct fault as [|e|e|e]; cbn [orb];
        [done|destruct Hf as [? ?]; lia|..];
        destruct Hf as [[? ?]|[? ?]]; destruct (existsb _ _); lia.
  - simpl. destruct (existsb _ _); lia.
Qed.

(** What one operation does to the counters: none goes down, and
    [packets_inspected] gets ahead of the two others by one at most, in a
    run of the loop in which the decision raises. *)
Lemma apply_op_lost (op : engine_op) (self : FilterEngine) :
  let s := stats self in
  let s' := stats (apply_op op self) in
  packets_allowed s ≤ packets_allowed s'
  ∧ packets_blocked s ≤ packets_blocked s'
  ∧ lost s ≤ lost s'
  ∧ lost s' ≤ lost s + (if may_lose op then 1 else 0).
Proof.
  destruct op as [env thread_error|fault|env open_error deliveries];
    cbn [apply_op may_lose].
  - unfold start, lost. destruct (PYDIVERT_AVAILABLE env); [|simpl; lia].
    destruct (filtering_enabled env); [|simpl; lia].
    destruct (running self); [simpl; lia|]. destruct thread_error; simpl; lia.
  - destruct (stop_frame fault self) as (-> & _). lia.
  - unfold _filter_loop. destruct open_error; [simpl; lia|].
    apply (lost_bounds env deliveries (set_divert_handle true self)).
Qed.

(** X13.  In every state an engine reaches from its construction by calls
    of [start] and [stop] and runs of the loop, in any order and with any
    failures, no counter is negative and [packets_inspected] is at least
    the sum of [packets_allowed] and [packets_blocked]; it exceeds the
    sum by at most the number of runs of the loop in which the decision
    raised on a packet, which was then counted as inspected only.  When
    the decision never raises the three counters are balanced, whatever
    else fails. *)
Theorem counters_balanced (store : BlocklistManager) (ops : list engine_op) :
  let s := stats (run_ops ops (new_engine store)) in
  0 ≤ packets_allowed s ∧ 0 ≤ packets_blocked s
  ∧ 0 ≤ lost s ≤ Z.of_nat (length (filter (λ op, may_lose op) ops))
  ∧ (Forall (λ op, may_lose op = false) ops → balanced s).
Proof.
  assert (∀ ops self,
            let s := stats self in
            let s' := stats (run_ops ops self) in
            packets_allowed s ≤ packets_allowed s'
            ∧ packets_blocked s ≤ packets_blocked s'
            ∧ lost s ≤ lost s'
            ∧ lost s' ≤ lost s + Z.of_nat (length (filter (λ op, may_lose op) ops)))
    as Hrun.
  { clear. intros ops. induction ops as [|op ops IH]; intros self.
    - simpl. lia.
    - cbn [run_ops foldl]. fold (run_ops ops (apply_op op self)).
      specialize (IH (apply_op op self)).
      pose proof (apply_op_lost op self) as Hop. cbv zeta in IH, Hop.
      rewrite filter_cons. destruct (may_lose op).
      + rewrite decide_True by exact I. cbn [length]. lia.
      + rewrite decide_False by (intros Hf; exact Hf). lia. }
  specialize (Hrun ops (new_engine store)). cbv zeta in Hrun.
  change (packets_allowed (stats (new_engine store))) with 0 in Hrun.
  change (packets_blocked (stats (new_engine store))) with 0 in Hrun.
  change (lost (stats (new_engine store))) with 0 in Hrun.
  destruct Hrun as (Ha & Hb & Hl & Hu).
  split; [done|]. split; [done|]. split; [lia|].
  intros Hnone.
  assert (filter (λ op, may_lose op) ops = []) as Hempty.
  { clear -Hnone. induction Hnone as [|op ops Hop _ IH]; [done|].
    rewrite filter_cons, Hop. by rewrite decide_False by (intros Hf; exact Hf). }
  rewrite Hempty in Hu. unfold balanced, lost in *. simpl in Hu. lia.
Qed.

(** Whatever fails, the packets sent on are packets that were delivered,
    in their order, none of them to an address with a rule, and each was
    counted as allowed; the rule store is untouched. *)
Lemma filter_packets_sent (env : Env) (deliveries : list delivery)
    (self : FilterEngine) :
  let '(sent, self') := filter_packets env deliveries self in
  sublist sent (delivered deliveries)
  ∧ blocklist self' = blocklist self
  ∧ (∀ p, p ∈ sent → (is_ip_blocked (dst_addr p) (blocklist self)).1.1 = false)
  ∧ Z.of_nat (length sent) ≤ packets_allowed (stats self') - packets_allowed (stats self).
Proof.
  revert self. induction deliveries as [|[p fault|e] deliveries IH]; intros self.
  - simpl. split; [done|]. split; [done|]. split; [|lia].
    intros q Hq. by apply elem_of_nil in Hq.
  - cbn [filter_packets delivered omap list_omap].
    destruct (running self) eqn:Hrun.
    2:{ unfold filter_packet. rewrite Hrun. cbn [negb].
        split; [apply sublist_nil_l|]. split; [done|]. split; [|simpl; lia].
        intros q Hq. by apply elem_of_nil in Hq. }
    pose proof (filter_packet_running env fault p self Hrun) as Hstep.
    pose proof (should_block_ip_rule p (set_stats (incr_inspected (stats self)) self))
      as Hrule.
    fold (blocks p self) in Hrule. cbn [blocklist set_stats] in Hrule.
    destruct (filter_packet env fault p self) as [a self1].
    destruct Hstep as (Hstore1 & _ & _ & Ha).
    specialize (IH self1).
    destruct (filter_packets env deliveries self1) as [sent self2].
    destruct IH as (Hsub & Hstore2 & Hnot & Hlen).
    destruct a; [done| | |].
    + destruct Ha as (_ & _ & _ & Hal).
      split; [by apply sublist_cons|]. split; [congruence|]. split; [|lia].
      intros q Hq. rewrite <- Hstore1. by apply Hnot.
    + destruct Ha as (_ & Hv & Hal & _).
      split; [by apply sublist_skip|]. split; [congruence|]. split.
      * intros q [->|Hq]%elem_of_cons.
        -- destruct (is_ip_blocked (dst_addr p) (blocklist self)).1.1 eqn:E;
             [|done]. rewrite Hrule in Hv by done. discriminate.
        -- rewrite <- Hstore1. by apply Hnot.
      * cbn [length]. lia.
    + destruct Ha as (_ & Hf).
      split; [apply sublist_nil_l|]. split; [done|]. split.
      * intros q Hq. by apply elem_of_nil in Hq.
      * simpl. destruct fault as [|e|e|e]; [done|destruct Hf as [? ?]; lia|..];
          destruct Hf as [[? ?]|[? ?]]; lia.
  - cbn [filter_packets delivered omap list_omap].
    split; [apply sublist_nil_l|]. split; [done|]. split; [|simpl; lia].
    intros q Hq. by apply elem_of_nil in Hq.
Qed.

(** An exception inside the body ends the loop: the engine is no longer
    running, the error is logged last, and the packet is not sent on. *)
Lemma filter_packet_failed (env : Env) (fault : loop_fault) (p : packet)
    (self self' : FilterEngine) :
  filter_packet env fault p self = (Failed, self') →
  running self' = false
  ∧ ∃ e, fault ∈ [DecisionRaises e; LogRaises e; SendRaises e]
         ∧ last (logger self')
           = Some (LogEvent ERROR_OCCURRED ("Filter loop error: " +:+ e)
                     (ErrorData e)).
Proof.
  unfold filter_packet. destruct (running self); [|discriminate]. cbn [negb].
  destruct fault as [|e|e|e].
  - destruct (_should_block_packet p _) as [[[] ?] ?]; [discriminate|].
    by destruct (log_all_traffic env).
  - intros [= <-]. split; [done|]. exists e. split; [set_solver|].
    cbn [loop_failed set_running log_call logger]. apply last_snoc.
  - destruct (_should_block_packet p _) as [[[] ?] ?];
      [|destruct (log_all_traffic env); [|discriminate]];
      intros [= <-]; (split; [done|]); exists e; (split; [set_solver|]);
      cbn [loop_failed set_running log_call logger]; apply last_snoc.
  - destruct (_should_block_packet p _) as [[[] ?] ?]; [discriminate|].
    destruct (log_all_traffic env);
      intros [= <-]; (split; [done|]); exists e; (split; [set_solver|]);
      cbn [loop_failed set_running log_call logger]; apply last_snoc.
Qed.

End Loop.

(** A packet on which the decision raises is counted as inspected only,
    and the loop ends there: the packet that follows is not looked at. *)
Example decision_failure_example :
  let e :=
    @run_ops literal_regex
      [OpStart env_on None;
       OpLoop env_on None
         [Delivered plain_packet NoLoopFault;
          Delivered plain_packet (DecisionRaises "no such attribute");
          Delivered plain_packet NoLoopFault]]
      (new_engine empty_store) in
  packets_inspected (stats e) = 2 ∧ packets_allowed (stats e) = 1
  ∧ packets_blocked (stats e) = 0 ∧ running e = false.
Proof. vm_compute. repeat split; reflexivity. Qed.

(** ** Verdicts *)

Section Verdicts.
Context `{Regex}.

(** X14.  A decision writes nothing but the cache entry of the packet's
    destination address: the rule store, the counters, the running flag,
    the thread and handle attributes and the log are as before, and so is
    the cache entry of every other address. *)
Theorem should_block_writes_one_entry (p : packet) (self : FilterEngine) :
  let self' := (_should_block_packet p self).2 in
  blocklist self' = blocklist self ∧ stats self' = stats self
  ∧ running self' = running self ∧ logger self' = logger self
  ∧ filter_thread self' = filter_thread self
  ∧ divert_handle self' = divert_handle self
  ∧ ∀ k, k ≠ dst_addr p → dns_cache self' !! k = dns_cache self !! k.
Proof.
  destruct (should_block_frame p self) as (cache & -> & Hcache).
  by repeat split.
Qed.

Lemma host_scan_well_formed (store : BlocklistManager) (dst_ip : string)
    (lines : list string) (cache : gmap string string) :
  well_formed (host_scan store dst_ip lines cache).1.
Proof.
  revert cache. induction lines as [|line lines IH]; intros cache; [done|].
  cbn [host_scan]. destruct (Py.startswith _ _); [|apply IH].
  destruct (Py.split1 ":" line !! 1%nat); [|done].
  destruct (is_domain_blocked _ store) as [[[] ?] ?]; [by eexists|apply IH].
Qed.

Lemma http_host_check_well_formed (p : packet) (self : FilterEngine) :
  well_formed (http_host_check p self).1.
Proof.
  unfold http_host_check. destruct (_ && _); [|done]. destruct (_ || _); [|done].
  pose proof (host_scan_well_formed (blocklist self) (dst_addr p)
                (Py.split CRLF (utf8_ignore (payload p))) (dns_cache self)) as Hw.
  by destruct (host_scan _ _ _ _).
Qed.

Lemma web_check_well_formed (p : packet) (self : FilterEngine) :
  well_formed (web_check p self).1.
Proof.
  unfold web_check. destruct (_ && _); [|done].
  destruct (dns_cache self !! dst_addr p); [|apply http_host_check_well_formed].
  destruct (is_domain_blocked _ _) as [[[] ?] ?];
    [by eexists|apply http_host_check_well_formed].
Qed.

(** X15.  Every verdict is well formed: a block always comes with a
    reason, an allow never does; and a destination address that is an IP
    rule is blocked at once, with the category of the rule, whatever the
    protocol, the ports and the payload, and without any cache write. *)
Theorem verdict_well_formed (p : packet) (self : FilterEngine) :
  ((_should_block_packet p self).1.1 = true →
   is_Some (_should_block_packet p self).1.2)
  ∧ ((_should_block_packet p self).1.1 = false →
     (_should_block_packet p self).1.2 = None)
  ∧ (∀ c, blocked_ips (blocklist self) !! Py.strip (dst_addr p) = Some c →
          _should_block_packet p self
          = ((true, Some ("Blocked IP (" +:+ c +:+ "): Exact match")), self)).
Proof.
  assert (well_formed (_should_block_packet p self).1) as Hw.
  { unfold _should_block_packet.
    destruct (is_ip_blocked _ _) as [[[] ?] ?]; [by eexists|].
    destruct (_ && _); [|apply web_check_well_formed].
    destruct (_extract_dns_domain p) as [[|a d]|]; try apply web_check_well_formed.
    destruct (is_domain_blocked _ _) as [[[] ?] ?];
      [by eexists|apply web_check_well_formed]. }
  unfold well_formed in Hw. split; [|split].
  - intros E. by rewrite E in Hw.
  - intros E. by rewrite E in Hw.
  - intros c Hc. unfold _should_block_packet, is_ip_blocked. by rewrite Hc.
Qed.

(** For a TCP segment the protocol tests read as follows. *)
Lemma web_check_https (p : packet) (self : FilterEngine) :
  tcp p = true → dst_port p = 443 →
  web_check p self
  = match dns_cache self !! dst_addr p with
    | Some domain =>
        match is_domain_blocked domain (blocklist self) with
        | (true, category, reason) =>
            ((true, Some ("Blocked HTTP/HTTPS to " +:+ domain +:+ " ("
                          +:+ fmt category +:+ "): " +:+ fmt reason)), self)
        | _ => ((false, None), self)
        end
    | None => ((false, None), self)
    end.
Proof.
  intros Htcp Hport. unfold web_check, http_host_check, protocol_of.
  rewrite Htcp, Hport. cbn [String.eqb Ascii.eqb Bool.eqb andb orb Z.eqb Pos.eqb].
  destruct (dns_cache self !! dst_addr p); [|done].
  by destruct (is_domain_blocked _ _) as [[[] ?] ?].
Qed.

(** X16.  A TCP segment to port 443 is judged by the destination address
    and the cache alone: the payload has no influence on the verdict,
    the engine is unchanged, and the segment is blocked exactly when the
    address is an IP rule or the domain cached for it is blocked. *)
Theorem https_judged_by_cache (p : packet) (self : FilterEngine) :
  tcp p = true → dst_port p = 443 →
  (_should_block_packet p self).2 = self
  ∧ (∀ data, (_should_block_packet (with_payload data p) self).1
             = (_should_block_packet p self).1)
  ∧ ((_should_block_packet p self).1.1 = true
     ↔ (is_ip_blocked (dst_addr p) (blocklist self)).1.1 = true
       ∨ ∃ domain, dns_cache self !! dst_addr p = Some domain
                   ∧ (is_domain_blocked domain (blocklist self)).1.1 = true).
Proof.
  intros Htcp Hport.
  assert (∀ q, tcp q = true → dst_port q = 443 → dst_addr q = dst_addr p →
               _should_block_packet q self
               = match is_ip_blocked (dst_addr p) (blocklist self) with
                 | (true, category, reason) =>
                     ((true, Some ("Blocked IP (" +:+ fmt category +:+ "): "
                                   +:+ fmt reason)), self)
                 | _ =>
                     match dns_cache self !! dst_addr p with
                     | Some domain =>
                         match is_domain_blocked domain (blocklist self) with
                         | (true, category, reason) =>
                             ((true, Some ("Blocked HTTP/HTTPS to " +:+ domain
                                           +:+ " (" +:+ fmt category +:+ "): "
                                           +:+ fmt reason)), self)
                         | _ => ((false, None), self)
                         end
                     | None => ((false, None), self)
                     end
                 end) as Hall.
  { intros q Hq Hqport Hqdst. rewrite (should_block_tcp q self Hq), Hqdst.
    destruct (is_ip_blocked _ _) as [[[] ?] ?]; [done|].
    by rewrite (web_check_https q self Hq Hqport), Hqdst. }
  rewrite (Hall p Htcp Hport eq_refl). split; [|split].
  - destruct (is_ip_blocked _ _) as [[[] ?] ?]; [done|].
    destruct (dns_cache self !! dst_addr p); [|done].
    by destruct (is_domain_blocked _ _) as [[[] ?] ?].
  - intros data. by rewrite (Hall (with_payload data p) Htcp Hport eq_refl).
  - destruct (is_ip_blocked _ _) as [[[] ?] ?]; [simpl; tauto|].
    destruct (dns_cache self !! dst_addr p) as [domain|].
    + destruct (is_domain_blocked domain _) as [[[] ?] ?] eqn:E; simpl.
      * split; [|done]. intros _. right. exists domain. by rewrite E.
      * split; [done|]. intros [?|(d & [= <-] & Hd)]; [done|]. by rewrite E in Hd.
    + simpl. split; [done|]. by intros [?|(d & ? & _)].
Qed.

(** X17.  A UDP packet from port 53 whose name is extracted and whose
    destination address is not an IP rule records the name in the cache
    under that address, replacing what was there, whether or not the
    name is blocked; its verdict is the answer of the rule store for the
    name.  A query, which goes to port 53 and does not come from it,
    gets the same verdict and leaves the engine unchanged. *)
Theorem dns_packet_verdict (p : packet) (self : FilterEngine) (domain : string) :
  udp p = true → tcp p = false → src_port p = 53 ∨ dst_port p = 53 →
  (is_ip_blocked (dst_addr p) (blocklist self)).1.1 = false →
  _extract_dns_domain p = Some domain → domain ≠ EmptyString →
  (_should_block_packet p self).1.1
  = (is_domain_blocked domain (blocklist self)).1.1
  ∧ (src_port p = 53 →
     (_should_block_packet p self).2
     = set_dns_cache (<[dst_addr p := domain]> (dns_cache self)) self)
  ∧ (src_port p ≠ 53 → (_should_block_packet p self).2 = self).
Proof.
  intros Hudp Htcp Hports Hip Hname Hne.
  assert (∀ e, web_check p e = ((false, None), e)) as Hweb.
  { intros e. unfold web_check, protocol_of. by rewrite Htcp, Hudp. }
  unfold _should_block_packet, protocol_of. rewrite Htcp, Hudp, Hname.
  destruct (is_ip_blocked _ _) as [[[] ?] ?]; [done|].
  replace ((dst_port p =? 53) || (src_port p =? 53)) with true.
  2:{ symmetry. apply orb_true_iff. destruct Hports as [->| ->]; auto. }
  cbn [String.eqb Ascii.eqb Bool.eqb andb].
  destruct domain as [|a d]; [done|].
  destruct (src_port p =? 53) eqn:Esrc.
  - apply Z.eqb_eq in Esrc. cbn [blocklist set_dns_cache].
    destruct (is_domain_blocked _ _) as [[[] ?] ?]; rewrite ?Hweb; by repeat split.
  - apply Z.eqb_neq in Esrc.
    destruct (is_domain_blocked _ _) as [[[] ?] ?]; rewrite ?Hweb; by repeat split.
Qed.

End Verdicts.

Lemma https_judged_by_cache_witness :
  tcp https_packet = true ∧ dst_port https_packet = 443
  ∧ (@_should_block_packet literal_regex https_packet (new_engine malware_store)).2
    = new_engine malware_store.
Proof.
  split; [reflexivity|]. split; [reflexivity|].
  apply (@https_judged_by_cache literal_regex https_packet (new_engine malware_store));
    reflexivity.
Defined.

Lemma dns_packet_verdict_witness :
  _extract_dns_domain malware_dns_answer = Some "malware.test"
  ∧ (@_should_block_packet literal_regex malware_dns_answer
       (new_engine malware_store)).1.1
    = (@is_domain_blocked literal_regex "malware.test" malware_store).1.1.
Proof.
  split; [reflexivity|].
  apply (@dns_packet_verdict literal_regex malware_dns_answer
           (new_engine malware_store) "malware.test");
    try reflexivity; [by left|discriminate].
Defined.

(** ** Complete names *)

Lemma qname_loop_end (turns : nat) (data : list byte) (pos : nat)
    (parts : list string) :
  match data !! pos with
  | None => True
  | Some b => ends_name b
  end →
  qname_loop (S turns) data pos parts = Some parts.
Proof.
  cbn [qname_loop]. destruct (data !! pos) as [b|]; [|done].
  intros [E|E].
  - by rewrite E.
  - destruct (Byte.to_nat b =? 0)%nat; [done|].
    by replace (192 <=? Byte.to_nat b)%nat with true
      by (symmetry; by apply Nat.leb_le).
Qed.

(** The loop over a complete name collects its labels. *)
Lemma qname_loop_name (data header : list byte) (labels : list (list byte))
    (rest : list byte) :
  data = header ++ flat_map wire_label labels ++ rest →
  length header = 12%nat →
  Forall (λ l, label_length (length l)) labels →
  match rest with
  | [] => True
  | b :: _ => ends_name b
  end →
  (13 ≤ length data)%nat →
  qname_loop (length data) data 12 [] = Some (utf8_ignore <$> labels).
Proof.
  intros Hdata Hhdr Hok Hend Hlong.
  pose proof (wire_labels_length labels Hok) as Hn.
  assert (length data
          = 12 + length (flat_map wire_label labels) + length rest)%nat as Hsize.
  { rewrite Hdata, !length_app. lia. }
  replace (length data)
    with (length labels + S (length data - length labels - 1))%nat at 1 by lia.
  rewrite <- Hhdr.
  rewrite (qname_loop_labels labels _ data header rest [] Hok Hdata).
  rewrite qname_loop_end; [done|].
  rewrite Hdata. rewrite lookup_app_r by lia. rewrite lookup_app_r by lia.
  replace (length header + length (flat_map wire_label labels)
           - length header - length (flat_map wire_label labels))%nat
    with 0%nat by lia.
  by destruct rest.
Qed.

(** The extractor, given what its loop returns. *)
Lemma extract_dns_domain_loop (p : packet) (parts : list string) :
  (13 ≤ length (payload p))%nat →
  qname_loop (length (payload p)) (payload p) 12 [] = Some parts →
  _extract_dns_domain p
  = match parts with
    | [] => None
    | _ :: _ => Some (Py.lower (Py.join "." parts))
    end.
Proof.
  intros Hlong Hloop. unfold _extract_dns_domain.
  destruct (payload p) as [|b0 data0] eqn:Hp; [simpl in Hlong; lia|].
  rewrite <- Hp in *.
  replace (length (payload p) <? 13)%nat with false
    by (symmetry; apply Nat.ltb_ge; lia).
  rewrite Hloop. by destruct parts.
Qed.

(** X18.  From a payload made of a twelve-byte header, complete labels,
    and then the end of the payload, a zero byte or a compression
    pointer, the extractor returns the labels, decoded, joined by dots
    and lower-cased; it returns no domain when there is no label, and
    whatever follows the end of the name is ignored. *)
Theorem extract_dns_domain_name (p : packet) (header : list byte)
    (labels : list (list byte)) (rest : list byte) :
  payload p = header ++ flat_map wire_label labels ++ rest →
  length header = 12%nat →
  Forall (λ l, label_length (length l)) labels →
  match rest with
  | [] => True
  | b :: _ => ends_name b
  end →
  _extract_dns_domain p
  = match labels with
    | [] => None
    | _ :: _ => Some (Py.lower (Py.join "." (utf8_ignore <$> labels)))
    end.
Proof.
  intros Hdata Hhdr Hok Hend.
  destruct (decide (13 ≤ length (payload p))%nat) as [Hlong|Hshort].
  - rewrite (extract_dns_domain_loop p (utf8_ignore <$> labels) Hlong).
    + by destruct labels.
    + by apply (qname_loop_name (payload p) header labels rest).
  - assert (labels = []) as ->.
    { destruct labels as [|l labels]; [done|].
      apply Forall_cons in Hok as [Hl _].
      destruct (wire_label_cons l Hl) as (b & Hb & _).
      rewrite Hdata, !length_app in Hshort. simpl in Hshort.
      rewrite Hb, length_app in Hshort. simpl in Hshort. lia. }
    unfold _extract_dns_domain. destruct (payload p); [done|].
    by replace (length (b :: l) <? 13)%nat with true
      by (symmetry; apply Nat.ltb_lt; lia).
Qed.

Lemma utf8_ignore_ascii (s : string) :
  ascii_only s = true → utf8_ignore (list_byte_of_string s) = s.
Proof.
  induction s as [|c s IH]; [done|].
  intros [Hc Hs]%andb_true_iff. specialize (IH Hs).
  change (list_byte_of_string (String c s))
    with (byte_of_ascii c :: list_byte_of_string s).
  cbn [utf8_ignore]. rewrite IH.
  destruct c as [[] [] [] [] [] [] [] []]; try discriminate Hc; reflexivity.
Qed.

Lemma length_list_byte_of_string (s : string) :
  length (list_byte_of_string s) = String.length s.
Proof.
  induction s as [|c s IH]; [done|].
  change (list_byte_of_string (String c s))
    with (byte_of_ascii c :: list_byte_of_string s).
  simpl. by rewrite IH.
Qed.

Lemma ascii_only_app (a b : string) :
  ascii_only (a +:+ b) = ascii_only a && ascii_only b.
Proof.
  induction a as [|c a IH]; [done|]. rewrite string_app_cons. simpl.
  by rewrite IH, andb_assoc.
Qed.

Lemma ascii_only_split (s : string) :
  ascii_only s = true → Forall (λ w, ascii_only w = true) (Py.split "." s).
Proof.
  induction s as [|c s IH]; [by repeat constructor|].
  intros [Hc Hs]%andb_true_iff. specialize (IH Hs).
  rewrite split_dot_cons. destruct (Ascii.eqb "." c); [by constructor|].
  pose proof (split_dot_nonempty s) as Hne.
  destruct (Py.split "." s) as [|w ws]; [done|].
  apply Forall_cons in IH as [Hw Hws]. simpl. constructor; [|done].
  simpl. by rewrite Hc, Hw.
Qed.

Lemma utf8_ignore_labels (ws : list string) :
  Forall (λ w, ascii_only w = true) ws →
  utf8_ignore <$> (list_byte_of_string <$> ws) = ws.
Proof.
  induction 1 as [|w ws Hw _ IH]; [done|].
  rewrite !fmap_cons, IH. by rewrite utf8_ignore_ascii.
Qed.

(** X19.  Encoding and extraction compose: for an ASCII domain name whose
    labels have between 1 and 191 characters, the extractor applied to a
    twelve-byte header followed by the wire form of the name, and by
    anything, returns the name in lower case. *)
Theorem extract_encoded_name (p : packet) (header rest : list byte)
    (name : string) :
  payload p = header ++ encode_name name ++ rest →
  length header = 12%nat →
  ascii_only name = true →
  Forall (λ w, label_length (String.length w)) (Py.split "." name) →
  _extract_dns_domain p = Some (Py.lower name).
Proof.
  intros Hdata Hhdr Hascii Hlabels.
  pose proof (utf8_ignore_labels _ (ascii_only_split name Hascii)) as Hdecode.
  assert (payload p
          = header ++ flat_map wire_label (list_byte_of_string <$> Py.split "." name)
            ++ x00 :: rest) as Hshape.
  { rewrite Hdata. unfold encode_name. by rewrite <- app_assoc. }
  assert (13 ≤ length (payload p))%nat as Hlong.
  { rewrite Hshape, !length_app. simpl. lia. }
  rewrite (extract_dns_domain_loop p (Py.split "." name) Hlong).
  - rewrite join_split_dot. pose proof (split_dot_nonempty name).
    by destruct (Py.split "." name).
  - rewrite <- Hdecode.
    apply (qname_loop_name (payload p) header _ (x00 :: rest)); try done.
    + apply Forall_fmap. eapply Forall_impl; [exact Hlabels|].
      intros w Hw. simpl. by rewrite length_list_byte_of_string.
    + by left.
Qed.

Lemma extract_dns_domain_name_witness :
  _extract_dns_domain
    (udp_packet "192.0.2.53" "192.0.2.1" 53 50000 (complete_query ++ [xc0; x0c]))
  = Some "www.example.com".
Proof.
  apply (extract_dns_domain_name
           (udp_packet "192.0.2.53" "192.0.2.1" 53 50000 (complete_query ++ [xc0; x0c]))
           dns_header
           [list_byte_of_string "www"; list_byte_of_string "example";
            list_byte_of_string "com"]
           [x00; xc0; x0c]).
  - reflexivity.
  - reflexivity.
  - repeat constructor; vm_compute; lia.
  - by left.
Defined.

Lemma extract_encoded_name_witness :
  _extract_dns_domain
    (udp_packet "192.0.2.53" "192.0.2.1" 53 50000
       (dns_header ++ encode_name "Mail.Example.ORG" ++ [x00; x01; x00; x01]))
  = Some "mail.example.org".
Proof.
  apply (extract_encoded_name
           (udp_packet "192.0.2.53" "192.0.2.1" 53 50000
              (dns_header ++ encode_name "Mail.Example.ORG" ++ [x00; x01; x00; x01]))
           dns_header [x00; x01; x00; x01] "Mail.Example.ORG").
  - reflexivity.
  - reflexivity.
  - reflexivity.
  - repeat constructor; vm_compute; lia.
Defined.

(** ** Starting and stopping *)

(** X20.  [stop()] always leaves the engine stopped and is idempotent: a
    second [stop()] returns success and changes nothing, whatever failed
    in the first.  For a stopped engine, [start()] succeeds exactly when
    [pydivert] is available, filtering is enabled and the thread starts;
    the running flag afterwards is the result of the call; a call that
    passes the two checks sets [start_time] to the clock even when the
    thread then fails to start; counters, cache and rule store are never
    changed. *)
Theorem start_stop_outcomes (env : Env) (thread_error : option string)
    (fault fault' : stop_fault) (self : FilterEngine) :
  stop fault' (stop fault self).2 = (true, (stop fault self).2)
  ∧ (running self = false →
     let '(ok, self') := start env thread_error self in
     (ok = true ↔ PYDIVERT_AVAILABLE env = true ∧ filtering_enabled env = true
                  ∧ thread_error = None)
     ∧ running self' = ok
     ∧ start_time (stats self')
       = (if PYDIVERT_AVAILABLE env && filtering_enabled env
          then Some (now env) else start_time (stats self))
     ∧ packets_inspected (stats self') = packets_inspected (stats self)
     ∧ packets_allowed (stats self') = packets_allowed (stats self)
     ∧ packets_blocked (stats self') = packets_blocked (stats self)
     ∧ dns_cache self' = dns_cache self ∧ blocklist self' = blocklist self).
Proof.
  split.
  - pose proof (stop_not_running fault self) as Hrun.
    unfold stop at 1. by rewrite Hrun.
  - intros Hrun. unfold start. rewrite Hrun.
    destruct (PYDIVERT_AVAILABLE env), (filtering_enabled env), thread_error;
      simpl; repeat split; try done; by intros (? & ? & ?).
Qed.

Lemma start_stop_outcomes_witness :
  running (new_engine empty_store) = false
  ∧ (start env_on (Some "can't start new thread") (new_engine empty_store)).1 = false
  ∧ start_time (stats (start env_on (Some "can't start new thread")
                         (new_engine empty_store)).2) = Some 1000.
Proof.
  split; [reflexivity|].
  pose proof (start_stop_outcomes env_on (Some "can't start new thread") NoFault NoFault
                (new_engine empty_store)) as [_ Hs].
  specialize (Hs eq_refl).
  destruct (start env_on (Some "can't start new thread") (new_engine empty_store))
    as [ok self'] eqn:E.
  destruct Hs as (Hok & _ & Ht & _). split; [|exact Ht].
  destruct ok; [|reflexivity]. destruct Hok as [Hok _].
  destruct (Hok eq_refl) as (_ & _ & Hno). discriminate Hno.
Defined.

(** ** The configuration *)

Lemma dict_get_set_eq (key : string) (value : json) (items : list (string * json)) :
  dict_get key (dict_set key value items) = Some value.
Proof.
  induction items as [|[k v] items IH]; simpl.
  - by rewrite String.eqb_refl.
  - destruct (String.eqb k key) eqn:E; simpl; rewrite E; [done|apply IH].
Qed.

Lemma dict_get_set_ne (key key' : string) (value : json)
    (items : list (string * json)) :
  key ≠ key' → dict_get key' (dict_set key value items) = dict_get key' items.
Proof.
  intros Hne. induction items as [|[k v] items IH]; simpl.
  - by apply String.eqb_neq in Hne as ->.
  - destruct (String.eqb k key) eqn:E; simpl.
    + apply String.eqb_eq in E as ->. by apply String.eqb_neq in Hne as ->.
    + by rewrite IH.
Qed.

Lemma set_keys_cons (key key2 : string) (keys : list string) (value config : json) :
  set_keys (key :: key2 :: keys) value config
  = match config with
    | JDict items =>
        match set_keys (key2 :: keys) value
                (option.default (JDict []) (dict_get key items)) with
        | Some sub => Some (JDict (dict_set key sub items))
        | None => None
        end
    | _ => None
    end.
Proof. reflexivity. Qed.

Lemma get_after_set_keys (keys : list string) (value config config' default : json) :
  set_keys keys value config = Some config' →
  get_keys keys config' default = value.
Proof.
  revert config config'. induction keys as [|key keys IH]; intros config config';
    [done|].
  destruct keys as [|key2 keys].
  - simpl. destruct config; try discriminate. intros [= <-].
    simpl. by rewrite dict_get_set_eq.
  - rewrite set_keys_cons. destruct config as [| | | | |items]; try discriminate.
    destruct (set_keys (key2 :: keys) value _) as [sub|] eqn:E; [|discriminate].
    intros [= <-]. cbn [get_keys]. rewrite dict_get_set_eq. by eapply IH.
Qed.

Lemma get_keys_empty_dict (keys : list string) (default : json) :
  keys ≠ [] → get_keys keys (JDict []) default = default.
Proof. by destruct keys. Qed.

Lemma set_keys_frame (pre : list string) :
  ∀ (k1 k2 : string) (r1 r2 : list string) (value config config' default : json),
    k1 ≠ k2 →
    set_keys (pre ++ k1 :: r1) value config = Some config' →
    get_keys (pre ++ k2 :: r2) config' default
    = get_keys (pre ++ k2 :: r2) config default.
Proof.
  induction pre as [|k pre IH]; intros k1 k2 r1 r2 value config config' default Hne.
  - simpl app. destruct r1 as [|k1' r1].
    + simpl. destruct config; try discriminate. intros [= <-]. simpl.
      by rewrite dict_get_set_ne.
    + rewrite set_keys_cons. destruct config as [| | | | |items]; try discriminate.
      destruct (set_keys (k1' :: r1) value _) as [sub|]; [|discriminate].
      intros [= <-]. cbn [get_keys]. by rewrite dict_get_set_ne.
  - change ((k :: pre) ++ k1 :: r1) with (k :: (pre ++ k1 :: r1)).
    change ((k :: pre) ++ k2 :: r2) with (k :: (pre ++ k2 :: r2)).
    assert (∀ c, set_keys (k :: (pre ++ k1 :: r1)) value c
                 = match c with
                   | JDict items =>
                       match set_keys (pre ++ k1 :: r1) value
                               (option.default (JDict []) (dict_get k items)) with
                       | Some sub => Some (JDict (dict_set k sub items))
                       | None => None
                       end
                   | _ => None
                   end) as Hunfold.
    { intros c. destruct (pre ++ k1 :: r1) as [|a rest] eqn:Etail;
        [by destruct pre|apply set_keys_cons]. }
    rewrite Hunfold. destruct config as [| | | | |items]; try discriminate.
    destruct (set_keys (pre ++ k1 :: r1) value _) as [sub|] eqn:E; [|discriminate].
    intros [= <-]. cbn [get_keys]. rewrite dict_get_set_eq.
    rewrite (IH k1 k2 r1 r2 value _ sub default Hne E).
    destruct (dict_get k items) as [v0|]; [done|].
    apply get_keys_empty_dict. by destruct pre.
Qed.

(** X21.  Reading back what was set: when [set(key_path, value)] does
    not raise, it returns the outcome of the save, and [get(key_path)]
    on the new configuration returns [value], whatever default is
    passed and whether or not the save succeeded; a path of a single key
    on a dict never raises. *)
Theorem config_get_after_set (saved : bool) (key_path : string)
    (value config : json) :
  (∀ r config', config_set saved key_path value config = Some (r, config') →
     r = saved ∧ ∀ default, config_get key_path default config' = value)
  ∧ (∀ items, config = JDict items → Py.split "." key_path = [key_path] →
       config_set saved key_path value config
       = Some (saved, JDict (dict_set key_path value items))).
Proof.
  unfold config_set, config_get. split.
  - intros r config'.
    destruct (set_keys _ value config) as [c|] eqn:E; [|discriminate].
    intros [= <- <-]. split; [done|]. intros default.
    by apply (get_after_set_keys _ value config).
  - intros items -> ->. done.
Qed.

(** X22.  Setting one path leaves the others alone: if two paths part
    ways at some key, a successful [set] on the first does not change
    what [get] returns for the second. *)
Theorem config_set_other_path (saved : bool) (key_path key_path' : string)
    (pre r1 r2 : list string) (k1 k2 : string) (value config default : json) :
  Py.split "." key_path = pre ++ k1 :: r1 →
  Py.split "." key_path' = pre ++ k2 :: r2 →
  k1 ≠ k2 →
  ∀ r config', config_set saved key_path value config = Some (r, config') →
    config_get key_path' default config' = config_get key_path' default config.
Proof.
  intros Hp Hp' Hne r config'. unfold config_set, config_get. rewrite Hp, Hp'.
  destruct (set_keys _ value config) as [c|] eqn:E; [|discriminate].
  intros [= <- <-]. by eapply set_keys_frame.
Qed.

(** X23.  The engine reads what the configuration holds.  After a
    successful [set('filtering.enabled', value)] the flag [start] tests
    is the truth value of [value] and the traffic-logging flag is as
    before.  With a configuration whose flag is off, or after the flag
    was set to a false value, [start] fails on every engine; after the
    flag was set to a true value, [start] succeeds on a stopped engine
    when pydivert is available and the thread starts.  The configuration
    is any value of [self.config]: nothing is assumed about how it came
    from the defaults. *)
Theorem filtering_flag_follows_config (saved : bool) (pydivert : bool) (clock : Z)
    (value config : json) :
  (∀ r config', config_set saved "filtering.enabled" value config = Some (r, config') →
     filtering_enabled (env_of_config pydivert clock config') = truthy value
     ∧ log_all_traffic (env_of_config pydivert clock config')
       = log_all_traffic (env_of_config pydivert clock config))
  ∧ (∀ thread_error self,
       truthy (config_get "filtering.enabled" (JBool false) config) = false →
       (start (env_of_config pydivert clock config) thread_error self).1 = false)
  ∧ (∀ r config' thread_error self,
       config_set saved "filtering.enabled" value config = Some (r, config') →
       truthy value = false →
       (start (env_of_config pydivert clock config') thread_error self).1 = false)
  ∧ (∀ r config' self,
       config_set saved "filtering.enabled" value config = Some (r, config') →
       truthy value = true → running self = false →
       (start (env_of_config true clock config') None self).1 = true).
Proof.
  assert (∀ r config',
            config_set saved "filtering.enabled" value config = Some (r, config') →
            truthy (config_get "filtering.enabled" (JBool false) config')
            = truthy value) as Hflag.
  { intros r config' Hset. unfold config_set, config_get in *.
    change (Py.split "." "filtering.enabled") with ([] ++ "filtering" :: ["enabled"]) in *.
    destruct (set_keys _ value config) as [c|] eqn:E; [|discriminate].
    injection Hset as <- <-. f_equal. by apply (get_after_set_keys _ value config). }
  assert (∀ (available : bool) c thread_error self,
            truthy (config_get "filtering.enabled" (JBool false) c) = false →
            (start (env_of_config available clock c) thread_error self).1 = false)
    as Hoff.
  { intros available c thread_error self Hc. unfold start, env_of_config.
    cbn [PYDIVERT_AVAILABLE filtering_enabled]. rewrite Hc.
    by destruct available. }
  split; [|split; [|split]].
  - intros r config' Hset. unfold env_of_config. cbn [filtering_enabled log_all_traffic].
    split; [by eapply Hflag|].
    unfold config_set, config_get in *.
    change (Py.split "." "filtering.enabled") with ([] ++ "filtering" :: ["enabled"]) in *.
    change (Py.split "." "monitoring.log_all_traffic")
      with ([] ++ "monitoring" :: ["log_all_traffic"]).
    destruct (set_keys _ value config) as [c|] eqn:E; [|discriminate].
    injection Hset as <- <-.
    f_equal. by eapply (set_keys_frame [] "filtering" "monitoring").
  - intros thread_error self Hc. by apply Hoff.
  - intros r config' thread_error self Hset Hv. apply Hoff.
    by rewrite (Hflag r config' Hset).
  - intros r config' self Hset Hv Hrun. unfold start, env_of_config.
    cbn [PYDIVERT_AVAILABLE filtering_enabled].
    rewrite (Hflag r config' Hset), Hv, Hrun. reflexivity.
Qed.

Lemma config_set_other_path_witness :
  Py.split "." "filtering.enabled" = ["filtering"] ++ "enabled" :: []
  ∧ Py.split "." "filtering.block_mode" = ["filtering"] ++ "block_mode" :: []
  ∧ ∀ r config',
      config_set true "filtering.enabled" (JBool true) DEFAULT_CONFIG = Some (r, config') →
      config_get "filtering.block_mode" JNull config'
      = config_get "filtering.block_mode" JNull DEFAULT_CONFIG.
Proof.
  split; [reflexivity|]. split; [reflexivity|].
  apply (config_set_other_path true "filtering.enabled" "filtering.block_mode"
           ["filtering"] [] [] "enabled" "block_mode" (JBool true) DEFAULT_CONFIG JNull);
    [reflexivity|reflexivity|discriminate].
Defined.

(** *** Merging with the defaults *)

Lemma merge_value_dicts (d l : list (string * json)) :
  merge_value (JDict d) (JDict l) = JDict (merge_items l d).
Proof. reflexivity. Qed.

Lemma merge_items_cons (key : string) (value : json)
    (l result : list (string * json)) :
  merge_items ((key, value) :: l) result
  = merge_items l (dict_set key (merged_item (dict_get key result) value) result).
Proof.
  unfold merge_items, merged_item. cbn [merge_value].
  destruct (dict_get key result) as [[]|]; destruct value; reflexivity.
Qed.

Lemma dict_get_absent (key : string) (items : list (string * json)) :
  key ∉ items.*1 → dict_get key items = None.
Proof.
  induction items as [|[k v] items IH]; [done|]. simpl.
  intros [Hne Hin]%not_elem_of_cons.
  destruct (String.eqb_spec k key) as [->|_]; [done|]. by apply IH.
Qed.

(** What the merge holds under a key. *)
Lemma dict_get_merge_items (key : string) (l : list (string * json)) :
  ∀ d, NoDup l.*1 →
       dict_get key (merge_items l d)
       = match dict_get key l with
         | Some x => Some (merged_item (dict_get key d) x)
         | None => dict_get key d
         end.
Proof.
  induction l as [|[k v] l IH]; intros d Hnd; [done|].
  apply NoDup_cons in Hnd as [Hk Hnd]. rewrite merge_items_cons, IH by done.
  simpl. destruct (String.eqb_spec k key) as [->|Hne].
  - rewrite (dict_get_absent key l Hk). apply dict_get_set_eq.
  - by rewrite dict_get_set_ne.
Qed.

Lemma dict_get_merge_items_default (key : string) (l : list (string * json)) :
  ∀ d, is_Some (dict_get key d) → is_Some (dict_get key (merge_items l d)).
Proof.
  induction l as [|[k v] l IH]; intros d Hd; [done|].
  rewrite merge_items_cons. apply IH.
  destruct (String.eqb_spec k key) as [->|Hne].
  - rewrite dict_get_set_eq. by eexists.
  - by rewrite dict_get_set_ne.
Qed.

Lemma wf_json_dict (items : list (string * json)) :
  wf_json (JDict items) = true →
  NoDup items.*1 ∧ ∀ key x, dict_get key items = Some x → wf_json x = true.
Proof.
  cbn [wf_json]. intros [Hnd Hall]%andb_true_iff. split.
  - by apply bool_decide_eq_true in Hnd.
  - clear Hnd. induction items as [|[k v] items IH]; [done|].
    apply andb_true_iff in Hall as [Hv Hall]. intros key x. simpl.
    destruct (String.eqb k key); [by intros [= <-]|by apply IH].
Qed.

Lemma find_keys_get (keys : list string) (config v default : json) :
  find_keys keys config = Some v → get_keys keys config default = v.
Proof.
  revert config. induction keys as [|key keys IH]; intros config; simpl.
  - by intros [= <-].
  - destruct config; try discriminate.
    destruct (dict_get key items); [apply IH|discriminate].
Qed.

Lemma merge_value_keeps_loaded (keys : list string) :
  ∀ (default loaded v : json),
    wf_json loaded = true → keys ≠ [] →
    find_keys keys loaded = Some v → is_dict v = false →
    find_keys keys (merge_value default loaded) = Some v.
Proof.
  induction keys as [|key keys IH]; intros default loaded v Hwf Hne Hfind Hleaf;
    [done|].
  destruct loaded as [| | | | |l]; try discriminate Hfind.
  destruct default as [| | | | |d]; try exact Hfind.
  rewrite merge_value_dicts. destruct (wf_json_dict l Hwf) as [Hnd Hsub].
  cbn [find_keys] in *. rewrite dict_get_merge_items by done.
  destruct (dict_get key l) as [x|] eqn:Ex; [|discriminate].
  destruct keys as [|key2 keys].
  - injection Hfind as ->. unfold merged_item.
    destruct (dict_get key d) as [[]|]; destruct v; done.
  - unfold merged_item.
    destruct (dict_get key d) as [dv|]; [|done].
    destruct dv; try done. destruct x as [| | | | |xl]; try done.
    apply IH; [by eapply Hsub|done|done|done].
Qed.

(** X24.  Merging a loaded configuration with the defaults: a loaded
    value that is not a dict makes the call raise; for a loaded dict,
    every top-level key of the defaults is present in the result, and
    every setting the loaded configuration holds, at any depth, is in
    the result with the loaded value, so that [get] returns it. *)
Theorem merge_with_defaults_keeps_loaded (config : json) :
  (is_dict config = false → _merge_with_defaults config = None)
  ∧ (is_dict config = true →
     ∃ items,
       _merge_with_defaults config = Some (JDict items)
       ∧ (∀ key, is_Some (find_keys [key] DEFAULT_CONFIG) →
                 is_Some (dict_get key items))
       ∧ (wf_json config = true →
          ∀ key_path v default,
            find_keys (Py.split "." key_path) config = Some v →
            is_dict v = false →
            config_get key_path default (JDict items) = v)).
Proof.
  split; [by destruct config|].
  destruct config as [| | | | |l]; try discriminate. intros _.
  exists (merge_items l
            (match DEFAULT_CONFIG with JDict d => d | _ => [] end)).
  split; [reflexivity|]. split.
  - intros key Hkey. apply dict_get_merge_items_default.
    cbn [find_keys DEFAULT_CONFIG] in Hkey.
    by destruct (dict_get key _).
  - intros Hwf key_path v default Hfind Hleaf. unfold config_get.
    apply find_keys_get.
    change (JDict (merge_items l (match DEFAULT_CONFIG with JDict d => d | _ => [] end)))
      with (merge_value DEFAULT_CONFIG (JDict l)).
    apply merge_value_keeps_loaded; try done.
    apply split_dot_nonempty.
Qed.

(** A loaded file that enables filtering and adds a key of its own. *)
Example merge_example :
  ∃ merged,
    _merge_with_defaults
      (JDict [("filtering", JDict [("enabled", JBool true)]); ("extra", JInt 1)])
    = Some merged
    ∧ config_get "filtering.enabled" JNull merged = JBool true
    ∧ config_get "filtering.block_mode" JNull merged = JStr "drop"
    ∧ config_get "extra" JNull merged = JInt 1
    ∧ config_get "logging.level" JNull merged = JStr "INFO".
Proof. eexists. split; [reflexivity|]. vm_compute. done. Qed.

(** ** Clearing a category and the statistics *)

Lemma count_category_empty (c : string) : count_category ∅ c = 0%nat.
Proof. unfold count_category. by rewrite map_to_list_empty. Qed.

Lemma count_category_insert (m : gmap string string) (k v c : string) :
  m !! k = None →
  count_category (<[k := v]> m) c
  = ((if decide (v = c) then 1 else 0) + count_category m c)%nat.
Proof.
  intros Hk. unfold count_category.
  rewrite (map_to_list_insert m k v Hk). rewrite fmap_cons, filter_cons. simpl.
  by destruct (decide (v = c)).
Qed.

(** What filtering a category out does to the counts and to the size. *)
Lemma count_category_filter (m : gmap string string) (c : string) :
  (∀ c', count_category (filter (λ kc, kc.2 ≠ c) m) c'
         = if decide (c' = c) then 0%nat else count_category m c')
  ∧ (size (filter (λ kc : string * string, kc.2 ≠ c) m) + count_category m c
     = size m)%nat.
Proof.
  induction m as [|k v m Hk [IHc IHs]] using map_ind.
  - rewrite map_filter_empty. split.
    + intros c'. rewrite !count_category_empty. by destruct (decide _).
    + by rewrite map_size_empty, count_category_empty.
  - destruct (decide (v = c)) as [->|Hv].
    + rewrite map_filter_insert_False by (simpl; tauto).
      rewrite delete_id by done. split.
      * intros c'. rewrite IHc, count_category_insert by done.
        destruct (decide (c' = c)) as [->|Hc']; [done|].
        by rewrite decide_False by done.
      * rewrite count_category_insert, map_size_insert_None by done.
        rewrite decide_True by done. lia.
    + rewrite map_filter_insert_True by done.
      assert (filter (λ kc : string * string, kc.2 ≠ c) m !! k = None) as Hfk.
      { apply map_lookup_filter_None. by left. }
      split.
      * intros c'. rewrite !count_category_insert, IHc by done.
        destruct (decide (c' = c)) as [->|Hc']; [|done].
        by rewrite decide_False by done.
      * rewrite !map_size_insert_None, count_category_insert by done.
        rewrite decide_False by done. lia.
Qed.

(** X25.  After [clear_category(c)] the statistics show no domain and no
    address of category [c]; [total_domains] and [total_ips] have gone
    down by exactly the numbers of domains and addresses that had the
    category, and the counts of every other category are unchanged. *)
Theorem clear_category_statistics (io : write_result) (c : string)
    (self : BlocklistManager) (fs : files) :
  let self' := (clear_category io c self fs).1.2 in
  let before := get_statistics self in
  let after := get_statistics self' in
  count_category (blocked_domains self') c = 0%nat
  ∧ count_category (blocked_ips self') c = 0%nat
  ∧ (total_domains after + count_category (blocked_domains self) c
     = total_domains before)%nat
  ∧ (total_ips after + count_category (blocked_ips self) c = total_ips before)%nat
  ∧ (total_patterns after ≤ total_patterns before)%nat
  ∧ ∀ c', c' ≠ c →
      count_category (blocked_domains self') c'
      = count_category (blocked_domains self) c'
      ∧ count_category (blocked_ips self') c' = count_category (blocked_ips self) c'.
Proof.
  unfold clear_category. destruct (save_blocklist _ _ _ _) as [r fs'].
  cbn [fst snd get_statistics total_domains total_ips total_patterns
       blocked_domains blocked_ips blocked_patterns].
  destruct (count_category_filter (blocked_domains self) c) as [Hdc Hds].
  destruct (count_category_filter (blocked_ips self) c) as [Hic His].
  split; [by rewrite Hdc, decide_True|]. split; [by rewrite Hic, decide_True|].
  split; [done|]. split; [done|]. split; [apply length_filter|].
  intros c' Hc'. by rewrite Hdc, Hic, !decide_False.
Qed.

(** ** The Host header *)

Section HostHeader.
Context `{Regex}.

(** X26.  The scan of an HTTP request stops at nothing before the first
    line that starts with [host:] in any case.  The host taken from that
    line is what follows the colon, trimmed and cut at the next colon, so
    that it never holds a port; it is written to the cache under the
    destination address and, if the rule store blocks it, the verdict
    names it; otherwise the scan goes on with the lines that follow. *)
Theorem host_scan_first_host (store : BlocklistManager) (dst_ip : string)
    (before after : list string) (header value : string)
    (cache : gmap string string) :
  Forall (λ l, Py.startswith (Py.lower l) "host:" = false) before →
  Py.lower header = "host" →
  let host := default EmptyString (head (Py.split ":" (Py.strip value))) in
  Py.contains_char ":" host = false
  ∧ host_scan store dst_ip (before ++ (header +:+ ":" +:+ value) :: after) cache
    = match is_domain_blocked host store with
      | (true, category, reason) =>
          ((true, Some ("Blocked HTTP Host (" +:+ fmt category +:+ "): "
                        +:+ host +:+ " - " +:+ fmt reason)),
           <[dst_ip := host]> cache)
      | _ => host_scan store dst_ip after (<[dst_ip := host]> cache)
      end.
Proof.
  intros Hbefore Hheader host. split; [apply head_split_no_colon|].
  induction Hbefore as [|l before Hl _ IH].
  - destruct (host_line_parts header value Hheader) as [Hstart Hcut].
    cbn [app host_scan]. rewrite Hstart, Hcut. fold host.
    by destruct (is_domain_blocked host store) as [[[] ?] ?].
  - cbn [app host_scan]. by rewrite Hl.
Qed.

End HostHeader.

Lemma host_scan_first_host_witness :
  (@host_scan literal_regex ads_store "198.51.100.7"
     (["GET / HTTP/1.1"; "Accept: */*"] ++ ("HoSt" +:+ ":" +:+ " cdn.ads.com:8080 ") :: [""])
     ∅).2 !! "198.51.100.7"
  = Some "cdn.ads.com".
Proof.
  pose proof (@host_scan_first_host literal_regex ads_store "198.51.100.7"
                ["GET / HTTP/1.1"; "Accept: */*"] [""] "HoSt" " cdn.ads.com:8080 " ∅)
    as Hscan.
  destruct Hscan as [_ ->]; [by repeat constructor|reflexivity|].
  reflexivity.
Defined.
